(** * Multiplicative LSTM cell with a weight-normalised linear map

    A shallow embedding of [MultiplicativeLSTMCell.py]: the helper [_linear],
    the cell's constructor and its step function [__call__], and the
    [orthogonal_initializer].

    Numbers are real numbers ([R]); a tensor carries the static shape the
    graph builder knows and its run-time value.  The framework's variable
    store is a finite map from full variable names to values, threaded
    through every call; Python exceptions are an explicit outcome.

    The functions come in two layers.  [_linear] and [__call__] are written
    over the framework's operations as computations, and say what the code
    computes on operands that fit together.  [Checked._linear] and
    [Checked.__call__] are the same statements over the operations with the
    framework's shape inference and variable sharing rules in front of them,
    and say which errors the code raises and when; where the shapes fit and
    the store can be used the two agree ([checked_linear_agrees],
    [checked_call_agrees]). *)

From Stdlib Require Import Reals Lra Lia.
From stdpp Require Import base option list strings gmap.

Local Open Scope string_scope.
Local Open Scope list_scope.

(** ** Values: matrices of reals *)

(** A run-time value is a list of rows.  A rank-1 tensor of [n] entries is
    kept as one row, a scalar as one row of one entry: this is how the
    framework aligns shapes when it broadcasts. *)
Abbreviation matrix := (list (list R)).

Definition ncols (m : matrix) : nat := length (hd [] m).

Definition column (k : nat) (m : matrix) : list R :=
  fmap (fun r => nth k r 0%R) m.

Definition columns (m : matrix) : list (list R) :=
  fmap (fun k => column k m) (seq 0 (ncols m)).

Definition dot (u v : list R) : R :=
  foldr Rplus 0%R (zip_with Rmult u v).

Definition sum_squares (u : list R) : R :=
  foldr (fun x acc => (x * x + acc)%R) 0%R u.

(** Euclidean norm of a vector. *)
Definition norm (u : list R) : R := sqrt (sum_squares u).

(** Broadcasting zip: a one-element operand is stretched over the other. *)
Definition bzip {A B : Type} (f : A -> A -> B) (l1 l2 : list A) : list B :=
  match l1, l2 with
  | [x], _ => fmap (f x) l2
  | _, [y] => fmap (fun x => f x y) l1
  | _, _ => zip_with f l1 l2
  end.

Definition broadcast (op : R -> R -> R) (a b : matrix) : matrix :=
  bzip (bzip op) a b.

Definition mmap (f : R -> R) (a : matrix) : matrix :=
  fmap (fun row : list R => fmap f row) a.

Definition matmul (a b : matrix) : matrix :=
  fmap (fun row => fmap (fun col => dot row col) (columns b)) a.

(** Concatenation along axis 1: the rows are joined one by one. *)
Fixpoint concat1 (ms : list matrix) : matrix :=
  match ms with
  | [] => []
  | [m] => m
  | m :: rest => zip_with app m (concat1 rest)
  end.

Definition sigmoid (x : R) : R := (1 / (1 + exp (- x)))%R.

Definition clip (lo hi x : R) : R := Rmax (Rmin x hi) lo.

(** ** Static shapes and tensors *)

Abbreviation Dimension := (option nat).

(** [None] is a shape of unknown rank. *)
Abbreviation TensorShape := (option (list (option nat))).

Record Tensor : Type := mkTensor {
  get_shape : TensorShape;
  value : matrix
}.

Definition bdim (a b : Dimension) : Dimension :=
  match a, b with
  | Some 1, d => d
  | d, Some 1 => d
  | Some x, _ => Some x
  | None, d => d
  end.

Fixpoint broadcast_rev (s1 s2 : list Dimension) : list Dimension :=
  match s1, s2 with
  | [], s => s
  | s, [] => s
  | d1 :: r1, d2 :: r2 => bdim d1 d2 :: broadcast_rev r1 r2
  end.

Definition broadcast_shape (s1 s2 : TensorShape) : TensorShape :=
  match s1, s2 with
  | Some l1, Some l2 => Some (rev (broadcast_rev (rev l1) (rev l2)))
  | _, _ => None
  end.

Definition tf_constant (x : R) : Tensor := mkTensor (Some []) [[x]].

Definition tf_binary (op : R -> R -> R) (a b : Tensor) : Tensor :=
  mkTensor (broadcast_shape (get_shape a) (get_shape b))
           (broadcast op (value a) (value b)).

Definition tf_add : Tensor -> Tensor -> Tensor := tf_binary Rplus.
Definition tf_multiply : Tensor -> Tensor -> Tensor := tf_binary Rmult.

Definition tf_unary (f : R -> R) (a : Tensor) : Tensor :=
  mkTensor (get_shape a) (mmap f (value a)).

Definition tf_sigmoid : Tensor -> Tensor := tf_unary sigmoid.

Definition tf_clip_by_value (t : Tensor) (lo hi : R) : Tensor :=
  tf_unary (clip lo hi) t.

Definition dim (i : nat) (s : TensorShape) : Dimension :=
  match s with
  | Some l => nth i l None
  | None => None
  end.

Definition tf_matmul (a b : Tensor) : Tensor :=
  mkTensor (Some [dim 0 (get_shape a); dim 1 (get_shape b)])
           (matmul (value a) (value b)).

Definition merge_dim (a b : Dimension) : Dimension :=
  match a with Some _ => a | None => b end.

Definition sum_dim (a b : Dimension) : Dimension :=
  match a, b with
  | Some x, Some y => Some (x + y)
  | _, _ => None
  end.

Definition tf_concat1 (ts : list Tensor) : Tensor :=
  mkTensor
    (Some [foldr (fun t d => merge_dim (dim 0 (get_shape t)) d) None ts;
           foldr (fun t d => sum_dim (dim 1 (get_shape t)) d) (Some 0) ts])
    (concat1 (fmap value ts)).

(** [tf.slice(t, [0, start], [-1, size])]. *)
Definition tf_slice (t : Tensor) (start size : nat) : Tensor :=
  mkTensor (Some [dim 0 (get_shape t); Some size])
           (fmap (fun r => take size (drop start r)) (value t)).

(** The [i]-th of the [n] equal parts of [tf.split(t, n, axis=1)]. *)
Definition split_part (n i : nat) (t : Tensor) : Tensor :=
  let w := ncols (value t) / n in
  mkTensor
    (Some [dim 0 (get_shape t);
           match dim 1 (get_shape t) with
           | Some d => Some (d / n)
           | None => None
           end])
    (fmap (fun r => take w (drop (i * w) r)) (value t)).

Definition tf_split (t : Tensor) (n : nat) : list Tensor :=
  fmap (fun i => split_part n i t) (seq 0 n).

(** [tf.norm(t, axis=0)]: the Euclidean norm of every column. *)
Definition tf_norm_axis0 (t : Tensor) : Tensor :=
  mkTensor (Some [dim 1 (get_shape t)]) [fmap norm (columns (value t))].

(** ** Outcomes, the variable store and the graph-building monad *)

Inductive Exception : Type :=
| ValueError (msg : string)
| TypeError (msg : string).

(** [NonFinite] is not an exception: it records that a division by zero
    took the floating-point computation to an infinity or a NaN, which a
    real number cannot represent; the model follows the computation no
    further. *)
Inductive Outcome (A : Type) : Type :=
| Returned (a : A)
| Raised (e : Exception)
| NonFinite.
Arguments Returned {A} a.
Arguments Raised {A} e.
Arguments NonFinite {A}.

Definition Initializer : Type := list nat -> matrix.

Definition constant_initializer (x : R) : Initializer :=
  fun shape =>
    match shape with
    | [n] => [replicate n x]
    | [m; n] => replicate m (replicate n x)
    | _ => []
    end.

(** The variable scope in force: its name, and the initializer
    [tf.get_variable] falls back on when it is given none. *)
Record VariableScope : Type := mkScope {
  vs_name : string;
  vs_initializer : Initializer
}.

Definition join_name (prefix name : string) : string :=
  if decide (prefix = "") then name else prefix +:+ "/" +:+ name.

Definition variable_scope (vs : VariableScope) (name : string) : VariableScope :=
  mkScope (join_name (vs_name vs) name) (vs_initializer vs).

(** Python's [x or d] on an optional string. *)
Definition py_or (x : option string) (d : string) : string :=
  match x with
  | Some s => if decide (s = "") then d else s
  | None => d
  end.

Definition Graph (A : Type) : Type :=
  gmap string matrix -> Outcome A * gmap string matrix.

Definition ret {A : Type} (a : A) : Graph A := fun st => (Returned a, st).

Definition raise {A : Type} (e : Exception) : Graph A := fun st => (Raised e, st).

Definition lift {A : Type} (o : Outcome A) : Graph A := fun st => (o, st).

Definition bind {A B : Type} (c : Graph A) (k : A -> Graph B) : Graph B :=
  fun st =>
    match c st with
    | (Returned a, st') => k a st'
    | (Raised e, st') => (Raised e, st')
    | (NonFinite, st') => (NonFinite, st')
    end.

Notation "'do' x <- c ; k" := (bind c (fun x => k))
  (at level 10, x name, c at level 100, k at level 200).

(** [tf.get_variable]: the variable of that name in the scope, created
    from the initializer on first use and shared afterwards. *)
Definition get_variable (vs : VariableScope) (name : string) (shape : list nat)
    (init : option Initializer) : Graph Tensor :=
  fun st =>
    let full := join_name (vs_name vs) name in
    match st !! full with
    | Some v => (Returned (mkTensor (Some (fmap Some shape)) v), st)
    | None =>
        let v := default (vs_initializer vs) init shape in
        (Returned (mkTensor (Some (fmap Some shape)) v), <[full := v]> st)
    end.

(** ** The weight-normalised linear map *)

(** What [_linear] is called with: nothing, one tensor, or a list. *)
Inductive Args : Type :=
| ArgsNone
| ArgsTensor (t : Tensor)
| ArgsList (l : list Tensor).

Definition as_list (s : TensorShape) : Outcome (list Dimension) :=
  match s with
  | Some l => Returned l
  | None => Raised (ValueError "as_list() is not defined on an unknown TensorShape.")
  end.

Fixpoint shapes_of (args : list Tensor) : Outcome (list (list Dimension)) :=
  match args with
  | [] => Returned []
  | a :: rest =>
      match as_list (get_shape a) with
      | Returned s =>
          match shapes_of rest with
          | Returned ss => Returned (s :: ss)
          | Raised e => Raised e
          | NonFinite => NonFinite
          end
      | Raised e => Raised e
      | NonFinite => NonFinite
      end
  end.

(** The loop over [shapes] that adds up the widths. *)
Fixpoint total_arg_size_from (shapes : list (list Dimension)) (total_arg_size : nat)
    : Outcome nat :=
  match shapes with
  | [] => Returned total_arg_size
  | shape :: rest =>
      if negb (length shape =? 2)%nat then
        Raised (ValueError "Linear is expecting 2D arguments")
      else
        match nth 1 shape None with
        | None | Some 0 => Raised (ValueError "Linear expects shape[1] of arguments")
        | Some n => total_arg_size_from rest (total_arg_size + n)
        end
  end.

#[global] Instance R_eq_dec : EqDecision R := Req_dec_T.

(** [x / t] elementwise; no real number is the quotient by zero. *)
Definition divide_scalar (x : R) (t : Tensor) : Outcome Tensor :=
  if decide (Forall (Forall (fun d => d <> 0%R)) (value t))
  then Returned (tf_unary (fun d => (x / d)%R) t)
  else NonFinite.

Definition _linear (args : Args) (output_size : nat) (bias : bool)
    (bias_start : R) (scope : option string) (vs : VariableScope) : Graph Tensor :=
  match args with
  | ArgsNone | ArgsList [] => raise (ValueError "`args` must be specified")
  | _ =>
      let args := match args with
                  | ArgsTensor t => [t]
                  | ArgsList l => l
                  | ArgsNone => []
                  end in
      do shapes <- lift (shapes_of args);
      do total_arg_size <- lift (total_arg_size_from shapes 0);
      let vs := variable_scope vs (py_or scope "Linear") in
      do matrix <- get_variable vs "NormalColMatrix" [total_arg_size; output_size] None;
      do scalars <- get_variable vs "Scalars" [output_size]
                      (Some (constant_initializer 1));
      do inv_norms <- lift (divide_scalar 1 (tf_norm_axis0 matrix));
      let scaled_norms := tf_multiply scalars inv_norms in
      let scaled_matrix := tf_multiply matrix scaled_norms in
      let res := if decide (length args = 1)
                 then tf_matmul (hd (tf_constant 0) args) scaled_matrix
                 else tf_matmul (tf_concat1 args) scaled_matrix in
      if negb bias then ret res
      else
        do bias_term <- get_variable vs "Bias" [output_size]
                          (Some (constant_initializer bias_start));
        ret (tf_add res bias_term)
  end.

(** ** The orthogonal initializer *)

Definition identity_matrix (n : nat) : matrix :=
  fmap (fun i => fmap (fun j => if decide (i = j) then 1%R else 0%R) (seq 0 n))
      (seq 0 n).

Definition transpose (m : matrix) : matrix := columns m.

Definition shape_of (m : matrix) : nat * nat := (length m, ncols m).

Definition prod_list (l : list nat) : nat := foldr Nat.mul 1 l.

(** [orthogonal_initializer(scale)(shape)].  The random source and the
    decomposition belong to the numerical library: [normal flat_shape]
    stands for the sample [np.random.normal(0.0, 1.0, flat_shape)] and
    [svd a] for [np.linalg.svd(a, full_matrices=False)].  Reshaping to a
    two-dimensional [shape] leaves [q] as it is; for a shape of another
    rank the result is not a matrix and is not represented. *)
Definition orthogonal_initializer (scale : R) (normal : nat * nat -> matrix)
    (svd : matrix -> matrix * list R * matrix) (shape : list nat)
    : option matrix :=
  let flat_shape := (hd 0 shape, prod_list (tail shape)) in
  let a := normal flat_shape in
  let '(u, _, v) := svd a in
  let q := if decide (shape_of u = flat_shape) then u else v in
  match shape with
  | [m; n] =>
      Some (mmap (fun x => (scale * x)%R)
                 (fmap (fun row : list R => take n row) (take m q)))
  | _ => None
  end.

(** ** The cell *)

Inductive StateSize : Type :=
| LSTMStateTupleSize (c h : nat)
| FlatSize (n : nat).

Record MultiplicativeLSTMCell : Type := mkCell {
  num_units : nat;
  use_peepholes : bool;
  cell_clip : option R;
  initializer : Initializer;
  num_proj : option nat;
  proj_clip : option R;
  forget_bias : R;
  state_is_tuple : bool;
  activation : R -> R;
  state_size : StateSize;
  output_size : nat
}.

(** Python's truth value of [num_proj]. *)
Definition truthy (n : option nat) : bool :=
  match n with
  | Some (S _) => true
  | _ => false
  end.

Definition __init__ (num_units : nat) (use_peepholes : bool)
    (cell_clip : option R) (initializer : Initializer) (num_proj : option nat)
    (proj_clip : option R) (forget_bias : R) (state_is_tuple : bool)
    (activation : R -> R) : MultiplicativeLSTMCell :=
  if truthy num_proj then
    let p := default 0 num_proj in
    mkCell num_units use_peepholes cell_clip initializer num_proj proj_clip
           forget_bias state_is_tuple activation
           (if state_is_tuple then LSTMStateTupleSize num_units p
            else FlatSize (num_units + p))
           p
  else
    mkCell num_units use_peepholes cell_clip initializer num_proj proj_clip
           forget_bias state_is_tuple activation
           (if state_is_tuple then LSTMStateTupleSize num_units num_units
            else FlatSize (2 * num_units))
           num_units.

(** The recurrent state, as a pair or as one concatenated tensor. *)
Inductive State : Type :=
| LSTMStateTuple (c h : Tensor)
| FlatState (t : Tensor).

(** [shape.with_rank(2)[1]]. *)
Definition with_rank_2_dim_1 (s : TensorShape) : Outcome Dimension :=
  match s with
  | None => Returned None
  | Some l =>
      if (length l =? 2)%nat then Returned (nth 1 l None)
      else Raised (ValueError "Shape must have rank 2")
  end.

Definition unpack_state (self : MultiplicativeLSTMCell) (state : State)
    : Outcome (Tensor * Tensor) :=
  let num_proj' := default (num_units self) (num_proj self) in
  if state_is_tuple self then
    match state with
    | LSTMStateTuple c_prev h_prev => Returned (c_prev, h_prev)
    | FlatState _ => Raised (TypeError "'Tensor' object is not iterable.")
    end
  else
    match state with
    | FlatState state =>
        Returned (tf_slice state 0 (num_units self),
                  tf_slice state (num_units self) num_proj')
    | LSTMStateTuple _ _ => Raised (ValueError "Shape must be rank 2")
    end.

Definition __call__ (self : MultiplicativeLSTMCell) (inputs : Tensor)
    (state : State) (scope : option string) (vs : VariableScope)
    : Graph (Tensor * State) :=
  let num_proj' := default (num_units self) (num_proj self) in
  do prev <- lift (unpack_state self state);
  let c_prev := fst prev in
  let h_prev := snd prev in
  do input_size <- lift (with_rank_2_dim_1 (get_shape inputs));
  let vs := variable_scope vs (py_or scope "MultiplicativeLSTMCell") in
  match input_size with
  | None => raise (ValueError "Could not infer input size from inputs.get_shape()[-1]")
  | Some _ =>
      do concat <- _linear (ArgsList [inputs; h_prev]) (2 * num_units self) true 0
                     None (variable_scope vs "Multipli_Weight");
      let Wx := split_part 2 0 concat in
      let Wh := split_part 2 1 concat in
      let m := tf_multiply Wx Wh in
      do lstm_matrix <- _linear (ArgsList [inputs; m]) (4 * num_units self) true 0
                          None (variable_scope vs "LSTM_Weight");
      let i := split_part 4 0 lstm_matrix in
      let j := split_part 4 1 lstm_matrix in
      let f := split_part 4 2 lstm_matrix in
      let o := split_part 4 3 lstm_matrix in
      do diag <- (if use_peepholes self then
                    do w_f_diag <- get_variable vs "W_F_diag" [num_units self] None;
                    do w_i_diag <- get_variable vs "W_I_diag" [num_units self] None;
                    do w_o_diag <- get_variable vs "W_O_diag" [num_units self] None;
                    ret (Some (w_f_diag, w_i_diag, w_o_diag))
                  else ret None);
      let c := match diag with
               | Some (w_f_diag, w_i_diag, _) =>
                   tf_add
                     (tf_multiply c_prev
                        (tf_sigmoid
                           (tf_add (tf_add f (tf_constant (forget_bias self)))
                                   (tf_multiply w_f_diag c_prev))))
                     (tf_multiply
                        (tf_sigmoid (tf_add i (tf_multiply w_i_diag c_prev))) j)
               | None =>
                   tf_add
                     (tf_multiply c_prev
                        (tf_sigmoid (tf_add f (tf_constant (forget_bias self)))))
                     (tf_multiply (tf_sigmoid i) j)
               end in
      let c := match cell_clip self with
               | Some k => tf_clip_by_value c (- k)%R k
               | None => c
               end in
      let h := match diag with
               | Some (_, _, w_o_diag) =>
                   tf_multiply
                     (tf_sigmoid (tf_add o (tf_multiply w_o_diag c)))
                     (tf_unary (activation self)
                        (tf_multiply c (tf_add o (tf_multiply w_o_diag c))))
               | None => tf_unary (activation self) (tf_multiply c o)
               end in
      do h <- match num_proj self with
              | Some _ =>
                  do w_proj <- get_variable vs "W_P" [num_units self; num_proj'] None;
                  let h := tf_matmul h w_proj in
                  ret (match proj_clip self with
                       | Some k => tf_clip_by_value h (- k)%R k
                       | None => h
                       end)
              | None => ret h
              end;
      let new_state := if state_is_tuple self then LSTMStateTuple c h
                       else FlatState (tf_concat1 [c; h]) in
      ret (h, new_state)
  end.

(** ** The framework's own errors

    The operations above are the framework's computations on operands that
    fit together.  While the graph is built the framework also infers the
    static shape of every result, and raises [ValueError] where the static
    shapes of the operands do not fit; [tf.get_variable] raises where the
    [reuse] flag of the variable scope and the variable store disagree.
    These errors depend on static shapes and on the names in the store, not
    on any value: [_linear] and [__call__] run while the graph is built.
    The module [Checked] puts the checks in front of the operations and
    gives [_linear] and [__call__] over the checked operations, statement by
    statement as in the source.  All tensors and variables are of the one
    floating-point type. *)

(** Two static dimensions that may be the same number. *)
Definition compatible (a b : Dimension) : bool :=
  match a, b with
  | Some x, Some y => (x =? y)%nat
  | _, _ => true
  end.

(** Two static dimensions that broadcast against each other. *)
Definition broadcastable (a b : Dimension) : bool :=
  match a, b with
  | Some x, Some y => (x =? y)%nat || (x =? 1)%nat || (y =? 1)%nat
  | _, _ => true
  end.

Fixpoint broadcastable_rev (s1 s2 : list Dimension) : bool :=
  match s1, s2 with
  | d1 :: r1, d2 :: r2 => broadcastable d1 d2 && broadcastable_rev r1 r2
  | _, _ => true
  end.

(** The shapes of the operands of an elementwise operation, aligned from the
    last dimension. *)
Definition broadcast_ok (s1 s2 : TensorShape) : bool :=
  match s1, s2 with
  | Some l1, Some l2 => broadcastable_rev (rev l1) (rev l2)
  | _, _ => true
  end.

(** [tf.matmul]: two matrices whose inner dimensions may be equal. *)
Definition matmul_ok (s1 s2 : TensorShape) : bool :=
  match s1, s2 with
  | Some l1, Some l2 =>
      (length l1 =? 2)%nat && (length l2 =? 2)%nat &&
      compatible (nth 1 l1 None) (nth 0 l2 None)
  | Some l, None | None, Some l => (length l =? 2)%nat
  | None, None => true
  end.

Fixpoint compatible_shapes (s1 s2 : list Dimension) : bool :=
  match s1, s2 with
  | [], [] => true
  | d1 :: r1, d2 :: r2 => compatible d1 d2 && compatible_shapes r1 r2
  | _, _ => false
  end.

(** Two operands of [tf.concat(_, 1)]: one rank, at least 2, and every
    dimension but the second compatible; the batch dimension is the first. *)
Definition concat_pair_ok (s1 s2 : TensorShape) : bool :=
  match s1, s2 with
  | Some (b1 :: _ :: r1), Some (b2 :: _ :: r2) =>
      compatible b1 b2 && compatible_shapes r1 r2
  | Some _, Some _ => false
  | _, _ => true
  end.

Definition concat_ok (ts : list Tensor) : bool :=
  forallb (fun a => forallb (fun b => concat_pair_ok (get_shape a) (get_shape b)) ts)
          ts.

(** [tf.split(_, n, axis=1)]: the second dimension, when known, is a
    multiple of [n]. *)
Definition split_ok (s : TensorShape) (n : nat) : bool :=
  match s with
  | Some (_ :: Some d :: _) => (d mod n =? 0)%nat
  | Some (_ :: None :: _) => true
  | Some _ => false
  | None => true
  end.

(** [tf.slice(_, [0, start], [-1, size])] is given two indices. *)
Definition slice_ok (s : TensorShape) : bool :=
  match s with
  | Some l => (length l =? 2)%nat
  | None => true
  end.

(** A stored value of the shape a variable is asked with. *)
Definition shape_matches (shape : list nat) (v : matrix) : bool :=
  match shape with
  | [n] =>
      match v with
      | [row] => (length row =? n)%nat
      | _ => false
      end
  | [m; n] => (length v =? m)%nat && forallb (fun row => (length row =? n)%nat) v
  | _ => true
  end.

Definition shape_error : Exception := ValueError "Dimensions must be equal".

Definition check {A : Type} (ok : bool) (a : A) : Outcome A :=
  if ok then Returned a else Raised shape_error.

Module Checked.

Definition tf_binary (op : R -> R -> R) (a b : Tensor) : Outcome Tensor :=
  check (broadcast_ok (get_shape a) (get_shape b)) (tf_binary op a b).

Definition tf_add : Tensor -> Tensor -> Outcome Tensor := tf_binary Rplus.
Definition tf_multiply : Tensor -> Tensor -> Outcome Tensor := tf_binary Rmult.

Definition tf_matmul (a b : Tensor) : Outcome Tensor :=
  check (matmul_ok (get_shape a) (get_shape b)) (tf_matmul a b).

Definition tf_concat1 (ts : list Tensor) : Outcome Tensor :=
  check (concat_ok ts) (tf_concat1 ts).

Definition tf_split (t : Tensor) (n : nat) : Outcome (list Tensor) :=
  check (split_ok (get_shape t) n) (tf_split t n).

Definition tf_slice (t : Tensor) (start size : nat) : Outcome Tensor :=
  check (slice_ok (get_shape t)) (tf_slice t start size).

(** [tf.get_variable] under a scope whose [reuse] flag is [reuse]: with the
    flag off the variable must be new, with the flag on it must exist with
    the shape asked for. *)
Definition get_variable (reuse : bool) (vs : VariableScope) (name : string)
    (shape : list nat) (init : option Initializer) : Graph Tensor :=
  fun st =>
    let full := join_name (vs_name vs) name in
    match st !! full with
    | Some v =>
        if reuse then
          if shape_matches shape v
          then (Returned (mkTensor (Some (fmap Some shape)) v), st)
          else (Raised (ValueError "Trying to share variable, but specified shape and found shape differ"),
                st)
        else (Raised (ValueError "Variable already exists, disallowed"), st)
    | None =>
        if reuse then (Raised (ValueError "Variable does not exist, disallowed"), st)
        else
          let v := default (vs_initializer vs) init shape in
          (Returned (mkTensor (Some (fmap Some shape)) v), <[full := v]> st)
    end.

Definition _linear (reuse : bool) (args : Args) (output_size : nat) (bias : bool)
    (bias_start : R) (scope : option string) (vs : VariableScope) : Graph Tensor :=
  match args with
  | ArgsNone | ArgsList [] => raise (ValueError "`args` must be specified")
  | _ =>
      let args := match args with
                  | ArgsTensor t => [t]
                  | ArgsList l => l
                  | ArgsNone => []
                  end in
      do shapes <- lift (shapes_of args);
      do total_arg_size <- lift (total_arg_size_from shapes 0);
      let vs := variable_scope vs (py_or scope "Linear") in
      do matrix <- get_variable reuse vs "NormalColMatrix"
                     [total_arg_size; output_size] None;
      do scalars <- get_variable reuse vs "Scalars" [output_size]
                      (Some (constant_initializer 1));
      do inv_norms <- lift (divide_scalar 1 (tf_norm_axis0 matrix));
      do scaled_norms <- lift (tf_multiply scalars inv_norms);
      do scaled_matrix <- lift (tf_multiply matrix scaled_norms);
      do res <- (if decide (length args = 1)
                 then lift (tf_matmul (hd (tf_constant 0) args) scaled_matrix)
                 else
                   do joined <- lift (tf_concat1 args);
                   lift (tf_matmul joined scaled_matrix));
      if negb bias then ret res
      else
        do bias_term <- get_variable reuse vs "Bias" [output_size]
                          (Some (constant_initializer bias_start));
        lift (tf_add res bias_term)
  end.

Definition unpack_state (self : MultiplicativeLSTMCell) (state : State)
    : Graph (Tensor * Tensor) :=
  let num_proj' := default (num_units self) (num_proj self) in
  if state_is_tuple self then
    match state with
    | LSTMStateTuple c_prev h_prev => ret (c_prev, h_prev)
    | FlatState _ => raise (TypeError "'Tensor' object is not iterable.")
    end
  else
    match state with
    | FlatState state =>
        do c_prev <- lift (tf_slice state 0 (num_units self));
        do h_prev <- lift (tf_slice state (num_units self) num_proj');
        ret (c_prev, h_prev)
    | LSTMStateTuple _ _ => raise (ValueError "Shape must be rank 2")
    end.

Definition __call__ (reuse : bool) (self : MultiplicativeLSTMCell)
    (inputs : Tensor) (state : State) (scope : option string)
    (vs : VariableScope) : Graph (Tensor * State) :=
  let num_proj' := default (num_units self) (num_proj self) in
  do prev <- unpack_state self state;
  let c_prev := fst prev in
  let h_prev := snd prev in
  do input_size <- lift (with_rank_2_dim_1 (get_shape inputs));
  let vs := variable_scope vs (py_or scope "MultiplicativeLSTMCell") in
  match input_size with
  | None => raise (ValueError "Could not infer input size from inputs.get_shape()[-1]")
  | Some _ =>
      do concat <- _linear reuse (ArgsList [inputs; h_prev]) (2 * num_units self)
                     true 0 None (variable_scope vs "Multipli_Weight");
      do halves <- lift (tf_split concat 2);
      let Wx := nth 0 halves (tf_constant 0) in
      let Wh := nth 1 halves (tf_constant 0) in
      do m <- lift (tf_multiply Wx Wh);
      do lstm_matrix <- _linear reuse (ArgsList [inputs; m]) (4 * num_units self)
                          true 0 None (variable_scope vs "LSTM_Weight");
      do quarters <- lift (tf_split lstm_matrix 4);
      let i := nth 0 quarters (tf_constant 0) in
      let j := nth 1 quarters (tf_constant 0) in
      let f := nth 2 quarters (tf_constant 0) in
      let o := nth 3 quarters (tf_constant 0) in
      do diag <- (if use_peepholes self then
                    do w_f_diag <- get_variable reuse vs "W_F_diag" [num_units self] None;
                    do w_i_diag <- get_variable reuse vs "W_I_diag" [num_units self] None;
                    do w_o_diag <- get_variable reuse vs "W_O_diag" [num_units self] None;
                    ret (Some (w_f_diag, w_i_diag, w_o_diag))
                  else ret None);
      do c <- match diag with
              | Some (w_f_diag, w_i_diag, _) =>
                  do f_biased <- lift (tf_add f (tf_constant (forget_bias self)));
                  do f_peep <- lift (tf_multiply w_f_diag c_prev);
                  do f_gate <- lift (tf_add f_biased f_peep);
                  do kept <- lift (tf_multiply c_prev (tf_sigmoid f_gate));
                  do i_peep <- lift (tf_multiply w_i_diag c_prev);
                  do i_gate <- lift (tf_add i i_peep);
                  do written <- lift (tf_multiply (tf_sigmoid i_gate) j);
                  lift (tf_add kept written)
              | None =>
                  do f_biased <- lift (tf_add f (tf_constant (forget_bias self)));
                  do kept <- lift (tf_multiply c_prev (tf_sigmoid f_biased));
                  do written <- lift (tf_multiply (tf_sigmoid i) j);
                  lift (tf_add kept written)
              end;
      let c := match cell_clip self with
               | Some k => tf_clip_by_value c (- k)%R k
               | None => c
               end in
      do h <- match diag with
              | Some (_, _, w_o_diag) =>
                  do o_peep <- lift (tf_multiply w_o_diag c);
                  do o_gate <- lift (tf_add o o_peep);
                  do o_peep' <- lift (tf_multiply w_o_diag c);
                  do o_gate' <- lift (tf_add o o_peep');
                  do squashed <- lift (tf_multiply c o_gate');
                  lift (tf_multiply (tf_sigmoid o_gate)
                                    (tf_unary (activation self) squashed))
              | None =>
                  do squashed <- lift (tf_multiply c o);
                  ret (tf_unary (activation self) squashed)
              end;
      do h <- match num_proj self with
              | Some _ =>
                  do w_proj <- get_variable reuse vs "W_P" [num_units self; num_proj'] None;
                  do h <- lift (tf_matmul h w_proj);
                  ret (match proj_clip self with
                       | Some k => tf_clip_by_value h (- k)%R k
                       | None => h
                       end)
              | None => ret h
              end;
      do new_state <- (if state_is_tuple self then ret (LSTMStateTuple c h)
                       else do packed <- lift (tf_concat1 [c; h]);
                            ret (FlatState packed));
      ret (h, new_state)
  end.

End Checked.

(** * Properties *)

(** ** The variable store *)

(** The value [get_variable] hands back, and the store it leaves. *)
Definition var_value (vs : VariableScope) (name : string) (shape : list nat)
    (init : option Initializer) (st : gmap string matrix) : matrix :=
  default (default (vs_initializer vs) init shape)
          (st !! join_name (vs_name vs) name).

Definition var_store (vs : VariableScope) (name : string) (shape : list nat)
    (init : option Initializer) (st : gmap string matrix) : gmap string matrix :=
  <[join_name (vs_name vs) name := var_value vs name shape init st]> st.

Lemma get_variable_eq vs name shape init st :
  get_variable vs name shape init st =
  (Returned (mkTensor (Some (fmap Some shape)) (var_value vs name shape init st)),
   var_store vs name shape init st).
Proof.
  unfold get_variable, var_store, var_value.
  destruct (st !! join_name (vs_name vs) name) as [v|] eqn:E; simpl.
  - by rewrite insert_id.
  - done.
Qed.

Lemma var_store_lookup_ne vs name shape init st key :
  key <> join_name (vs_name vs) name ->
  var_store vs name shape init st !! key = st !! key.
Proof. intros H. unfold var_store. by rewrite lookup_insert_ne. Qed.

(** ** Validation of the arguments of the linear map *)

Definition tensors_of (args : Args) : list Tensor :=
  match args with
  | ArgsNone => []
  | ArgsTensor t => [t]
  | ArgsList l => l
  end.

(** A rank-2 static shape whose feature width is known and not zero. *)
Definition arg_ok (t : Tensor) : bool :=
  match get_shape t with
  | Some [_; Some (S _)] => true
  | _ => false
  end.

Definition static_width (t : Tensor) : nat :=
  match dim 1 (get_shape t) with
  | Some n => n
  | None => 0
  end.

Definition total_width (args : list Tensor) : nat :=
  foldr (fun t acc => static_width t + acc) 0 args.

Definition validate (args : list Tensor) : Outcome nat :=
  match shapes_of args with
  | Returned shapes => total_arg_size_from shapes 0
  | Raised e => Raised e
  | NonFinite => NonFinite
  end.

Lemma shapes_of_ok args :
  Forall (fun t => arg_ok t = true) args ->
  exists shapes, shapes_of args = Returned shapes /\
    forall acc, total_arg_size_from shapes acc = Returned (acc + total_width args).
Proof.
  induction 1 as [|t args Ht _ IH].
  - exists []. split; [done|]. intros acc. simpl. f_equal. lia.
  - destruct IH as (shapes & Hs & Htot).
    unfold arg_ok in Ht. destruct t as [[l|] v]; simpl in Ht; [|done].
    destruct l as [|b [|[[|n]|] [|? ?]]]; try done.
    exists ([b; Some (S n)] :: shapes). simpl. rewrite Hs. split; [done|].
    intros acc. rewrite Htot. unfold static_width. simpl. f_equal. lia.
Qed.

Lemma validate_ok args :
  Forall (fun t => arg_ok t = true) args ->
  validate args = Returned (total_width args).
Proof.
  intros H. destruct (shapes_of_ok args H) as (shapes & Hs & Htot).
  unfold validate. rewrite Hs, Htot. done.
Qed.

Lemma total_arg_size_from_not_nonfinite shapes acc :
  total_arg_size_from shapes acc <> NonFinite.
Proof.
  revert acc. induction shapes as [|s shapes IH]; intros acc; simpl; [done|].
  destruct (negb _); [done|]. destruct (nth 1 s None) as [[|n]|]; try done.
Qed.

Lemma shapes_of_not_nonfinite args : shapes_of args <> NonFinite.
Proof.
  induction args as [|t args IH]; simpl; [done|].
  destruct (get_shape t); simpl; [|done].
  destruct (shapes_of args); done.
Qed.

Lemma validate_not_nonfinite args : validate args <> NonFinite.
Proof.
  unfold validate. pose proof (shapes_of_not_nonfinite args).
  destruct (shapes_of args); try done. apply total_arg_size_from_not_nonfinite.
Qed.

Lemma total_arg_size_from_returned shapes acc n :
  total_arg_size_from shapes acc = Returned n ->
  Forall (fun s => exists b w, s = [b; Some (S w)]) shapes.
Proof.
  revert acc. induction shapes as [|s shapes IH]; intros acc; simpl; [by constructor|].
  destruct s as [|b [|[[|w]|] [|? ?]]]; simpl; try done.
  intros H. constructor; [by eauto|]. by eapply IH.
Qed.

Lemma validate_returned args n :
  validate args = Returned n -> Forall (fun t => arg_ok t = true) args.
Proof.
  unfold validate. revert n.
  assert (G : forall shapes, shapes_of args = Returned shapes ->
            Forall (fun s => exists b w, s = [b; Some (S w)]) shapes ->
            Forall (fun t => arg_ok t = true) args).
  { induction args as [|t args IH]; intros shapes Hs Hf; [by constructor|].
    simpl in Hs. destruct t as [[l|] v]; simpl in Hs; [|done].
    destruct (shapes_of args) as [ss| |] eqn:E; try done.
    injection Hs as <-. inversion Hf as [|? ? (b & w & ->) Hf']; subst.
    constructor; [done|]. by eapply IH. }
  intros n H. destruct (shapes_of args) as [shapes| |] eqn:E; try done.
  eapply G; [done|]. by eapply total_arg_size_from_returned.
Qed.

(** Validation raises exactly when some argument is not acceptable. *)
Lemma validate_raises args :
  (exists e, validate args = Raised e) <->
  Exists (fun t => arg_ok t = false) args.
Proof.
  split.
  - intros [e He].
    destruct (decide (Forall (fun t => arg_ok t = true) args)) as [HF|HF].
    + rewrite (validate_ok _ HF) in He. done.
    + apply not_Forall_Exists in HF; [|intros t; apply _].
      eapply Exists_impl; [exact HF|]. intros t Ht. simpl in Ht.
      by destruct (arg_ok t).
  - intros HE. destruct (validate args) as [n|e|] eqn:E.
    + apply validate_returned in E. apply Exists_exists in HE as (t & Hin & Ht).
      rewrite Forall_forall in E. specialize (E t Hin). congruence.
    + by eauto.
    + by apply validate_not_nonfinite in E.
Qed.

(** ** Variable names *)

Lemma join_name_inj prefix a b : join_name prefix a = join_name prefix b -> a = b.
Proof.
  unfold join_name. destruct (decide (prefix = "")); [done|].
  intros H. apply String.app_inj in H. by apply String.app_inj in H.
Qed.

Lemma join_name_ne prefix a b : a <> b -> join_name prefix a <> join_name prefix b.
Proof. intros H E. by apply join_name_inj in E. Qed.

Lemma var_value_store_ne vs a b sa sb ia ib st :
  a <> b ->
  var_value vs a sa ia (var_store vs b sb ib st) = var_value vs a sa ia st.
Proof.
  intros H. unfold var_value at 1.
  rewrite var_store_lookup_ne; [done|]. by apply join_name_ne.
Qed.

(** ** What the linear map computes *)

Section linear.
Context (output_size : nat) (bias : bool) (bias_start : R)
        (scope : option string) (vs : VariableScope).

Definition linear_scope : VariableScope := variable_scope vs (py_or scope "Linear").

(** The three parameters as the call finds or creates them. *)
Definition direction_matrix (total : nat) (st : gmap string matrix) : matrix :=
  var_value linear_scope "NormalColMatrix" [total; output_size] None st.

Definition scale_vector (st : gmap string matrix) : matrix :=
  var_value linear_scope "Scalars" [output_size] (Some (constant_initializer 1)) st.

Definition bias_vector (st : gmap string matrix) : matrix :=
  var_value linear_scope "Bias" [output_size]
            (Some (constant_initializer bias_start)) st.

Definition store_after_scalars (total : nat) (st : gmap string matrix)
    : gmap string matrix :=
  var_store linear_scope "Scalars" [output_size] (Some (constant_initializer 1))
    (var_store linear_scope "NormalColMatrix" [total; output_size] None st).

Definition store_after_linear (total : nat) (st : gmap string matrix)
    : gmap string matrix :=
  if bias then
    var_store linear_scope "Bias" [output_size]
              (Some (constant_initializer bias_start)) (store_after_scalars total st)
  else store_after_scalars total st.

(** The tensor the call returns once the arguments are accepted and no
    column norm is zero. *)
Definition linear_result (args : list Tensor) (st : gmap string matrix) : Tensor :=
  let total := total_width args in
  let matrix := mkTensor (Some [Some total; Some output_size])
                         (direction_matrix total st) in
  let scalars := mkTensor (Some [Some output_size]) (scale_vector st) in
  let inv_norms := tf_unary (fun d => (1 / d)%R) (tf_norm_axis0 matrix) in
  let scaled_matrix := tf_multiply matrix (tf_multiply scalars inv_norms) in
  let res := if decide (length args = 1)
             then tf_matmul (hd (tf_constant 0) args) scaled_matrix
             else tf_matmul (tf_concat1 args) scaled_matrix in
  if bias then tf_add res (mkTensor (Some [Some output_size]) (bias_vector st))
  else res.

Definition norms_nonzero (m : matrix) : Prop :=
  Forall (fun c => norm c <> 0%R) (columns m).

#[local] Instance norms_nonzero_dec m : Decision (norms_nonzero m).
Proof. unfold norms_nonzero. apply _. Defined.

Lemma divide_scalar_norm x (t : Tensor) :
  divide_scalar x (tf_norm_axis0 t) =
  if decide (norms_nonzero (value t))
  then Returned (tf_unary (fun d => (x / d)%R) (tf_norm_axis0 t))
  else NonFinite.
Proof.
  unfold divide_scalar, norms_nonzero. simpl.
  destruct (decide (Forall _ [_])) as [H|H];
    destruct (decide (Forall _ (columns _))) as [H'|H']; try done.
  - exfalso. apply H'. rewrite Forall_singleton, Forall_fmap in H. exact H.
  - exfalso. apply H. rewrite Forall_singleton, Forall_fmap. exact H'.
Qed.

(** The linear map, case by case. *)
Lemma linear_eq args st :
  _linear args output_size bias bias_start scope vs st =
  if decide (tensors_of args = [])
  then (Raised (ValueError "`args` must be specified"), st)
  else
    match validate (tensors_of args) with
    | Raised e => (Raised e, st)
    | NonFinite => (NonFinite, st)
    | Returned total =>
        if decide (norms_nonzero (direction_matrix total st))
        then (Returned (linear_result (tensors_of args) st),
              store_after_linear total st)
        else (NonFinite, store_after_scalars total st)
    end.
Proof.
  unfold _linear.
  destruct args as [|t|[|t l]]; simpl tensors_of; try reflexivity.
  all: rewrite decide_False by done.
  all: match goal with |- context [shapes_of ?l] => generalize l end; intros l'.
  all: unfold validate, bind, lift.
  all: destruct (shapes_of l') as [shapes| |] eqn:Hs; try reflexivity.
  all: destruct (total_arg_size_from shapes 0) as [total| |] eqn:Ht; try reflexivity.
  all: assert (Hv : validate l' = Returned total) by (unfold validate; by rewrite Hs).
  all: assert (Hw : total_width l' = total)
    by (apply validate_returned in Hv as Hok; rewrite (validate_ok _ Hok) in Hv;
        congruence).
  all: rewrite !get_variable_eq; fold linear_scope.
  all: rewrite divide_scalar_norm; simpl value.
  all: fold (direction_matrix total st).
  all: destruct (decide (norms_nonzero (direction_matrix total st))); [|reflexivity].
  all: unfold linear_result, store_after_linear, store_after_scalars,
         scale_vector, bias_vector, direction_matrix.
  all: rewrite Hw.
  all: destruct bias; cbv [negb ret]; cbv beta iota.
  all: rewrite ?get_variable_eq.
  all: rewrite ?var_value_store_ne by done.
  all: reflexivity.
Qed.
End linear.

(** ** Raising, and what the linear map tests its inputs for *)

Definition raises {A : Type} (r : Outcome A * gmap string matrix) : Prop :=
  exists e, r.1 = Raised e.

Definition rank_2 (t : Tensor) : Prop :=
  exists l, get_shape t = Some l /\ length l = 2.

(** The feature width [shape[1]] is statically unknown or zero. *)
Definition width_unknown_or_zero (t : Tensor) : Prop :=
  dim 1 (get_shape t) = None \/ dim 1 (get_shape t) = Some 0.

Lemma arg_ok_false t :
  arg_ok t = false <-> ~ rank_2 t \/ width_unknown_or_zero t.
Proof.
  unfold arg_ok, rank_2, width_unknown_or_zero, dim.
  destruct t as [[l|] v]; simpl.
  - destruct l as [|b [|[[|n]|] [|? ?]]]; simpl; split; try done.
    all: try (intros _; left; intros (l0 & [= <-] & Hl); simpl in Hl; lia).
    all: try (intros _; right; by eauto).
    intros [H|[H|H]]; try done. exfalso. apply H. by eexists.
  - split; [|done]. intros _. left. intros (l & H & _). done.
Qed.

(** ** Shapes and entries of values *)

Definition shaped (r c : nat) (m : matrix) : Prop :=
  length m = r /\ Forall (fun row => length row = c) m.

Definition entry (m : matrix) (b k : nat) : R := nth k (nth b m []) 0%R.

Lemma bzip_singleton_r {A B} (f : A -> A -> B) l y :
  bzip f l [y] = (fun x => f x y) <$> l.
Proof. by destruct l as [|x [|x' l]]. Qed.

Lemma bzip_singleton_l {A B} (f : A -> A -> B) x l :
  bzip f [x] l = f x <$> l.
Proof. done. Qed.

Lemma zip_with_singleton_l {A B C} (f : A -> B -> C) x l :
  length l = 1 -> zip_with f [x] l = f x <$> l.
Proof. by destruct l as [|y [|? ?]]. Qed.

Lemma zip_with_singleton_r {A B C} (f : A -> B -> C) l y :
  length l = 1 -> zip_with f l [y] = (fun x => f x y) <$> l.
Proof. by destruct l as [|x [|? ?]]. Qed.

Lemma bzip_same_length {A B} (f : A -> A -> B) l1 l2 :
  length l1 = length l2 -> bzip f l1 l2 = zip_with f l1 l2.
Proof.
  intros H. destruct l1 as [|x [|x' l1]], l2 as [|y [|y' l2]]; done.
Qed.

Lemma shaped_lookup r c m i :
  shaped r c m -> i < r -> exists row, m !! i = Some row /\ length row = c.
Proof.
  intros [Hl Hf] Hi. destruct (lookup_lt_is_Some_2 m i) as [row Hrow]; [lia|].
  exists row. split; [done|]. by eapply (proj1 (Forall_lookup _ _) Hf).
Qed.

Lemma entry_lookup r c m i k :
  shaped r c m -> i < r -> k < c ->
  exists row, m !! i = Some row /\ length row = c /\ row !! k = Some (entry m i k).
Proof.
  intros Hs Hi Hk. destruct (shaped_lookup r c m i Hs Hi) as (row & Hrow & Hlen).
  exists row. split; [done|]. split; [done|].
  unfold entry. rewrite (nth_lookup m i), Hrow. simpl.
  destruct (lookup_lt_is_Some_2 row k) as [x Hx]; [lia|].
  by rewrite (nth_lookup row k), Hx.
Qed.

Lemma entry_of_lookup m i k row x :
  m !! i = Some row -> row !! k = Some x -> entry m i k = x.
Proof.
  intros Hrow Hx. unfold entry.
  rewrite (nth_lookup m i), Hrow. simpl. by rewrite (nth_lookup row k), Hx.
Qed.

Lemma shaped_fmap r c c' (g : list R -> list R) m :
  shaped r c m -> (forall row, length row = c -> length (g row) = c') ->
  shaped r c' (g <$> m).
Proof.
  intros [Hl Hf] Hg. split; [by rewrite length_fmap|].
  apply Forall_fmap. eapply Forall_impl; [exact Hf|]. intros row Hrow. by apply Hg.
Qed.

Lemma entry_fmap r c (g : list R -> list R) m i k x :
  shaped r c m -> i < r ->
  (forall row, m !! i = Some row -> g row !! k = Some x) ->
  entry (g <$> m) i k = x.
Proof.
  intros Hs Hi Hg. destruct (shaped_lookup r c m i Hs Hi) as (row & Hrow & _).
  eapply entry_of_lookup; [|by apply Hg].
  by rewrite list_lookup_fmap, Hrow.
Qed.

Lemma shaped_mmap r c f m : shaped r c m -> shaped r c (mmap f m).
Proof. intros H. eapply shaped_fmap; [done|]. intros row Hrow. by rewrite length_fmap. Qed.

Lemma entry_mmap r c f m i k :
  shaped r c m -> i < r -> k < c -> entry (mmap f m) i k = f (entry m i k).
Proof.
  intros Hs Hi Hk. destruct (entry_lookup r c m i k Hs Hi Hk) as (row & Hrow & _ & Hx).
  eapply entry_fmap; [done..|]. intros row' Hrow'.
  rewrite list_lookup_fmap. replace row' with row by congruence. by rewrite Hx.
Qed.

Lemma broadcast_same_shape op r c a b :
  shaped r c a -> shaped r c b ->
  broadcast op a b = zip_with (zip_with op) a b.
Proof.
  intros [Ha Hfa] [Hb Hfb]. unfold broadcast.
  rewrite bzip_same_length by lia. clear Ha Hb. revert b Hfb.
  induction Hfa as [|ra a Hra _ IH]; intros b Hfb; [done|].
  destruct Hfb as [|rb b Hrb Hfb]; [done|]. simpl.
  rewrite bzip_same_length by lia. f_equal. by apply IH.
Qed.

Lemma shaped_zip_with op r c a b :
  shaped r c a -> shaped r c b -> shaped r c (zip_with (zip_with op) a b).
Proof.
  intros [Ha Hfa] [Hb Hfb]. split; [rewrite length_zip_with; lia|].
  clear Ha Hb. revert b Hfb.
  induction Hfa as [|ra a Hra _ IH]; intros b Hfb; [by constructor|].
  destruct Hfb as [|rb b Hrb Hfb]; [by constructor|]. simpl.
  constructor; [rewrite length_zip_with; lia|]. by apply IH.
Qed.

Lemma entry_zip_with op r c a b i k :
  shaped r c a -> shaped r c b -> i < r -> k < c ->
  entry (zip_with (zip_with op) a b) i k = op (entry a i k) (entry b i k).
Proof.
  intros Ha Hb Hi Hk.
  destruct (entry_lookup r c a i k Ha Hi Hk) as (ra & Hra & _ & Hxa).
  destruct (entry_lookup r c b i k Hb Hi Hk) as (rb & Hrb & _ & Hxb).
  eapply entry_of_lookup.
  - rewrite lookup_zip_with, Hra. simpl. rewrite Hrb. done.
  - rewrite lookup_zip_with, Hxa. simpl. rewrite Hxb. done.
Qed.

(** Elementwise operations on two values of one shape. *)
Lemma broadcast_shaped op r c a b :
  shaped r c a -> shaped r c b -> shaped r c (broadcast op a b).
Proof.
  intros Ha Hb. rewrite (broadcast_same_shape op r c) by done.
  by apply shaped_zip_with.
Qed.

Lemma broadcast_entry op r c a b i k :
  shaped r c a -> shaped r c b -> i < r -> k < c ->
  entry (broadcast op a b) i k = op (entry a i k) (entry b i k).
Proof.
  intros Ha Hb Hi Hk. rewrite (broadcast_same_shape op r c) by done.
  by apply (entry_zip_with op r c).
Qed.

(** A vector against a matrix: the vector is stretched over the rows. *)
Lemma broadcast_vector_l op r c v a :
  length v = c -> shaped r c a ->
  shaped r c (broadcast op [v] a) /\
  forall i k, i < r -> k < c ->
    entry (broadcast op [v] a) i k = op (nth k v 0%R) (entry a i k).
Proof.
  intros Hv Ha. unfold broadcast. rewrite bzip_singleton_l. split.
  - eapply shaped_fmap; [done|]. intros row Hrow.
    rewrite bzip_same_length by lia. rewrite length_zip_with. lia.
  - intros i k Hi Hk.
    destruct (entry_lookup r c a i k Ha Hi Hk) as (row & Hrow & Hlen & Hx).
    eapply entry_fmap; [done..|]. intros row' Hrow'.
    replace row' with row by congruence.
    rewrite bzip_same_length by lia. rewrite lookup_zip_with.
    destruct (lookup_lt_is_Some_2 v k) as [y Hy]; [lia|].
    rewrite Hy. simpl. rewrite Hx. simpl. by rewrite (nth_lookup v k), Hy.
Qed.

Lemma broadcast_vector_r op r c a v :
  length v = c -> shaped r c a ->
  shaped r c (broadcast op a [v]) /\
  forall i k, i < r -> k < c ->
    entry (broadcast op a [v]) i k = op (entry a i k) (nth k v 0%R).
Proof.
  intros Hv Ha. unfold broadcast. rewrite bzip_singleton_r. split.
  - eapply shaped_fmap; [done|]. intros row Hrow.
    rewrite bzip_same_length by lia. rewrite length_zip_with. lia.
  - intros i k Hi Hk.
    destruct (entry_lookup r c a i k Ha Hi Hk) as (row & Hrow & Hlen & Hx).
    eapply entry_fmap; [done..|]. intros row' Hrow'.
    replace row' with row by congruence.
    rewrite bzip_same_length by lia. rewrite lookup_zip_with.
    destruct (lookup_lt_is_Some_2 v k) as [y Hy]; [lia|].
    rewrite Hx. simpl. rewrite Hy. simpl. by rewrite (nth_lookup v k), Hy.
Qed.

(** A scalar against a matrix. *)
Lemma broadcast_scalar_r op a x :
  broadcast op a [[x]] = mmap (fun e => op e x) a.
Proof.
  unfold broadcast, mmap. rewrite bzip_singleton_r.
  apply list_fmap_ext. intros _ row _. by rewrite bzip_singleton_r.
Qed.

(** ** The realised weight matrix *)

Definition has_shape (shape : list nat) (v : matrix) : Prop :=
  match shape with
  | [n] => exists row, v = [row] /\ length row = n
  | [m; n] => shaped m n v
  | _ => True
  end.

(** Every column [k] of the direction matrix scaled by
    [scale[k] / norm(column k)]. *)
Definition realized_weight (direction : matrix) (scale : list R) : matrix :=
  (fun row =>
     (fun k => (nth k row 0 * (nth k scale 0 / norm (column k direction)))%R)
       <$> seq 0 (ncols direction))
    <$> direction.

Definition add_bias (bias : bool) (m : matrix) (b : list R) : matrix :=
  if bias then (fun row => zip_with Rplus row b) <$> m else m.

Lemma ncols_shaped r c m : shaped (S r) c m -> ncols m = c.
Proof.
  intros [Hl Hf]. destruct m as [|row m]; [done|].
  unfold ncols. simpl. by inversion Hf.
Qed.

Lemma length_columns m : length (columns m) = ncols m.
Proof. unfold columns. by rewrite length_fmap, length_seq. Qed.

Lemma scaled_row (direction : matrix) (scale row : list R) c :
  ncols direction = c -> length scale = c -> length row = c ->
  bzip Rmult row
    (bzip Rmult scale ((fun d => (1 / d)%R) <$> (norm <$> columns direction))) =
  (fun k => (nth k row 0 * (nth k scale 0 / norm (column k direction)))%R)
    <$> seq 0 c.
Proof.
  intros Hc Hs Hr.
  assert (Hn : length ((fun d => (1 / d)%R) <$> (norm <$> columns direction)) = c)
    by (by rewrite !length_fmap, length_columns).
  rewrite (bzip_same_length _ scale) by lia.
  rewrite bzip_same_length by (rewrite length_zip_with; lia).
  apply list_eq. intros k.
  rewrite list_lookup_fmap, !lookup_zip_with, !list_lookup_fmap.
  unfold columns. rewrite list_lookup_fmap, Hc.
  destruct (decide (k < c)) as [Hk|Hk].
  - rewrite lookup_seq_lt by done. simpl.
    destruct (lookup_lt_is_Some_2 row k) as [x Hx]; [lia|].
    destruct (lookup_lt_is_Some_2 scale k) as [g Hg]; [lia|].
    rewrite Hx, Hg. simpl.
    rewrite (nth_lookup row k), Hx, (nth_lookup scale k), Hg. simpl.
    f_equal. unfold Rdiv. ring.
  - rewrite lookup_seq_ge by lia. simpl.
    rewrite (lookup_ge_None_2 row k) by lia. done.
Qed.

Lemma realized_weight_eq (direction : matrix) (scale : list R) r c :
  shaped (S r) c direction -> length scale = c ->
  broadcast Rmult direction
    (broadcast Rmult [scale]
       (mmap (fun d => (1 / d)%R) [norm <$> columns direction])) =
  realized_weight direction scale.
Proof.
  intros Hd Hs. pose proof (ncols_shaped _ _ _ Hd) as Hc.
  unfold broadcast at 2. simpl. unfold broadcast. rewrite bzip_singleton_r.
  unfold realized_weight. apply Forall_fmap_ext_1.
  eapply Forall_impl; [exact (proj2 Hd)|]. intros row Hrow. simpl in Hrow.
  rewrite Hc. by apply scaled_row.
Qed.

Lemma matmul_shaped r a b :
  length a = r -> shaped r (ncols b) (matmul a b).
Proof.
  intros Ha. unfold matmul. split; [by rewrite length_fmap|].
  apply Forall_fmap, Forall_forall. intros row _. simpl.
  by rewrite length_fmap, length_columns.
Qed.

Lemma concat1_singleton (m : matrix) : concat1 [m] = m.
Proof. done. Qed.

Lemma total_width_pos args :
  args <> [] -> Forall (fun t => arg_ok t = true) args -> 0 < total_width args.
Proof.
  intros Hne Hf. destruct Hf as [|t args Ht _]; [done|].
  simpl. unfold arg_ok, static_width in *.
  destruct t as [[[|b [|[[|n]|] [|? ?]]]|] v]; simpl in *; try done. lia.
Qed.


Lemma linear_result_value output_size bias bias_start scope vs args st r g B :
  let total := total_width args in
  let M := direction_matrix output_size scope vs total st in
  shaped (S r) output_size M ->
  scale_vector output_size scope vs st = [g] -> length g = output_size ->
  (bias = true ->
   bias_vector output_size bias_start scope vs st = [B] /\ length B = output_size) ->
  value (linear_result output_size bias bias_start scope vs args st) =
  add_bias bias (matmul (concat1 (value <$> args)) (realized_weight M g)) B.
Proof.
  intros total M HM Hg Hlg HB. unfold linear_result. fold total. fold M.
  set (W := tf_multiply _ _).
  assert (HW : value W = realized_weight M g).
  { unfold W. simpl. rewrite Hg. by eapply realized_weight_eq. }
  clearbody W.
  set (res := if decide (length args = 1) then _ else _).
  assert (Hres : value res = matmul (concat1 (value <$> args)) (realized_weight M g)).
  { unfold res. destruct (decide (length args = 1)) as [E|E]; simpl; rewrite HW.
    - by destruct args as [|a [|? ?]].
    - done. }
  clearbody res.
  destruct bias; simpl; [|done].
  destruct (HB eq_refl) as [-> HlB]. rewrite Hres.
  unfold broadcast. rewrite bzip_singleton_r.
  apply Forall_fmap_ext_1.
  pose proof (matmul_shaped _ (concat1 (value <$> args)) (realized_weight M g) eq_refl)
    as [_ Hf].
  eapply Forall_impl; [exact Hf|]. intros row Hrow. simpl in Hrow.
  apply bzip_same_length. rewrite Hrow, HlB.
  unfold realized_weight, ncols. destruct HM as [Hl HfM].
  destruct M as [|row0 M']; [done|]. simpl. rewrite length_fmap, length_seq.
  by inversion HfM.
Qed.


(** ** Column norms *)

Lemma sum_squares_nonneg u : (0 <= sum_squares u)%R.
Proof.
  induction u as [|x u IH]; simpl; [lra|]. pose proof (Rle_0_sqr x) as H.
  unfold Rsqr in H. lra.
Qed.

Lemma sum_squares_zero u : sum_squares u = 0%R <-> Forall (fun x => x = 0%R) u.
Proof.
  induction u as [|x u IH]; simpl; [by split|].
  pose proof (sum_squares_nonneg u) as Hu. pose proof (Rle_0_sqr x) as Hx.
  unfold Rsqr in Hx. split.
  - intros H. assert (Hx0 : (x * x = 0)%R) by lra.
    apply Rmult_integral in Hx0. constructor; [by destruct Hx0|].
    apply IH. lra.
  - intros H. inversion H as [|? ? -> Hu0]; subst. apply IH in Hu0. lra.
Qed.

(** A column has norm zero exactly when all its entries are zero. *)
Lemma norm_zero u : norm u = 0%R <-> Forall (fun x => x = 0%R) u.
Proof.
  rewrite <- sum_squares_zero. unfold norm. split.
  - intros H. apply sqrt_eq_0; [apply sum_squares_nonneg|done].
  - intros ->. apply sqrt_0.
Qed.

Lemma norm_nonzero u x : x ∈ u -> x <> 0%R -> norm u <> 0%R.
Proof.
  intros Hin Hx Hn. apply norm_zero in Hn.
  rewrite Forall_forall in Hn. by apply Hx, Hn.
Qed.

(** ** A first example: a fresh store and constant initial values *)

Definition ones_scope : VariableScope := mkScope "" (constant_initializer 1).

Definition example_input : Tensor :=
  mkTensor (Some [Some 1; Some 2]) [[2%R; 3%R]].


Lemma zero_column_iff (m : matrix) :
  Exists (Forall (fun x => x = 0%R)) (columns m) <-> ~ norms_nonzero m.
Proof.
  unfold norms_nonzero. split.
  - intros HE HF. apply Exists_exists in HE as (c & Hin & Hc).
    rewrite Forall_forall in HF. apply (HF c Hin). by apply norm_zero.
  - intros HnF. apply not_Forall_Exists in HnF; [|intros c; apply _].
    eapply Exists_impl; [exact HnF|]. intros c Hc. simpl in Hc.
    apply norm_zero. destruct (decide (norm c = 0%R)) as [|Hn]; [done|].
    exfalso. by apply Hc.
Qed.

(** On accepted arguments the outcome is decided by the column norms. *)
Lemma linear_outcome output_size bias bias_start scope vs args st :
  let M := direction_matrix output_size scope vs (total_width args) st in
  args <> [] ->
  Forall (fun t => arg_ok t = true) args ->
  (norms_nonzero M ->
   _linear (ArgsList args) output_size bias bias_start scope vs st =
   (Returned (linear_result output_size bias bias_start scope vs args st),
    store_after_linear output_size bias bias_start scope vs (total_width args) st)) /\
  (~ norms_nonzero M ->
   _linear (ArgsList args) output_size bias bias_start scope vs st =
   (NonFinite, store_after_scalars output_size scope vs (total_width args) st)).
Proof.
  intros M Hne Hok. rewrite linear_eq. simpl tensors_of.
  rewrite decide_False by done. rewrite (validate_ok _ Hok). fold M.
  destruct (decide (norms_nonzero M)) as [H|H]; split; done.
Qed.



(** A direction matrix with a zero column: the call creates its
    parameters and then divides by a zero norm. *)
Definition zeros_scope : VariableScope := mkScope "" (constant_initializer 0).

Example linear_zero_column :
  (_linear (ArgsList [example_input]) 2 true 0 None zeros_scope ∅).1 = NonFinite.
Proof.
  destruct (linear_outcome 2 true 0 None zeros_scope [example_input] ∅) as [_ H].
  - done.
  - repeat constructor.
  - rewrite H; [done|]. apply zero_column_iff. left. repeat constructor.
Qed.

(** ** The step, piece by piece *)

Section step.
Context (self : MultiplicativeLSTMCell) (scope : option string)
        (vs : VariableScope).

Definition cell_scope : VariableScope :=
  variable_scope vs (py_or scope "MultiplicativeLSTMCell").

(** The multiplicative term [m = Wx * Wh] from the first linear map. *)
Definition multiplicative_term (concat : Tensor) : Tensor :=
  tf_multiply (split_part 2 0 concat) (split_part 2 1 concat).

Definition peephole (name : string) (st : gmap string matrix) : Tensor :=
  mkTensor (Some [Some (num_units self)])
           (var_value cell_scope name [num_units self] None st).

Definition diagonals (st : gmap string matrix)
    : option (Tensor * Tensor * Tensor) :=
  if use_peepholes self
  then Some (peephole "W_F_diag" st, peephole "W_I_diag" st, peephole "W_O_diag" st)
  else None.

Definition store_after_diagonals (st : gmap string matrix) : gmap string matrix :=
  if use_peepholes self
  then var_store cell_scope "W_O_diag" [num_units self] None
         (var_store cell_scope "W_I_diag" [num_units self] None
            (var_store cell_scope "W_F_diag" [num_units self] None st))
  else st.

(** The cell state before clipping. *)
Definition cell_update (diag : option (Tensor * Tensor * Tensor))
    (c_prev lstm_matrix : Tensor) : Tensor :=
  let i := split_part 4 0 lstm_matrix in
  let j := split_part 4 1 lstm_matrix in
  let f := split_part 4 2 lstm_matrix in
  match diag with
  | Some (w_f_diag, w_i_diag, _) =>
      tf_add
        (tf_multiply c_prev
           (tf_sigmoid
              (tf_add (tf_add f (tf_constant (forget_bias self)))
                      (tf_multiply w_f_diag c_prev))))
        (tf_multiply (tf_sigmoid (tf_add i (tf_multiply w_i_diag c_prev))) j)
  | None =>
      tf_add
        (tf_multiply c_prev
           (tf_sigmoid (tf_add f (tf_constant (forget_bias self)))))
        (tf_multiply (tf_sigmoid i) j)
  end.

Definition clip_cell (c : Tensor) : Tensor :=
  match cell_clip self with
  | Some k => tf_clip_by_value c (- k)%R k
  | None => c
  end.

(** The hidden state before projection. *)
Definition hidden (diag : option (Tensor * Tensor * Tensor))
    (c lstm_matrix : Tensor) : Tensor :=
  let o := split_part 4 3 lstm_matrix in
  match diag with
  | Some (_, _, w_o_diag) =>
      tf_multiply
        (tf_sigmoid (tf_add o (tf_multiply w_o_diag c)))
        (tf_unary (activation self)
           (tf_multiply c (tf_add o (tf_multiply w_o_diag c))))
  | None => tf_unary (activation self) (tf_multiply c o)
  end.

Definition projection_size : nat := default (num_units self) (num_proj self).

Definition projection_matrix (st : gmap string matrix) : Tensor :=
  mkTensor (Some [Some (num_units self); Some projection_size])
           (var_value cell_scope "W_P" [num_units self; projection_size] None st).

Definition project (st : gmap string matrix) (h : Tensor) : Tensor :=
  match num_proj self with
  | Some _ =>
      let h := tf_matmul h (projection_matrix st) in
      match proj_clip self with
      | Some k => tf_clip_by_value h (- k)%R k
      | None => h
      end
  | None => h
  end.

Definition store_after_projection (st : gmap string matrix)
    : gmap string matrix :=
  match num_proj self with
  | Some _ => var_store cell_scope "W_P" [num_units self; projection_size] None st
  | None => st
  end.

Definition pack_state (c h : Tensor) : State :=
  if state_is_tuple self then LSTMStateTuple c h
  else FlatState (tf_concat1 [c; h]).

(** What the step returns from the gate pre-activations [lstm_matrix] and
    the store [st] the second linear map leaves. *)
Definition step_result (c_prev lstm_matrix : Tensor) (st : gmap string matrix)
    : Tensor * State :=
  let diag := diagonals st in
  let c := clip_cell (cell_update diag c_prev lstm_matrix) in
  let h := project st (hidden diag c lstm_matrix) in
  (h, pack_state c h).

Definition step_store (st : gmap string matrix) : gmap string matrix :=
  store_after_projection (store_after_diagonals st).

Lemma call_eq inputs state st :
  __call__ self inputs state scope vs st =
  match unpack_state self state with
  | Returned (c_prev, h_prev) =>
      match with_rank_2_dim_1 (get_shape inputs) with
      | Returned (Some _) =>
          match _linear (ArgsList [inputs; h_prev]) (2 * num_units self) true 0
                  None (variable_scope cell_scope "Multipli_Weight") st with
          | (Returned concat, st1) =>
              match _linear (ArgsList [inputs; multiplicative_term concat])
                      (4 * num_units self) true 0 None
                      (variable_scope cell_scope "LSTM_Weight") st1 with
              | (Returned lstm_matrix, st2) =>
                  (Returned (step_result c_prev lstm_matrix st2), step_store st2)
              | (Raised e, st2) => (Raised e, st2)
              | (NonFinite, st2) => (NonFinite, st2)
              end
          | (Raised e, st1) => (Raised e, st1)
          | (NonFinite, st1) => (NonFinite, st1)
          end
      | Returned None =>
          (Raised (ValueError "Could not infer input size from inputs.get_shape()[-1]"),
           st)
      | Raised e => (Raised e, st)
      | NonFinite => (NonFinite, st)
      end
  | Raised e => (Raised e, st)
  | NonFinite => (NonFinite, st)
  end.
Proof.
  unfold __call__, bind, lift.
  destruct (unpack_state self state) as [[c_prev h_prev]| |]; try reflexivity.
  destruct (with_rank_2_dim_1 (get_shape inputs)) as [[n|]| |]; try reflexivity.
  fold cell_scope. cbn [fst snd].
  destruct (_linear (ArgsList [inputs; h_prev]) _ _ _ _ _ st)
    as [[concat| |] st1]; try reflexivity.
  fold (multiplicative_term concat).
  destruct (_linear (ArgsList [inputs; multiplicative_term concat]) _ _ _ _ _ st1)
    as [[lstm_matrix| |] st2]; try reflexivity.
  unfold step_result, step_store, diagonals, store_after_diagonals, project,
    store_after_projection, cell_update, clip_cell, hidden, pack_state,
    projection_matrix, peephole, ret.
  fold projection_size.
  destruct (use_peepholes self); rewrite ?get_variable_eq; cbv beta iota;
    rewrite ?get_variable_eq; cbv beta iota; rewrite ?get_variable_eq;
    cbv beta iota.
  all: destruct (num_proj self); rewrite ?get_variable_eq; cbv beta iota.
  all: rewrite ?var_value_store_ne by done.
  all: reflexivity.
Qed.
End step.

(** ** Full names of the cell's variables *)

Lemma string_app_assoc (a b c : string) : (a +:+ b) +:+ c = a +:+ (b +:+ c).
Proof.
  induction a as [|x a IH]; [done|].
  change (String x ((a +:+ b) +:+ c) = String x (a +:+ (b +:+ c))).
  f_equal. exact IH.
Qed.

Lemma string_app_nonempty (a b : string) : a <> "" -> a +:+ b <> "".
Proof. by destruct a. Qed.

Lemma join_top p n : p <> "" -> join_name p n = p +:+ ("/" +:+ n).
Proof. intros H. unfold join_name. by rewrite decide_False. Qed.

Lemma join_under p x n :
  p <> "" -> join_name (p +:+ x) n = p +:+ (x +:+ ("/" +:+ n)).
Proof.
  intros H. rewrite join_top by (by apply string_app_nonempty).
  by rewrite string_app_assoc.
Qed.

Lemma py_or_nonempty x d : d <> "" -> py_or x d <> "".
Proof.
  intros H. unfold py_or. destruct x as [s|]; [|done].
  by destruct (decide (s = "")).
Qed.

Lemma join_name_nonempty p n : n <> "" -> join_name p n <> "".
Proof.
  intros H. unfold join_name. destruct (decide (p = "")); [done|].
  by apply string_app_nonempty.
Qed.

Lemma cell_scope_nonempty scope vs : vs_name (cell_scope scope vs) <> "".
Proof. apply join_name_nonempty, py_or_nonempty. done. Qed.

(** Two names under a common non-empty prefix differ when their closed
    suffixes do. *)
Ltac names_differ H :=
  let E := fresh "E" in
  intros E; unfold variable_scope in E; cbn [vs_name py_or] in E;
  rewrite !(join_top _ _ H) in E; rewrite ?(join_under _ _ _ H) in E;
  apply String.app_inj in E; vm_compute in E; discriminate E.

Section names.
Context (scope : option string) (vs : VariableScope).

Definition multipli_scope : VariableScope := variable_scope (cell_scope scope vs) "Multipli_Weight".
Definition lstm_scope : VariableScope := variable_scope (cell_scope scope vs) "LSTM_Weight".

Lemma linear_names_differ a b :
  a ∈ ["NormalColMatrix"; "Scalars"; "Bias"] ->
  b ∈ ["NormalColMatrix"; "Scalars"; "Bias"] ->
  join_name (vs_name (linear_scope None multipli_scope)) a <>
  join_name (vs_name (linear_scope None lstm_scope)) b.
Proof.
  pose proof (cell_scope_nonempty scope vs) as H.
  intros Ha Hb. unfold linear_scope, multipli_scope, lstm_scope.
  repeat (apply elem_of_cons in Ha as [->|Ha]); [| | |by apply elem_of_nil in Ha].
  all: repeat (apply elem_of_cons in Hb as [->|Hb]); [| | |by apply elem_of_nil in Hb].
  all: names_differ H.
Qed.

Lemma cell_names_differ ws a b :
  ws ∈ ["Multipli_Weight"; "LSTM_Weight"] ->
  a ∈ ["NormalColMatrix"; "Scalars"; "Bias"] ->
  b ∈ ["W_F_diag"; "W_I_diag"; "W_O_diag"; "W_P"] ->
  join_name (vs_name (cell_scope scope vs)) b <>
  join_name (vs_name (linear_scope None (variable_scope (cell_scope scope vs) ws))) a.
Proof.
  pose proof (cell_scope_nonempty scope vs) as H.
  intros Hw Ha Hb. unfold linear_scope.
  repeat (apply elem_of_cons in Hw as [->|Hw]); [| |by apply elem_of_nil in Hw].
  all: repeat (apply elem_of_cons in Ha as [->|Ha]); [| | |by apply elem_of_nil in Ha].
  all: repeat (apply elem_of_cons in Hb as [->|Hb]); [| | | |by apply elem_of_nil in Hb].
  all: names_differ H.
Qed.
End names.

(** ** Static shapes along the step *)

Lemma bdim_same x : bdim (Some x) (Some x) = Some x.
Proof. by destruct x as [|[|x]]. Qed.

Lemma linear_result_shape output_size bias bias_start scope vs args st :
  exists d0,
    get_shape (linear_result output_size bias bias_start scope vs args st)
    = Some [d0; Some output_size].
Proof.
  unfold linear_result.
  set (W := tf_multiply _ _).
  assert (HW : dim 1 (get_shape W) = Some output_size).
  { unfold W. simpl. by destruct output_size as [|[|x]]. }
  clearbody W.
  destruct (decide (length args = 1)); destruct bias; simpl; rewrite HW;
    destruct output_size as [|[|x]]; by eexists.
Qed.

Lemma half_double n : (2 * n) / 2 = n.
Proof. rewrite Nat.mul_comm. apply Nat.div_mul. done. Qed.

Lemma multiplicative_term_shape n concat d0 :
  get_shape concat = Some [d0; Some (2 * n)] ->
  get_shape (multiplicative_term concat) = Some [bdim d0 d0; Some n].
Proof.
  intros H. unfold multiplicative_term, split_part, tf_multiply, tf_binary.
  cbn [get_shape]. rewrite H. cbn [dim nth]. rewrite half_double.
  unfold broadcast_shape. cbn [rev app broadcast_rev]. by rewrite bdim_same.
Qed.

Lemma arg_ok_width t : arg_ok t = true -> exists w, dim 1 (get_shape t) = Some (S w).
Proof.
  unfold arg_ok. destruct t as [[[|b [|[[|n]|] [|? ?]]]|] v]; simpl; try done.
  by eexists.
Qed.

Lemma arg_ok_rank t :
  arg_ok t = true ->
  exists w, with_rank_2_dim_1 (get_shape t) = Returned (Some w).
Proof.
  unfold arg_ok. destruct t as [[[|b [|[[|n]|] [|? ?]]]|] v]; simpl; try done.
  by eexists.
Qed.

(** ** When the step returns *)

Section run.
Context (self : MultiplicativeLSTMCell) (scope : option string)
        (vs : VariableScope) (inputs c_prev h_prev : Tensor)
        (st : gmap string matrix).

Definition first_linear : Tensor :=
  linear_result (2 * num_units self) true 0 None (multipli_scope scope vs)
    [inputs; h_prev] st.

Definition store1 : gmap string matrix :=
  store_after_linear (2 * num_units self) true 0 None (multipli_scope scope vs)
    (total_width [inputs; h_prev]) st.

Definition gate_inputs : list Tensor := [inputs; multiplicative_term first_linear].

Definition gates : Tensor :=
  linear_result (4 * num_units self) true 0 None (lstm_scope scope vs)
    gate_inputs store1.

Definition store2 : gmap string matrix :=
  store_after_linear (4 * num_units self) true 0 None (lstm_scope scope vs)
    (total_width gate_inputs) store1.

(** The two direction matrices as the step meets them. *)
Definition multipli_matrix : matrix :=
  direction_matrix (2 * num_units self) None (multipli_scope scope vs)
    (total_width [inputs; h_prev]) st.

Definition lstm_matrix_weights : matrix :=
  direction_matrix (4 * num_units self) None (lstm_scope scope vs)
    (total_width gate_inputs) store1.

Lemma gate_inputs_ok :
  arg_ok inputs = true -> num_units self <> 0 ->
  Forall (fun t => arg_ok t = true) gate_inputs.
Proof.
  intros Hi Hn. constructor; [done|]. constructor; [|constructor].
  destruct (linear_result_shape (2 * num_units self) true 0 None
              (multipli_scope scope vs) [inputs; h_prev] st) as [d0 Hd].
  unfold arg_ok. fold first_linear in Hd.
  rewrite (multiplicative_term_shape _ _ _ Hd).
  by destruct (num_units self).
Qed.

Lemma call_returns state :
  unpack_state self state = Returned (c_prev, h_prev) ->
  arg_ok inputs = true -> arg_ok h_prev = true -> num_units self <> 0 ->
  norms_nonzero multipli_matrix -> norms_nonzero lstm_matrix_weights ->
  __call__ self inputs state scope vs st =
  (Returned (step_result self scope vs c_prev gates store2),
   step_store self scope vs store2).
Proof.
  intros Hu Hi Hh Hn H1 H2. rewrite call_eq, Hu.
  fold (multipli_scope scope vs). fold (lstm_scope scope vs).
  destruct (arg_ok_rank _ Hi) as [w ->].
  assert (Hok1 : Forall (fun t => arg_ok t = true) [inputs; h_prev])
    by (constructor; [done|]; constructor; [done|]; constructor).
  assert (Hne1 : [inputs; h_prev] <> []) by done.
  rewrite (proj1 (linear_outcome (2 * num_units self) true 0 None
                    (multipli_scope scope vs) [inputs; h_prev] st Hne1 Hok1) H1).
  fold first_linear. fold store1. fold gate_inputs.
  assert (Hne2 : gate_inputs <> []) by done.
  rewrite (proj1 (linear_outcome (4 * num_units self) true 0 None
                    (lstm_scope scope vs) gate_inputs store1 Hne2
                    (gate_inputs_ok Hi Hn)) H2).
  reflexivity.
Qed.

(** Once the step's own checks have passed, the operations themselves raise
    nothing: the step returns, or meets a zero norm.  What the framework
    checks on the way is the matter of [Checked]. *)
Lemma call_accepted_not_raises state :
  unpack_state self state = Returned (c_prev, h_prev) ->
  arg_ok inputs = true -> arg_ok h_prev = true -> num_units self <> 0 ->
  ~ raises (__call__ self inputs state scope vs st).
Proof.
  intros Hu Hi Hh Hn [e He]. rewrite call_eq, Hu in He.
  fold (multipli_scope scope vs) in He. fold (lstm_scope scope vs) in He.
  destruct (arg_ok_rank _ Hi) as [w Hw]. rewrite Hw in He.
  assert (Hok1 : Forall (fun t => arg_ok t = true) [inputs; h_prev])
    by (constructor; [done|]; constructor; [done|]; constructor).
  assert (Hne1 : [inputs; h_prev] <> []) by done.
  destruct (linear_outcome (2 * num_units self) true 0 None
              (multipli_scope scope vs) [inputs; h_prev] st Hne1 Hok1) as [Hyes Hno].
  destruct (decide (norms_nonzero multipli_matrix)) as [H1|H1];
    [|by rewrite (Hno H1) in He].
  rewrite (Hyes H1) in He. fold first_linear in He. fold store1 in He.
  fold gate_inputs in He.
  assert (Hne2 : gate_inputs <> []) by done.
  destruct (linear_outcome (4 * num_units self) true 0 None
              (lstm_scope scope vs) gate_inputs store1 Hne2 (gate_inputs_ok Hi Hn))
    as [Hyes2 Hno2].
  destruct (decide (norms_nonzero lstm_matrix_weights)) as [H2|H2].
  - by rewrite (Hyes2 H2) in He.
  - by rewrite (Hno2 H2) in He.
Qed.
End run.

(** An input whose feature width the graph builder does not know. *)
Definition unknown_width_input : Tensor :=
  mkTensor (Some [Some 1; None]) [[2%R; 3%R]].

(** ** The initializer of the cell *)

Definition with_initializer (self : MultiplicativeLSTMCell) (init : Initializer)
    : MultiplicativeLSTMCell :=
  mkCell (num_units self) (use_peepholes self) (cell_clip self) init
         (num_proj self) (proj_clip self) (forget_bias self)
         (state_is_tuple self) (activation self) (state_size self)
         (output_size self).

(** The step never reads the cell's [initializer]: whatever it is, the
    outcome and the store are the same. *)
Lemma call_ignores_initializer self init inputs state scope vs st :
  __call__ (with_initializer self init) inputs state scope vs st =
  __call__ self inputs state scope vs st.
Proof. reflexivity. Qed.

(** ** A concrete step: one unit, a fresh store, initial values all one *)

Definition zero_state_part : Tensor := mkTensor (Some [Some 1; Some 1]) [[0%R]].

Definition example_state : State := LSTMStateTuple zero_state_part zero_state_part.

Definition example_cell : MultiplicativeLSTMCell :=
  __init__ 1 false None (constant_initializer 5) None None 1 true tanh.

Lemma ones_norms_nonzero (m n : nat) :
  m <> 0 -> norms_nonzero (constant_initializer 1 [m; n]).
Proof.
  intros Hm. unfold norms_nonzero, columns. apply Forall_fmap, Forall_forall.
  intros k Hk. simpl. destruct m as [|m]; [done|].
  apply elem_of_seq in Hk. unfold ncols in Hk. simpl in Hk.
  rewrite length_replicate in Hk.
  apply (norm_nonzero _ 1%R); [|lra].
  unfold column. simpl.
  rewrite (nth_lookup (replicate n 1%R) k), lookup_replicate_2 by lia. left.
Qed.

Ltac in_list :=
  repeat first [apply list_elem_of_here | apply list_elem_of_further].

Lemma var_value_empty vs name shape init :
  var_value vs name shape init ∅ = default (vs_initializer vs) init shape.
Proof. unfold var_value. by rewrite lookup_empty. Qed.

(** The parameters of the gate map are not those of the multiplicative
    map: the first linear map leaves them as they were. *)
Lemma store1_lstm_lookup self scope vs inputs h_prev st b :
  b ∈ ["NormalColMatrix"; "Scalars"; "Bias"] ->
  store1 self scope vs inputs h_prev st
    !! join_name (vs_name (linear_scope None (lstm_scope scope vs))) b
  = st !! join_name (vs_name (linear_scope None (lstm_scope scope vs))) b.
Proof.
  intros Hb. unfold store1, store_after_linear, store_after_scalars.
  rewrite !var_store_lookup_ne; [done|..];
    apply not_eq_sym, linear_names_differ; try done; in_list.
Qed.

Lemma lstm_matrix_weights_eq self scope vs inputs h_prev st :
  lstm_matrix_weights self scope vs inputs h_prev st =
  direction_matrix (4 * num_units self) None (lstm_scope scope vs)
    (total_width (gate_inputs self scope vs inputs h_prev st)) st.
Proof.
  unfold lstm_matrix_weights, direction_matrix, var_value.
  rewrite store1_lstm_lookup; [done|in_list].
Qed.

Lemma gate_inputs_width self scope vs inputs h_prev st :
  total_width (gate_inputs self scope vs inputs h_prev st)
  = static_width inputs + num_units self.
Proof.
  unfold gate_inputs, total_width. simpl. f_equal.
  destruct (linear_result_shape (2 * num_units self) true 0 None
              (multipli_scope scope vs) [inputs; h_prev] st) as [d0 Hd].
  fold (first_linear self scope vs inputs h_prev st) in Hd.
  unfold static_width. rewrite (multiplicative_term_shape _ _ _ Hd). simpl. lia.
Qed.

Lemma example_unpack self :
  state_is_tuple self = true ->
  unpack_state self example_state = Returned (zero_state_part, zero_state_part).
Proof. intros Ht. unfold unpack_state, example_state. by rewrite Ht. Qed.

Lemma example_norms_multipli self :
  num_units self = 1 ->
  norms_nonzero (multipli_matrix self None ones_scope example_input zero_state_part ∅).
Proof.
  intros Hn. unfold multipli_matrix, direction_matrix. rewrite var_value_empty.
  refine (ones_norms_nonzero _ _ _). unfold total_width, static_width.
  simpl. lia.
Qed.

Lemma example_norms_lstm self :
  num_units self = 1 ->
  norms_nonzero
    (lstm_matrix_weights self None ones_scope example_input zero_state_part ∅).
Proof.
  intros Hn. rewrite lstm_matrix_weights_eq. unfold direction_matrix.
  rewrite var_value_empty. refine (ones_norms_nonzero _ _ _).
  rewrite gate_inputs_width. lia.
Qed.

Lemma example_units_nonzero self : num_units self = 1 -> num_units self <> 0.
Proof. lia. Qed.

Lemma example_call_returns self :
  num_units self = 1 -> state_is_tuple self = true ->
  __call__ self example_input example_state None ones_scope ∅ =
  (Returned (step_result self None ones_scope zero_state_part
               (gates self None ones_scope example_input zero_state_part ∅)
               (store2 self None ones_scope example_input zero_state_part ∅)),
   step_store self None ones_scope
     (store2 self None ones_scope example_input zero_state_part ∅)).
Proof.
  intros Hn Ht.
  exact (call_returns self None ones_scope example_input zero_state_part
           zero_state_part ∅ example_state (example_unpack self Ht) eq_refl eq_refl
           (example_units_nonzero self Hn) (example_norms_multipli self Hn)
           (example_norms_lstm self Hn)).
Qed.

(** C7, as the code has it: a cell built with the initializer "all fives",
    stepped in a scope whose fallback initializer is "all ones" on a fresh
    store, creates the direction matrix of the multiplicative map from the
    scope's initializer; the cell's own initializer is not consulted. *)
Theorem initializer_not_used :
  let r := __call__ example_cell example_input example_state None ones_scope ∅ in
  (exists out, r.1 = Returned out) /\
  r.2 !! "MultiplicativeLSTMCell/Multipli_Weight/Linear/NormalColMatrix"
    = Some (replicate 3 (replicate 2 1%R)) /\
  r.2 !! "MultiplicativeLSTMCell/LSTM_Weight/Linear/NormalColMatrix"
    = Some (replicate 3 (replicate 4 1%R)) /\
  initializer example_cell [3; 2] = replicate 3 (replicate 2 5%R).
Proof.
  intros r. unfold r. rewrite (example_call_returns example_cell) by done.
  split; [by eexists|]. split; [|split; [|reflexivity]].
  - cbn [snd]. unfold step_store, store_after_projection, store_after_diagonals.
    cbn [num_proj use_peepholes example_cell __init__ truthy].
    unfold store2, store_after_linear, store_after_scalars.
    change "MultiplicativeLSTMCell/Multipli_Weight/Linear/NormalColMatrix"
      with (join_name (vs_name (linear_scope None (multipli_scope None ones_scope)))
              "NormalColMatrix").
    rewrite !var_store_lookup_ne
      by (apply linear_names_differ; in_list).
    unfold store1, store_after_linear, store_after_scalars.
    rewrite !var_store_lookup_ne by (by apply join_name_ne).
    unfold var_store. rewrite lookup_insert_eq, var_value_empty. reflexivity.
  - cbn [snd]. unfold step_store, store_after_projection, store_after_diagonals.
    cbn [num_proj use_peepholes example_cell __init__ truthy].
    unfold store2, store_after_linear, store_after_scalars.
    change "MultiplicativeLSTMCell/LSTM_Weight/Linear/NormalColMatrix"
      with (join_name (vs_name (linear_scope None (lstm_scope None ones_scope)))
              "NormalColMatrix").
    rewrite !var_store_lookup_ne by (by apply join_name_ne).
    unfold var_store. rewrite lookup_insert_eq. unfold var_value.
    rewrite store1_lstm_lookup by in_list. rewrite lookup_empty.
    rewrite gate_inputs_width. reflexivity.
Qed.

(** ** Clipping *)




(** With a negative bound the clipped value is the constant [- k], which
    is above [k]. *)
Lemma clip_negative_bound k x : (k < 0)%R -> clip (- k)%R k x = (- k)%R.
Proof.
  intros Hk. unfold clip, Rmax, Rmin.
  repeat destruct (Rle_dec _ _); lra.
Qed.


Definition clipped_cell : MultiplicativeLSTMCell :=
  __init__ 1 true (Some 1%R) (constant_initializer 5) (Some 1) (Some 1%R) 1 true tanh.


(** ** What the calls leave alone in the store *)

Definition linear_names (scope : option string) (vs : VariableScope) : list string :=
  (fun n => join_name (vs_name (linear_scope scope vs)) n)
    <$> ["NormalColMatrix"; "Scalars"; "Bias"].

Lemma not_in_linear_names key scope vs n :
  key ∉ linear_names scope vs ->
  n ∈ ["NormalColMatrix"; "Scalars"; "Bias"] ->
  key <> join_name (vs_name (linear_scope scope vs)) n.
Proof.
  intros Hk Hn E. apply Hk. unfold linear_names. rewrite E.
  apply list_elem_of_fmap. by exists n.
Qed.

Lemma linear_store_lookup args output_size bias bias_start scope vs st key :
  key ∉ linear_names scope vs ->
  (_linear args output_size bias bias_start scope vs st).2 !! key = st !! key.
Proof.
  intros Hk. rewrite linear_eq.
  destruct (decide (tensors_of args = [])); [done|].
  destruct (validate (tensors_of args)); try done.
  destruct (decide (norms_nonzero _)); cbn [snd];
    unfold store_after_linear, store_after_scalars; destruct bias;
    rewrite !var_store_lookup_ne; try done;
    apply not_in_linear_names; try done; in_list.
Qed.

Lemma var_store_insert vs name shape init st key v :
  key <> join_name (vs_name vs) name ->
  var_store vs name shape init (<[key := v]> st)
  = <[key := v]> (var_store vs name shape init st).
Proof.
  intros Hk. unfold var_store, var_value.
  rewrite lookup_insert_ne by done. by apply insert_insert_ne, not_eq_sym.
Qed.

Lemma var_value_insert vs name shape init st key v :
  key <> join_name (vs_name vs) name ->
  var_value vs name shape init (<[key := v]> st) = var_value vs name shape init st.
Proof. intros Hk. unfold var_value. by rewrite lookup_insert_ne. Qed.

(** A variable that is not one of its three parameters has no influence
    on the linear map and is carried along unchanged. *)
Lemma linear_insert_frame args output_size bias bias_start scope vs st key v :
  key ∉ linear_names scope vs ->
  _linear args output_size bias bias_start scope vs (<[key := v]> st) =
  ((_linear args output_size bias bias_start scope vs st).1,
   <[key := v]> (_linear args output_size bias bias_start scope vs st).2).
Proof.
  intros Hk. rewrite !linear_eq.
  destruct (decide (tensors_of args = [])); [done|].
  destruct (validate (tensors_of args)) as [total| |]; try done.
  assert (HM : direction_matrix output_size scope vs total (<[key := v]> st)
               = direction_matrix output_size scope vs total st).
  { unfold direction_matrix. apply var_value_insert.
    apply not_in_linear_names; [done|in_list]. }
  assert (HS : store_after_scalars output_size scope vs total (<[key := v]> st)
               = <[key := v]> (store_after_scalars output_size scope vs total st)).
  { unfold store_after_scalars.
    rewrite !var_store_insert; try done; apply not_in_linear_names; try done; in_list. }
  rewrite HM. destruct (decide (norms_nonzero _)); cbn [fst snd]; [|by rewrite HS].
  f_equal.
  - f_equal. unfold linear_result, direction_matrix, scale_vector, bias_vector.
    rewrite !var_value_insert; try done; apply not_in_linear_names; try done; in_list.
  - unfold store_after_linear. destruct bias; [|done].
    rewrite HS. apply var_store_insert. apply not_in_linear_names; [done|in_list].
Qed.

(** ** Shapes of the values along the step *)

Lemma shaped_nil c : shaped 0 c [].
Proof. by split. Qed.

Lemma shaped_ncols r c m : shaped r c m -> r <> 0 -> ncols m = c.
Proof. intros H Hr. destruct r as [|r]; [done|]. by eapply ncols_shaped. Qed.

Lemma split_part_shaped k i w b t :
  shaped b (k * w) (value t) -> i < k ->
  shaped b w (value (split_part k i t)) /\
  forall r c, r < b -> c < w ->
    entry (value (split_part k i t)) r c = entry (value t) r (i * w + c).
Proof.
  intros Ht Hi. unfold split_part. cbn [value].
  destruct (decide (b = 0)) as [->|Hb].
  { destruct Ht as [Hl _]. apply nil_length_inv in Hl. rewrite Hl.
    split; [apply shaped_nil|]. intros r c Hr. lia. }
  rewrite (shaped_ncols _ _ _ Ht Hb).
  replace (k * w / k) with w by (rewrite Nat.mul_comm, Nat.div_mul; lia).
  split.
  - eapply shaped_fmap; [exact Ht|]. intros row Hrow.
    rewrite length_take, length_drop. nia.
  - intros r c Hr Hc.
    assert (Hic : i * w + c < k * w) by nia.
    destruct (entry_lookup _ _ _ r (i * w + c) Ht Hr Hic) as (row & Hrow & Hlen & Hx).
    eapply entry_fmap; [exact Ht|done|]. intros row' Hrow'.
    replace row' with row by congruence.
    rewrite lookup_take_lt by done. by rewrite lookup_drop.
Qed.

Lemma concat1_pair_shaped b c1 c2 (m1 m2 : matrix) :
  shaped b c1 m1 -> shaped b c2 m2 -> shaped b (c1 + c2) (concat1 [m1; m2]).
Proof.
  intros [Hl1 Hf1] [Hl2 Hf2]. simpl. split; [rewrite length_zip_with; lia|].
  clear Hl1 Hl2. revert m2 Hf2.
  induction Hf1 as [|r1 m1 Hr1 _ IH]; intros m2 Hf2; [by constructor|].
  destruct Hf2 as [|r2 m2 Hr2 Hf2]; [by constructor|]. simpl.
  constructor; [rewrite length_app; lia|]. by apply IH.
Qed.

Lemma shaped_length b c m : shaped b c m -> length m = b.
Proof. by intros [? _]. Qed.

Lemma ncols_realized_weight (direction : matrix) (scale : list R) :
  ncols (realized_weight direction scale) = ncols direction.
Proof.
  unfold realized_weight. destruct direction as [|row direction]; [done|].
  unfold ncols at 1. simpl. by rewrite length_fmap, length_seq.
Qed.

Lemma add_bias_shaped bias b c (m : matrix) (B : list R) :
  shaped b c m -> (bias = true -> length B = c) -> shaped b c (add_bias bias m B).
Proof.
  intros Hm HB. unfold add_bias. destruct bias; [|done].
  eapply shaped_fmap; [exact Hm|]. intros row Hrow.
  rewrite length_zip_with, HB by done. lia.
Qed.

(** The value of the linear map has one row per input row and
    [output_size] columns. *)
Lemma linear_value_shaped output_size bias bias_start scope vs args st b :
  let total := total_width args in
  has_shape [total; output_size] (direction_matrix output_size scope vs total st) ->
  has_shape [output_size] (scale_vector output_size scope vs st) ->
  (bias = true -> has_shape [output_size] (bias_vector output_size bias_start scope vs st)) ->
  total <> 0 ->
  length (concat1 (value <$> args)) = b ->
  shaped b output_size (value (linear_result output_size bias bias_start scope vs args st)).
Proof.
  intros total HM (g & Hg & Hlg) HB Ht Hb. simpl in HM.
  assert (HB' : exists B, bias = true ->
            bias_vector output_size bias_start scope vs st = [B] /\
            length B = output_size).
  { destruct bias; [|by exists []].
    destruct (HB eq_refl) as (B & HB1 & HB2). by exists B. }
  destruct HB' as [B HB'].
  rewrite (linear_result_value output_size bias bias_start scope vs args st
             (Nat.pred total) g B); try done.
  - apply add_bias_shaped; [|intros Hbias; by apply HB'].
    pose proof (matmul_shaped b (concat1 (value <$> args))
                  (realized_weight (direction_matrix output_size scope vs total st) g)
                  Hb) as Hmm.
    rewrite ncols_realized_weight in Hmm.
    by rewrite (shaped_ncols _ _ _ HM Ht) in Hmm.
  - fold total. by replace (S (Nat.pred total)) with total by lia.
Qed.

(** ** Entries of the values the cell computes *)

(** [m] has [b] rows of [n] entries, and its entry at [(r, k)] is [e r k]. *)
Definition has_entries (b n : nat) (m : matrix) (e : nat -> nat -> R) : Prop :=
  shaped b n m /\ forall r k, r < b -> k < n -> entry m r k = e r k.

Lemma he_self b n m : shaped b n m -> has_entries b n m (entry m).
Proof. by split. Qed.

Lemma he_ext b n m e e' :
  has_entries b n m e -> (forall r k, r < b -> k < n -> e r k = e' r k) ->
  has_entries b n m e'.
Proof.
  intros [Hs He] Hext. split; [done|]. intros r k Hr Hk.
  rewrite He by done. by apply Hext.
Qed.

Lemma he_broadcast op b n a c ea ec :
  has_entries b n a ea -> has_entries b n c ec ->
  has_entries b n (broadcast op a c) (fun r k => op (ea r k) (ec r k)).
Proof.
  intros [Ha Hea] [Hc Hec]. split; [by apply broadcast_shaped|].
  intros r k Hr Hk. rewrite (broadcast_entry op b n) by done.
  by rewrite Hea, Hec.
Qed.

Lemma he_vector_l op b n v a ea :
  length v = n -> has_entries b n a ea ->
  has_entries b n (broadcast op [v] a) (fun r k => op (nth k v 0%R) (ea r k)).
Proof.
  intros Hv [Ha Hea]. destruct (broadcast_vector_l op b n v a Hv Ha) as [Hs He].
  split; [done|]. intros r k Hr Hk. rewrite He by done. by rewrite Hea.
Qed.

Lemma he_scalar_r op b n a ea x :
  has_entries b n a ea ->
  has_entries b n (broadcast op a [[x]]) (fun r k => op (ea r k) x).
Proof.
  intros [Ha Hea]. rewrite broadcast_scalar_r. split; [by apply shaped_mmap|].
  intros r k Hr Hk. rewrite (entry_mmap b n) by done. by rewrite Hea.
Qed.

Lemma he_mmap f b n a ea :
  has_entries b n a ea -> has_entries b n (mmap f a) (fun r k => f (ea r k)).
Proof.
  intros [Ha Hea]. split; [by apply shaped_mmap|].
  intros r k Hr Hk. rewrite (entry_mmap b n) by done. by rewrite Hea.
Qed.

Lemma he_split k i w b t :
  shaped b (k * w) (value t) -> i < k ->
  has_entries b w (value (split_part k i t))
    (fun r c => entry (value t) r (i * w + c)).
Proof. intros Ht Hi. by apply split_part_shaped. Qed.

Section arithmetic.
Context (self : MultiplicativeLSTMCell) (b n : nat) (c_prev lstm_matrix : Tensor).
Context (Hc : shaped b n (value c_prev)).
Context (Hl : shaped b (4 * n) (value lstm_matrix)).

(** The four gate pre-activations at row [r], unit [k]. *)
Definition gate_i (r k : nat) : R := entry (value lstm_matrix) r k.
Definition gate_j (r k : nat) : R := entry (value lstm_matrix) r (n + k).
Definition gate_f (r k : nat) : R := entry (value lstm_matrix) r (2 * n + k).
Definition gate_o (r k : nat) : R := entry (value lstm_matrix) r (3 * n + k).

Lemma cell_update_plain :
  has_entries b n (value (cell_update self None c_prev lstm_matrix))
    (fun r k =>
       (entry (value c_prev) r k * sigmoid (gate_f r k + forget_bias self)
        + sigmoid (gate_i r k) * gate_j r k)%R).
Proof.
  unfold cell_update, tf_add, tf_multiply, tf_sigmoid, tf_binary, tf_unary,
    tf_constant. cbn [value].
  eapply he_ext.
  - apply he_broadcast.
    + apply he_broadcast; [by apply he_self|].
      apply he_mmap. apply he_scalar_r. apply (he_split 4 2); [done|lia].
    + apply he_broadcast.
      * apply he_mmap. apply (he_split 4 0); [done|lia].
      * apply (he_split 4 1); [done|lia].
  - intros r k Hr Hk. unfold gate_f, gate_i, gate_j. simpl.
    by rewrite Nat.add_0_r.
Qed.

Lemma cell_update_peephole w_f_diag w_i_diag w_o_diag vf vi :
  value w_f_diag = [vf] -> length vf = n ->
  value w_i_diag = [vi] -> length vi = n ->
  has_entries b n
    (value (cell_update self (Some (w_f_diag, w_i_diag, w_o_diag)) c_prev lstm_matrix))
    (fun r k =>
       (entry (value c_prev) r k
        * sigmoid (gate_f r k + forget_bias self
                   + nth k vf 0 * entry (value c_prev) r k)
        + sigmoid (gate_i r k + nth k vi 0 * entry (value c_prev) r k)
          * gate_j r k)%R).
Proof.
  intros Hf Hlf Hi Hli.
  unfold cell_update, tf_add, tf_multiply, tf_sigmoid, tf_binary, tf_unary,
    tf_constant. cbn [value]. rewrite Hf, Hi.
  eapply he_ext.
  - apply he_broadcast.
    + apply he_broadcast; [by apply he_self|].
      apply he_mmap. apply he_broadcast.
      * apply he_scalar_r. apply (he_split 4 2); [done|lia].
      * apply he_vector_l; [done|by apply he_self].
    + apply he_broadcast.
      * apply he_mmap. apply he_broadcast.
        -- apply (he_split 4 0); [done|lia].
        -- apply he_vector_l; [done|by apply he_self].
      * apply (he_split 4 1); [done|lia].
  - intros r k Hr Hk. unfold gate_f, gate_i, gate_j. simpl.
    by rewrite Nat.add_0_r.
Qed.
End arithmetic.

Section hidden_entries.
Context (self : MultiplicativeLSTMCell) (b n : nat) (c lstm_matrix : Tensor).
Context (ec : nat -> nat -> R).
Context (Hc : has_entries b n (value c) ec).
Context (Hl : shaped b (4 * n) (value lstm_matrix)).

Lemma hidden_plain :
  has_entries b n (value (hidden self None c lstm_matrix))
    (fun r k => activation self (ec r k * gate_o n lstm_matrix r k)%R).
Proof.
  unfold hidden, tf_multiply, tf_binary, tf_unary. cbn [value].
  apply he_mmap. apply he_broadcast; [done|].
  apply (he_split 4 3); [done|lia].
Qed.

Lemma hidden_peephole w_f_diag w_i_diag w_o_diag vo :
  value w_o_diag = [vo] -> length vo = n ->
  has_entries b n
    (value (hidden self (Some (w_f_diag, w_i_diag, w_o_diag)) c lstm_matrix))
    (fun r k =>
       (sigmoid (gate_o n lstm_matrix r k + nth k vo 0 * ec r k)
        * activation self
            (ec r k * (gate_o n lstm_matrix r k + nth k vo 0 * ec r k)))%R).
Proof.
  intros Ho Hlo.
  unfold hidden, tf_add, tf_multiply, tf_sigmoid, tf_binary, tf_unary.
  cbn [value]. rewrite Ho.
  apply he_broadcast.
  - apply he_mmap. apply he_broadcast.
    + apply (he_split 4 3); [done|lia].
    + by apply he_vector_l.
  - apply he_mmap. apply he_broadcast; [done|].
    apply he_broadcast.
    + apply (he_split 4 3); [done|lia].
    + by apply he_vector_l.
Qed.
End hidden_entries.

Lemma clip_cell_entries self b n c ec :
  has_entries b n (value c) ec ->
  has_entries b n (value (clip_cell self c))
    (fun r k => match cell_clip self with
                | Some K => clip (- K) K (ec r k)
                | None => ec r k
                end).
Proof.
  intros Hc. unfold clip_cell. destruct (cell_clip self) as [K|]; [|done].
  unfold tf_clip_by_value, tf_unary. cbn [value]. by apply he_mmap.
Qed.

(** ** Well-shaped invocations *)

Section invocation.
Context (self : MultiplicativeLSTMCell) (scope : option string)
        (vs : VariableScope) (inputs c_prev h_prev : Tensor)
        (st : gmap string matrix) (b : nat).

Let n := num_units self.

(** Every parameter the step reads has the shape it is declared with. *)
Definition parameters_ok : Prop :=
  has_shape [static_width inputs + static_width h_prev; 2 * num_units self]
    (direction_matrix (2 * num_units self) None (multipli_scope scope vs)
       (static_width inputs + static_width h_prev) st) /\
  has_shape [2 * num_units self]
    (scale_vector (2 * num_units self) None (multipli_scope scope vs) st) /\
  has_shape [2 * num_units self]
    (bias_vector (2 * num_units self) 0 None (multipli_scope scope vs) st) /\
  has_shape [static_width inputs + num_units self; 4 * num_units self]
    (direction_matrix (4 * num_units self) None (lstm_scope scope vs)
       (static_width inputs + num_units self) st) /\
  has_shape [4 * num_units self]
    (scale_vector (4 * num_units self) None (lstm_scope scope vs) st) /\
  has_shape [4 * num_units self]
    (bias_vector (4 * num_units self) 0 None (lstm_scope scope vs) st) /\
  (use_peepholes self = true ->
   forall name, name ∈ ["W_F_diag"; "W_I_diag"; "W_O_diag"] ->
     has_shape [num_units self]
       (var_value (cell_scope scope vs) name [num_units self] None st)) /\
  (forall p, num_proj self = Some p ->
     has_shape [num_units self; p]
       (var_value (cell_scope scope vs) "W_P" [num_units self; p] None st)).

(** The run-time values agree with the static widths, over [b] rows. *)
Definition well_shaped : Prop :=
  shaped b (static_width inputs) (value inputs) /\
  shaped b (num_units self) (value c_prev) /\
  shaped b (static_width h_prev) (value h_prev).

Context (Hi : arg_ok inputs = true) (Hh : arg_ok h_prev = true) (Hn : n <> 0).
Context (Hp : parameters_ok) (Hw : well_shaped).

Lemma total_width_pair (x y : Tensor) :
  total_width [x; y] = static_width x + static_width y.
Proof. unfold total_width. simpl. lia. Qed.

Lemma first_linear_shaped :
  shaped b (2 * n) (value (first_linear self scope vs inputs h_prev st)).
Proof.
  destruct Hp as (HM & HS & HB & _). destruct Hw as (Hx & _ & Hhv).
  unfold first_linear. apply linear_value_shaped.
  - by rewrite total_width_pair.
  - done.
  - done.
  - rewrite total_width_pair. destruct (arg_ok_width _ Hi) as [w Hwi].
    unfold static_width at 1. rewrite Hwi. lia.
  - simpl. rewrite length_zip_with. destruct Hx as [-> _], Hhv as [-> _]. lia.
Qed.

(** [m = Wx * Wh], the product of the two halves of the first map. *)
Lemma multiplicative_term_entries :
  has_entries b n
    (value (multiplicative_term (first_linear self scope vs inputs h_prev st)))
    (fun r k =>
       (entry (value (first_linear self scope vs inputs h_prev st)) r k
        * entry (value (first_linear self scope vs inputs h_prev st)) r (n + k))%R).
Proof.
  pose proof first_linear_shaped as Hf.
  unfold multiplicative_term, tf_multiply, tf_binary. cbn [value].
  eapply he_ext.
  - apply he_broadcast; [apply (he_split 2 0)|apply (he_split 2 1)]; done || lia.
  - intros r k Hr Hk. cbv beta. f_equal; f_equal; lia.
Qed.

Lemma store1_lookup_other key :
  key ∉ linear_names None (multipli_scope scope vs) ->
  store1 self scope vs inputs h_prev st !! key = st !! key.
Proof.
  intros Hk. unfold store1, store_after_linear, store_after_scalars.
  rewrite !var_store_lookup_ne; try done; apply not_in_linear_names; try done; in_list.
Qed.

Lemma gates_shaped :
  shaped b (4 * n) (value (gates self scope vs inputs h_prev st)).
Proof.
  destruct Hp as (_ & _ & _ & HM & HS & HB & _). destruct Hw as (Hx & _ & _).
  unfold gates. apply linear_value_shaped.
  - rewrite gate_inputs_width. unfold direction_matrix, var_value.
    rewrite store1_lstm_lookup by in_list. exact HM.
  - unfold scale_vector, var_value. rewrite store1_lstm_lookup by in_list. exact HS.
  - intros _. unfold bias_vector, var_value.
    rewrite store1_lstm_lookup by in_list. exact HB.
  - rewrite gate_inputs_width. fold n. lia.
  - change (length (zip_with app (value inputs)
              (value (multiplicative_term
                        (first_linear self scope vs inputs h_prev st)))) = b).
    rewrite length_zip_with.
    rewrite (shaped_length _ _ _ (proj1 multiplicative_term_entries)).
    rewrite (shaped_length _ _ _ Hx). lia.
Qed.
End invocation.

Lemma store2_lookup_other self scope vs inputs h_prev st key :
  key ∉ linear_names None (multipli_scope scope vs) ->
  key ∉ linear_names None (lstm_scope scope vs) ->
  store2 self scope vs inputs h_prev st !! key = st !! key.
Proof.
  intros H1 H2. unfold store2, store_after_linear, store_after_scalars.
  rewrite !var_store_lookup_ne; [by apply store1_lookup_other|..];
    apply not_in_linear_names; try done; in_list.
Qed.

Lemma cell_name_not_linear scope vs ws name :
  ws ∈ ["Multipli_Weight"; "LSTM_Weight"] ->
  name ∈ ["W_F_diag"; "W_I_diag"; "W_O_diag"; "W_P"] ->
  join_name (vs_name (cell_scope scope vs)) name
    ∉ linear_names None (variable_scope (cell_scope scope vs) ws).
Proof.
  intros Hws Hname Hin. unfold linear_names in Hin.
  apply list_elem_of_fmap in Hin as (a & Ha & Hain).
  by eapply cell_names_differ.
Qed.

Lemma store2_cell_value self scope vs inputs h_prev st name shape :
  name ∈ ["W_F_diag"; "W_I_diag"; "W_O_diag"; "W_P"] ->
  var_value (cell_scope scope vs) name shape None
    (store2 self scope vs inputs h_prev st)
  = var_value (cell_scope scope vs) name shape None st.
Proof.
  intros Hname. unfold var_value. rewrite store2_lookup_other; [done|..].
  - apply (cell_name_not_linear scope vs "Multipli_Weight"); [in_list|done].
  - apply (cell_name_not_linear scope vs "LSTM_Weight"); [in_list|done].
Qed.

(** ** The transition, entry by entry *)

(** The peephole weight of unit [k]. *)
Definition peephole_weight (self : MultiplicativeLSTMCell) (scope : option string)
    (vs : VariableScope) (st : gmap string matrix) (name : string) (k : nat) : R :=
  nth k (hd [] (var_value (cell_scope scope vs) name [num_units self] None st)) 0%R.

(** Steps 4 and 5 of the transition for one entry: the gated update of the
    cell state, then the clip. *)
Definition new_cell_entry (self : MultiplicativeLSTMCell)
    (w_f_diag w_i_diag c_prev i j f : R) : R :=
  let c :=
    if use_peepholes self
    then (c_prev * sigmoid (f + forget_bias self + w_f_diag * c_prev)
          + sigmoid (i + w_i_diag * c_prev) * j)%R
    else (c_prev * sigmoid (f + forget_bias self) + sigmoid i * j)%R in
  match cell_clip self with
  | Some K => clip (- K) K c
  | None => c
  end.

(** Step 6 for one entry: the hidden state before any projection. *)
Definition new_hidden_entry (self : MultiplicativeLSTMCell)
    (w_o_diag c o : R) : R :=
  if use_peepholes self
  then (sigmoid (o + w_o_diag * c) * activation self (c * (o + w_o_diag * c)))%R
  else activation self (c * o)%R.

Section transition.
Context (self : MultiplicativeLSTMCell) (scope : option string)
        (vs : VariableScope) (inputs c_prev h_prev : Tensor)
        (st : gmap string matrix) (b : nat).
Context (Hi : arg_ok inputs = true) (Hh : arg_ok h_prev = true)
        (Hn : num_units self <> 0).
Context (Hp : parameters_ok self scope vs inputs h_prev st)
        (Hw : well_shaped self inputs c_prev h_prev b).

Let lstm_matrix := gates self scope vs inputs h_prev st.
Let st2 := store2 self scope vs inputs h_prev st.
Let n := num_units self.

Lemma peephole_vector name :
  use_peepholes self = true ->
  name ∈ ["W_F_diag"; "W_I_diag"; "W_O_diag"] ->
  exists v, value (peephole self scope vs name st2) = [v] /\ length v = n /\
            forall k, peephole_weight self scope vs st name k = nth k v 0%R.
Proof.
  intros Hpeep Hname. destruct Hp as (_ & _ & _ & _ & _ & _ & Hd & _).
  destruct (Hd Hpeep name Hname) as (v & Hv & Hlen).
  exists v. unfold peephole. cbn [value]. unfold st2.
  rewrite store2_cell_value.
  - split; [done|]. split; [done|]. intros k. unfold peephole_weight. by rewrite Hv.
  - repeat (apply elem_of_cons in Hname as [->|Hname]); try in_list.
    by apply elem_of_nil in Hname.
Qed.

(** The cell state the step returns. *)
Lemma new_cell_entries :
  has_entries b n
    (value (clip_cell self
              (cell_update self (diagonals self scope vs st2) c_prev lstm_matrix)))
    (fun r k =>
       new_cell_entry self
         (peephole_weight self scope vs st "W_F_diag" k)
         (peephole_weight self scope vs st "W_I_diag" k)
         (entry (value c_prev) r k)
         (gate_i lstm_matrix r k) (gate_j n lstm_matrix r k)
         (gate_f n lstm_matrix r k)).
Proof.
  assert (Hl : shaped b (4 * n) (value lstm_matrix))
    by (eapply gates_shaped; eassumption).
  destruct Hw as (_ & Hc & _).
  unfold new_cell_entry, diagonals.
  destruct (use_peepholes self) eqn:Hpeep.
  - destruct (peephole_vector "W_F_diag" Hpeep) as (vf & Hvf & Hlf & Hwf); [in_list|].
    destruct (peephole_vector "W_I_diag" Hpeep) as (vi & Hvi & Hli & Hwi); [in_list|].
    eapply he_ext.
    + apply clip_cell_entries. by eapply cell_update_peephole.
    + intros r k Hr Hk. cbv beta. by rewrite Hwf, Hwi.
  - eapply he_ext.
    + apply clip_cell_entries. by eapply cell_update_plain.
    + intros r k Hr Hk. reflexivity.
Qed.

(** The hidden state before projection, computed from the returned cell
    state [c]. *)
Lemma new_hidden_entries :
  let c := clip_cell self
             (cell_update self (diagonals self scope vs st2) c_prev lstm_matrix) in
  has_entries b n
    (value (hidden self (diagonals self scope vs st2) c lstm_matrix))
    (fun r k =>
       new_hidden_entry self
         (peephole_weight self scope vs st "W_O_diag" k)
         (entry (value c) r k) (gate_o n lstm_matrix r k)).
Proof.
  intros c.
  assert (Hl : shaped b (4 * n) (value lstm_matrix))
    by (eapply gates_shaped; eassumption).
  assert (Hc : has_entries b n (value c) (entry (value c)))
    by (apply he_self; exact (proj1 new_cell_entries)).
  unfold new_hidden_entry, diagonals.
  destruct (use_peepholes self) eqn:Hpeep.
  - destruct (peephole_vector "W_O_diag" Hpeep) as (vo & Hvo & Hlo & Hwo); [in_list|].
    eapply he_ext.
    + by eapply hidden_peephole.
    + intros r k Hr Hk. cbv beta. by rewrite Hwo.
  - by apply hidden_plain.
Qed.
End transition.

(** The two linear maps of an accepted, finite step. *)
Lemma linear_calls_return self scope vs inputs h_prev st :
  arg_ok inputs = true -> arg_ok h_prev = true -> num_units self <> 0 ->
  norms_nonzero (multipli_matrix self scope vs inputs h_prev st) ->
  norms_nonzero (lstm_matrix_weights self scope vs inputs h_prev st) ->
  _linear (ArgsList [inputs; h_prev]) (2 * num_units self) true 0 None
    (multipli_scope scope vs) st
  = (Returned (first_linear self scope vs inputs h_prev st),
     store1 self scope vs inputs h_prev st) /\
  _linear (ArgsList [inputs;
                     multiplicative_term (first_linear self scope vs inputs h_prev st)])
    (4 * num_units self) true 0 None (lstm_scope scope vs)
    (store1 self scope vs inputs h_prev st)
  = (Returned (gates self scope vs inputs h_prev st),
     store2 self scope vs inputs h_prev st).
Proof.
  intros Hi Hh Hn H1 H2. split.
  - apply linear_outcome; [done| |exact H1].
    constructor; [done|]. constructor; [done|]. constructor.
  - apply (linear_outcome (4 * num_units self) true 0 None (lstm_scope scope vs)
             (gate_inputs self scope vs inputs h_prev st)); [done| |exact H2].
    by apply gate_inputs_ok.
Qed.

(** C1: the step computes the new cell state as specified.  [Wx] and [Wh]
    are the two halves of the linear map of [[x, h_prev]] to [2 * num_units]
    columns with bias, [m] is their elementwise product, [i, j, f, o] are
    the four quarters of the linear map of [[x, m]] to [4 * num_units]
    columns with bias, and every entry of the returned cell state is
    [c_prev * sigmoid(f + forget_bias + w_f_diag * c_prev)
     + sigmoid(i + w_i_diag * c_prev) * j] with peepholes and
    [c_prev * sigmoid(f + forget_bias) + sigmoid(i) * j] without, clipped
    when a cell clip is set. *)
Theorem cell_state_transition self scope vs inputs state st c_prev h_prev b :
  unpack_state self state = Returned (c_prev, h_prev) ->
  arg_ok inputs = true -> arg_ok h_prev = true -> num_units self <> 0 ->
  parameters_ok self scope vs inputs h_prev st ->
  well_shaped self inputs c_prev h_prev b ->
  norms_nonzero (multipli_matrix self scope vs inputs h_prev st) ->
  norms_nonzero (lstm_matrix_weights self scope vs inputs h_prev st) ->
  exists concat st1 m lstm_matrix st2 h c st',
    _linear (ArgsList [inputs; h_prev]) (2 * num_units self) true 0 None
      (multipli_scope scope vs) st = (Returned concat, st1) /\
    has_entries b (num_units self) (value m)
      (fun r k => (entry (value concat) r k
                   * entry (value concat) r (num_units self + k))%R) /\
    _linear (ArgsList [inputs; m]) (4 * num_units self) true 0 None
      (lstm_scope scope vs) st1 = (Returned lstm_matrix, st2) /\
    __call__ self inputs state scope vs st
      = (Returned (h, pack_state self c h), st') /\
    has_entries b (num_units self) (value c)
      (fun r k =>
         new_cell_entry self
           (peephole_weight self scope vs st "W_F_diag" k)
           (peephole_weight self scope vs st "W_I_diag" k)
           (entry (value c_prev) r k)
           (entry (value lstm_matrix) r k)
           (entry (value lstm_matrix) r (num_units self + k))
           (entry (value lstm_matrix) r (2 * num_units self + k))).
Proof.
  intros Hu Hi Hh Hn Hp Hw H1 H2.
  destruct (linear_calls_return self scope vs inputs h_prev st Hi Hh Hn H1 H2)
    as [E1 E2].
  eexists _, _, _, _, _, _, _, _.
  split; [exact E1|]. split; [by eapply multiplicative_term_entries|].
  split; [exact E2|]. split.
  - rewrite (call_returns self scope vs inputs c_prev h_prev st state
               Hu Hi Hh Hn H1 H2). reflexivity.
  - by eapply new_cell_entries.
Qed.

(** C2: the hidden state is computed from the returned (clipped) cell
    state [c] and the raw output-gate value [o]: every entry is
    [sigmoid(o + w_o_diag * c) * activation(c * (o + w_o_diag * c))] with
    peepholes and [activation(c * o)] without; the output is this hidden
    state, projected when a projection is configured. *)
Theorem hidden_state_transition self scope vs inputs state st c_prev h_prev b :
  unpack_state self state = Returned (c_prev, h_prev) ->
  arg_ok inputs = true -> arg_ok h_prev = true -> num_units self <> 0 ->
  parameters_ok self scope vs inputs h_prev st ->
  well_shaped self inputs c_prev h_prev b ->
  norms_nonzero (multipli_matrix self scope vs inputs h_prev st) ->
  norms_nonzero (lstm_matrix_weights self scope vs inputs h_prev st) ->
  exists lstm_matrix st2 h_pre h c st',
    _linear (ArgsList [inputs;
                       multiplicative_term (first_linear self scope vs inputs h_prev st)])
      (4 * num_units self) true 0 None (lstm_scope scope vs)
      (store1 self scope vs inputs h_prev st) = (Returned lstm_matrix, st2) /\
    __call__ self inputs state scope vs st
      = (Returned (h, pack_state self c h), st') /\
    has_entries b (num_units self) (value h_pre)
      (fun r k =>
         new_hidden_entry self
           (peephole_weight self scope vs st "W_O_diag" k)
           (entry (value c) r k)
           (entry (value lstm_matrix) r (3 * num_units self + k))) /\
    h = project self scope vs st2 h_pre /\
    (num_proj self = None -> h = h_pre).
Proof.
  intros Hu Hi Hh Hn Hp Hw H1 H2.
  eexists _, _, _, _, _, _.
  split; [exact (proj2 (linear_calls_return self scope vs inputs h_prev st
                          Hi Hh Hn H1 H2))|].
  split.
  - rewrite (call_returns self scope vs inputs c_prev h_prev st state
               Hu Hi Hh Hn H1 H2). reflexivity.
  - split; [by eapply new_hidden_entries|]. split; [reflexivity|].
    intros Hnone. unfold project. by rewrite Hnone.
Qed.

(** ** Fresh stores *)

Lemma constant_initializer_shape x shape :
  has_shape shape (constant_initializer x shape).
Proof.
  destruct shape as [|m [|n [|? ?]]]; simpl; try done.
  - eexists. split; [done|]. apply length_replicate.
  - split; [apply length_replicate|]. apply Forall_replicate, length_replicate.
Qed.

(** On a fresh store every parameter is what its initializer makes it, so
    with an initializer that respects the shape it is asked for the
    parameters have their declared shapes. *)
Lemma parameters_ok_fresh self scope vs inputs h_prev :
  (forall shape, has_shape shape (vs_initializer vs shape)) ->
  parameters_ok self scope vs inputs h_prev ∅.
Proof.
  intros Hinit. unfold parameters_ok, direction_matrix, scale_vector, bias_vector.
  rewrite !var_value_empty. cbn [default from_option id].
  split; [apply Hinit|]. split; [apply constant_initializer_shape|].
  split; [apply constant_initializer_shape|].
  split; [apply Hinit|]. split; [apply constant_initializer_shape|].
  split; [apply constant_initializer_shape|]. split.
  - intros _ name _. rewrite var_value_empty. apply Hinit.
  - intros p _. rewrite var_value_empty. apply Hinit.
Qed.

Lemma example_parameters_ok self :
  parameters_ok self None ones_scope example_input zero_state_part ∅.
Proof. apply parameters_ok_fresh. intros shape. apply constant_initializer_shape. Qed.

Lemma example_well_shaped self :
  num_units self = 1 ->
  well_shaped self example_input zero_state_part zero_state_part 1.
Proof.
  intros Hn. unfold well_shaped. rewrite Hn.
  split; [|split]; (split; [reflexivity|repeat constructor]).
Qed.

Lemma cell_state_transition_witness :
  exists concat st1 m lstm_matrix st2 h c st',
    _linear (ArgsList [example_input; zero_state_part]) (2 * num_units clipped_cell)
      true 0 None (multipli_scope None ones_scope) ∅ = (Returned concat, st1) /\
    has_entries 1 (num_units clipped_cell) (value m)
      (fun r k => (entry (value concat) r k
                   * entry (value concat) r (num_units clipped_cell + k))%R) /\
    _linear (ArgsList [example_input; m]) (4 * num_units clipped_cell) true 0 None
      (lstm_scope None ones_scope) st1 = (Returned lstm_matrix, st2) /\
    __call__ clipped_cell example_input example_state None ones_scope ∅
      = (Returned (h, pack_state clipped_cell c h), st') /\
    has_entries 1 (num_units clipped_cell) (value c)
      (fun r k =>
         new_cell_entry clipped_cell
           (peephole_weight clipped_cell None ones_scope ∅ "W_F_diag" k)
           (peephole_weight clipped_cell None ones_scope ∅ "W_I_diag" k)
           (entry (value zero_state_part) r k)
           (entry (value lstm_matrix) r k)
           (entry (value lstm_matrix) r (num_units clipped_cell + k))
           (entry (value lstm_matrix) r (2 * num_units clipped_cell + k))).
Proof.
  exact (cell_state_transition clipped_cell None ones_scope example_input
           example_state ∅ zero_state_part zero_state_part 1
           (example_unpack clipped_cell eq_refl) eq_refl eq_refl
           (example_units_nonzero clipped_cell eq_refl)
           (example_parameters_ok clipped_cell)
           (example_well_shaped clipped_cell eq_refl)
           (example_norms_multipli clipped_cell eq_refl)
           (example_norms_lstm clipped_cell eq_refl)).
Defined.

Lemma hidden_state_transition_witness :
  exists lstm_matrix st2 h_pre h c st',
    _linear (ArgsList [example_input;
                       multiplicative_term
                         (first_linear clipped_cell None ones_scope example_input
                            zero_state_part ∅)])
      (4 * num_units clipped_cell) true 0 None (lstm_scope None ones_scope)
      (store1 clipped_cell None ones_scope example_input zero_state_part ∅)
      = (Returned lstm_matrix, st2) /\
    __call__ clipped_cell example_input example_state None ones_scope ∅
      = (Returned (h, pack_state clipped_cell c h), st') /\
    has_entries 1 (num_units clipped_cell) (value h_pre)
      (fun r k =>
         new_hidden_entry clipped_cell
           (peephole_weight clipped_cell None ones_scope ∅ "W_O_diag" k)
           (entry (value c) r k)
           (entry (value lstm_matrix) r (3 * num_units clipped_cell + k))) /\
    h = project clipped_cell None ones_scope st2 h_pre /\
    (num_proj clipped_cell = None -> h = h_pre).
Proof.
  exact (hidden_state_transition clipped_cell None ones_scope example_input
           example_state ∅ zero_state_part zero_state_part 1
           (example_unpack clipped_cell eq_refl) eq_refl eq_refl
           (example_units_nonzero clipped_cell eq_refl)
           (example_parameters_ok clipped_cell)
           (example_well_shaped clipped_cell eq_refl)
           (example_norms_multipli clipped_cell eq_refl)
           (example_norms_lstm clipped_cell eq_refl)).
Defined.

(** The output equation is not the canonical [sigmoid(o) * tanh(c)]: at
    [c = 1], [o = 0] the cell without peepholes yields [tanh(1 * 0) = 0],
    the canonical equation a positive number. *)
Example output_not_canonical :
  new_hidden_entry example_cell 0 1 0 = 0%R /\
  (0 < sigmoid 0 * tanh 1)%R.
Proof.
  split.
  - unfold new_hidden_entry. cbn [use_peepholes activation example_cell __init__ truthy].
    rewrite Rmult_0_r. unfold tanh. rewrite sinh_0. unfold Rdiv. apply Rmult_0_l.
  - apply Rmult_lt_0_compat.
    + unfold sigmoid. rewrite Ropp_0, exp_0. lra.
    + unfold tanh, sinh, cosh. pose proof (exp_pos 1) as H1.
      pose proof (exp_pos (Ropp 1)) as H2.
      assert (H3 : (exp (Ropp 1) < exp 1)%R) by (apply exp_increasing; lra).
      apply Rdiv_lt_0_compat; lra.
Qed.

(** ** The shape of the state *)

(** A state of [b] rows has the declared size. *)
Definition state_matches (b : nat) (size : StateSize) (s : State) : Prop :=
  match size, s with
  | LSTMStateTupleSize cw hw, LSTMStateTuple c h =>
      shaped b cw (value c) /\ shaped b hw (value h)
  | FlatSize w, FlatState t => shaped b w (value t)
  | _, _ => False
  end.

Lemma project_shaped self scope vs inputs h_prev st b h_pre :
  num_units self <> 0 ->
  parameters_ok self scope vs inputs h_prev st ->
  shaped b (num_units self) (value h_pre) ->
  shaped b (projection_size self)
    (value (project self scope vs (store2 self scope vs inputs h_prev st) h_pre)).
Proof.
  intros Hn Hp Hh. unfold project, projection_size.
  destruct (num_proj self) as [p|] eqn:Hproj; [|exact Hh].
  destruct Hp as (_ & _ & _ & _ & _ & _ & _ & HP). specialize (HP p Hproj).
  simpl in HP. cbn [default from_option id].
  assert (Hm : shaped b p
            (value (tf_matmul h_pre
                      (projection_matrix self scope vs
                         (store2 self scope vs inputs h_prev st))))).
  { unfold tf_matmul, projection_matrix, projection_size. cbn [value].
    rewrite Hproj. cbn [default from_option id].
    rewrite store2_cell_value by in_list.
    pose proof (matmul_shaped b (value h_pre)
                  (var_value (cell_scope scope vs) "W_P" [num_units self; p] None st)
                  (shaped_length _ _ _ Hh)) as Hmm.
    by rewrite (shaped_ncols _ _ _ HP Hn) in Hmm. }
  destruct (proj_clip self) as [K|]; [|exact Hm].
  unfold tf_clip_by_value, tf_unary. cbn [value]. by apply shaped_mmap.
Qed.

Lemma pack_state_matches self b c h cw hw :
  shaped b cw (value c) -> shaped b hw (value h) ->
  state_matches b
    (if state_is_tuple self then LSTMStateTupleSize cw hw else FlatSize (cw + hw))
    (pack_state self c h).
Proof.
  intros Hc Hh. unfold pack_state. destruct (state_is_tuple self); simpl.
  - by split.
  - by apply (concat1_pair_shaped b cw hw).
Qed.

(** The widths of what an accepted, finite, well-shaped step returns. *)
Lemma call_shapes self scope vs inputs state st c_prev h_prev b :
  unpack_state self state = Returned (c_prev, h_prev) ->
  arg_ok inputs = true -> arg_ok h_prev = true -> num_units self <> 0 ->
  parameters_ok self scope vs inputs h_prev st ->
  well_shaped self inputs c_prev h_prev b ->
  norms_nonzero (multipli_matrix self scope vs inputs h_prev st) ->
  norms_nonzero (lstm_matrix_weights self scope vs inputs h_prev st) ->
  exists h c st',
    __call__ self inputs state scope vs st = (Returned (h, pack_state self c h), st') /\
    shaped b (num_units self) (value c) /\
    shaped b (projection_size self) (value h).
Proof.
  intros Hu Hi Hh Hn Hp Hw H1 H2.
  rewrite (call_returns self scope vs inputs c_prev h_prev st state Hu Hi Hh Hn H1 H2).
  unfold step_result. eexists _, _, _. split; [reflexivity|]. split.
  - exact (proj1 (new_cell_entries self scope vs inputs c_prev h_prev st b Hi Hn Hp Hw)).
  - eapply project_shaped; [done|done|].
    exact (proj1 (new_hidden_entries self scope vs inputs c_prev h_prev st b Hi Hn Hp Hw)).
Qed.

Lemma init_fields num_units0 use_peepholes0 cell_clip0 initializer0 num_proj0 proj_clip0
    forget_bias0 state_is_tuple0 activation0 :
  let self := __init__ num_units0 use_peepholes0 cell_clip0 initializer0 num_proj0
                proj_clip0 forget_bias0 state_is_tuple0 activation0 in
  num_units self = num_units0 /\ num_proj self = num_proj0 /\
  state_is_tuple self = state_is_tuple0 /\
  (num_proj0 <> Some 0 ->
   output_size self = default num_units0 num_proj0 /\
   state_size self =
     if state_is_tuple0
     then LSTMStateTupleSize num_units0 (default num_units0 num_proj0)
     else FlatSize (num_units0 + default num_units0 num_proj0)).
Proof.
  intros self. unfold self, __init__.
  destruct num_proj0 as [[|p]|]; cbn;
    (split; [done|]; split; [done|]; split; [done|]); intros H; try done.
  all: split; [done|]; destruct state_is_tuple0; [done|]; f_equal; lia.
Qed.

(** C5: for a valid configuration (a positive unit count, and a positive
    projection size when there is one) and a well-shaped invocation, the
    returned cell state has [num_units] columns, the returned output, which
    is the returned hidden state, has [num_proj] columns when a projection
    is configured and [num_units] otherwise, and the packaged new state,
    pair or concatenation, has the declared [state_size]. *)
Theorem state_shape_invariant n peep cclip init proj pclip fb tuple act
    scope vs inputs state st c_prev h_prev b :
  let self := __init__ n peep cclip init proj pclip fb tuple act in
  n <> 0 -> proj <> Some 0 ->
  unpack_state self state = Returned (c_prev, h_prev) ->
  arg_ok inputs = true -> arg_ok h_prev = true ->
  parameters_ok self scope vs inputs h_prev st ->
  well_shaped self inputs c_prev h_prev b ->
  norms_nonzero (multipli_matrix self scope vs inputs h_prev st) ->
  norms_nonzero (lstm_matrix_weights self scope vs inputs h_prev st) ->
  exists h c st',
    __call__ self inputs state scope vs st = (Returned (h, pack_state self c h), st') /\
    shaped b n (value c) /\
    shaped b (output_size self) (value h) /\
    output_size self = default n proj /\
    state_matches b (state_size self) (pack_state self c h).
Proof.
  intros self Hn Hproj Hu Hi Hh Hp Hw H1 H2.
  destruct (init_fields n peep cclip init proj pclip fb tuple act)
    as (En & Ep & Et & Hrest).
  fold self in En, Ep, Et, Hrest. destruct (Hrest Hproj) as [Eout Esize].
  assert (Hn' : num_units self <> 0) by (by rewrite En).
  destruct (call_shapes self scope vs inputs state st c_prev h_prev b
              Hu Hi Hh Hn' Hp Hw H1 H2) as (h & c & st' & Hcall & Hc & Hhs).
  unfold projection_size in Hhs. rewrite En in Hc. rewrite En, Ep in Hhs.
  exists h, c, st'. split; [exact Hcall|]. split; [exact Hc|].
  rewrite Eout. split; [exact Hhs|]. split; [reflexivity|].
  rewrite Esize, <- Et. by apply pack_state_matches.
Qed.

Lemma state_shape_invariant_witness :
  exists h c st',
    __call__ clipped_cell example_input example_state None ones_scope ∅
      = (Returned (h, pack_state clipped_cell c h), st') /\
    shaped 1 1 (value c) /\
    shaped 1 (output_size clipped_cell) (value h) /\
    output_size clipped_cell = default 1 (Some 1) /\
    state_matches 1 (state_size clipped_cell) (pack_state clipped_cell c h).
Proof.
  refine (state_shape_invariant 1 true (Some 1%R) (constant_initializer 5) (Some 1)
            (Some 1%R) 1 true tanh None ones_scope example_input example_state ∅
            zero_state_part zero_state_part 1 _ _
            (example_unpack clipped_cell eq_refl) eq_refl eq_refl
            (example_parameters_ok clipped_cell)
            (example_well_shaped clipped_cell eq_refl)
            (example_norms_multipli clipped_cell eq_refl)
            (example_norms_lstm clipped_cell eq_refl)).
  - lia.
  - discriminate.
Defined.

(** ** Peepholes disabled *)

Section no_peepholes.
Context (self : MultiplicativeLSTMCell) (scope : option string) (vs : VariableScope).
Context (Hpeep : use_peepholes self = false).
Context (name : string) (Hname : name ∈ ["W_F_diag"; "W_I_diag"; "W_O_diag"]).

Let key := join_name (vs_name (cell_scope scope vs)) name.

Lemma peephole_name_cell : name ∈ ["W_F_diag"; "W_I_diag"; "W_O_diag"; "W_P"].
Proof.
  pose proof Hname as H.
  repeat (apply elem_of_cons in H as [->|H]); try in_list.
  by apply elem_of_nil in H.
Qed.

Lemma peephole_key_not_multipli : key ∉ linear_names None (multipli_scope scope vs).
Proof.
  apply (cell_name_not_linear scope vs "Multipli_Weight"); [in_list|].
  apply peephole_name_cell.
Qed.

Lemma peephole_key_not_lstm : key ∉ linear_names None (lstm_scope scope vs).
Proof.
  apply (cell_name_not_linear scope vs "LSTM_Weight"); [in_list|].
  apply peephole_name_cell.
Qed.

Lemma peephole_key_not_projection :
  key <> join_name (vs_name (cell_scope scope vs)) "W_P".
Proof.
  apply join_name_ne. pose proof Hname as H.
  repeat (apply elem_of_cons in H as [->|H]); try done.
  by apply elem_of_nil in H.
Qed.

(** The step leaves the peephole names of the store as they were: what
    was absent stays absent. *)
Lemma call_peephole_lookup inputs state st :
  (__call__ self inputs state scope vs st).2 !! key = st !! key.
Proof.
  rewrite call_eq.
  destruct (unpack_state self state) as [[c_prev h_prev]| |]; try done.
  destruct (with_rank_2_dim_1 (get_shape inputs)) as [[w|]| |]; try done.
  pose proof (linear_store_lookup (ArgsList [inputs; h_prev]) (2 * num_units self)
                true 0 None (multipli_scope scope vs) st key
                peephole_key_not_multipli) as H1.
  unfold multipli_scope in H1.
  destruct (_linear (ArgsList [inputs; h_prev]) _ _ _ _ _ st)
    as [[concat| |] st1]; cbn [snd] in H1 |- *; try done.
  pose proof (linear_store_lookup
                (ArgsList [inputs; multiplicative_term concat])
                (4 * num_units self) true 0 None (lstm_scope scope vs) st1 key
                peephole_key_not_lstm) as H2.
  unfold lstm_scope in H2.
  destruct (_linear (ArgsList [inputs; multiplicative_term concat]) _ _ _ _ _ st1)
    as [[lstm_matrix| |] st2]; cbn [snd] in H2 |- *; try congruence.
  unfold step_store, store_after_diagonals, store_after_projection.
  rewrite Hpeep. destruct (num_proj self); [|congruence].
  rewrite var_store_lookup_ne by apply peephole_key_not_projection. congruence.
Qed.

(** Whatever value a peephole name holds in the store, the outcome of
    the step is the same. *)
Lemma call_peephole_frame inputs state st v :
  (__call__ self inputs state scope vs (<[key := v]> st)).1
  = (__call__ self inputs state scope vs st).1.
Proof.
  rewrite !call_eq.
  destruct (unpack_state self state) as [[c_prev h_prev]| |]; try done.
  destruct (with_rank_2_dim_1 (get_shape inputs)) as [[w|]| |]; try done.
  pose proof (linear_insert_frame (ArgsList [inputs; h_prev]) (2 * num_units self)
                true 0 None (multipli_scope scope vs) st key v
                peephole_key_not_multipli) as H1.
  unfold multipli_scope in H1. rewrite H1. clear H1.
  destruct (_linear (ArgsList [inputs; h_prev]) _ _ _ _ _ st)
    as [[concat| |] st1]; cbn [fst snd]; try done.
  pose proof (linear_insert_frame
                (ArgsList [inputs; multiplicative_term concat])
                (4 * num_units self) true 0 None (lstm_scope scope vs) st1 key v
                peephole_key_not_lstm) as H2.
  unfold lstm_scope in H2. rewrite H2. clear H2.
  destruct (_linear (ArgsList [inputs; multiplicative_term concat]) _ _ _ _ _ st1)
    as [[lstm_matrix| |] st2]; cbn [fst snd]; try done.
  f_equal. unfold step_result, diagonals, project, projection_matrix.
  rewrite Hpeep.
  rewrite var_value_insert by apply peephole_key_not_projection. reflexivity.
Qed.
End no_peepholes.

(** C8: with peepholes disabled the step creates none of the peephole
    parameters [W_F_diag], [W_I_diag], [W_O_diag] (their names hold after
    the step what they held before, nothing when they were absent), its
    outcome does not depend on any value stored under those names, and the
    state it returns is the plain update
    [c = c_prev * sigmoid(f + forget_bias) + sigmoid(i) * j] (clipped when a
    cell clip is set), [h = activation(c * o)] (projected when a projection
    is configured). *)
Theorem peepholes_disabled self scope vs inputs state st :
  use_peepholes self = false ->
  (forall name, name ∈ ["W_F_diag"; "W_I_diag"; "W_O_diag"] ->
     (__call__ self inputs state scope vs st).2
       !! join_name (vs_name (cell_scope scope vs)) name
     = st !! join_name (vs_name (cell_scope scope vs)) name) /\
  (forall name v, name ∈ ["W_F_diag"; "W_I_diag"; "W_O_diag"] ->
     (__call__ self inputs state scope vs
        (<[join_name (vs_name (cell_scope scope vs)) name := v]> st)).1
     = (__call__ self inputs state scope vs st).1) /\
  (forall c_prev h_prev b,
     unpack_state self state = Returned (c_prev, h_prev) ->
     arg_ok inputs = true -> arg_ok h_prev = true -> num_units self <> 0 ->
     parameters_ok self scope vs inputs h_prev st ->
     well_shaped self inputs c_prev h_prev b ->
     norms_nonzero (multipli_matrix self scope vs inputs h_prev st) ->
     norms_nonzero (lstm_matrix_weights self scope vs inputs h_prev st) ->
     exists lstm_matrix st2 h_pre h c st',
       _linear (ArgsList [inputs;
                          multiplicative_term
                            (first_linear self scope vs inputs h_prev st)])
         (4 * num_units self) true 0 None (lstm_scope scope vs)
         (store1 self scope vs inputs h_prev st) = (Returned lstm_matrix, st2) /\
       __call__ self inputs state scope vs st
         = (Returned (h, pack_state self c h), st') /\
       has_entries b (num_units self) (value c)
         (fun r k =>
            let u := (entry (value c_prev) r k
                      * sigmoid (entry (value lstm_matrix) r (2 * num_units self + k)
                                 + forget_bias self)
                      + sigmoid (entry (value lstm_matrix) r k)
                        * entry (value lstm_matrix) r (num_units self + k))%R in
            match cell_clip self with
            | Some K => clip (- K) K u
            | None => u
            end) /\
       has_entries b (num_units self) (value h_pre)
         (fun r k =>
            activation self
              (entry (value c) r k
               * entry (value lstm_matrix) r (3 * num_units self + k))%R) /\
       h = project self scope vs st2 h_pre).
Proof.
  intros Hpeep. split; [|split].
  - intros name Hname. by apply call_peephole_lookup.
  - intros name v Hname. by apply call_peephole_frame.
  - intros c_prev h_prev b Hu Hi Hh Hn Hp Hw H1 H2.
    eexists _, _, _, _, _, _.
    split; [exact (proj2 (linear_calls_return self scope vs inputs h_prev st
                            Hi Hh Hn H1 H2))|].
    split.
    { rewrite (call_returns self scope vs inputs c_prev h_prev st state
                 Hu Hi Hh Hn H1 H2). reflexivity. }
    split; [|split; [|reflexivity]].
    + eapply he_ext.
      * by eapply new_cell_entries.
      * intros r k Hr Hk. unfold new_cell_entry. rewrite Hpeep. reflexivity.
    + eapply he_ext.
      * by eapply new_hidden_entries.
      * intros r k Hr Hk. unfold new_hidden_entry. rewrite Hpeep. reflexivity.
Qed.

Lemma peepholes_disabled_witness :
  (forall name, name ∈ ["W_F_diag"; "W_I_diag"; "W_O_diag"] ->
     (__call__ example_cell example_input example_state None ones_scope ∅).2
       !! join_name (vs_name (cell_scope None ones_scope)) name
     = (∅ : gmap string matrix) !! join_name (vs_name (cell_scope None ones_scope)) name) /\
  exists lstm_matrix st2 h_pre h c st',
    _linear (ArgsList [example_input;
                       multiplicative_term
                         (first_linear example_cell None ones_scope example_input
                            zero_state_part ∅)])
      (4 * num_units example_cell) true 0 None (lstm_scope None ones_scope)
      (store1 example_cell None ones_scope example_input zero_state_part ∅)
      = (Returned lstm_matrix, st2) /\
    __call__ example_cell example_input example_state None ones_scope ∅
      = (Returned (h, pack_state example_cell c h), st') /\
    has_entries 1 (num_units example_cell) (value c)
      (fun r k =>
         let u := (entry (value zero_state_part) r k
                   * sigmoid (entry (value lstm_matrix) r (2 * num_units example_cell + k)
                              + forget_bias example_cell)
                   + sigmoid (entry (value lstm_matrix) r k)
                     * entry (value lstm_matrix) r (num_units example_cell + k))%R in
         match cell_clip example_cell with
         | Some K => clip (- K) K u
         | None => u
         end) /\
    has_entries 1 (num_units example_cell) (value h_pre)
      (fun r k =>
         activation example_cell
           (entry (value c) r k
            * entry (value lstm_matrix) r (3 * num_units example_cell + k))%R) /\
    h = project example_cell None ones_scope st2 h_pre.
Proof.
  destruct (peepholes_disabled example_cell None ones_scope example_input
              example_state ∅ eq_refl) as (Ha & _ & Hc).
  split; [exact Ha|].
  exact (Hc zero_state_part zero_state_part 1
           (example_unpack example_cell eq_refl) eq_refl eq_refl
           (example_units_nonzero example_cell eq_refl)
           (example_parameters_ok example_cell)
           (example_well_shaped example_cell eq_refl)
           (example_norms_multipli example_cell eq_refl)
           (example_norms_lstm example_cell eq_refl)).
Defined.

(** ** Rows of the orthogonal initializer *)

Definition scale_matrix (s : R) (q : matrix) : matrix :=
  mmap (fun x => (s * x)%R) q.

Lemma dot_scale s u v :
  dot ((fun x => (s * x)%R) <$> u) ((fun x => (s * x)%R) <$> v)
  = (s * s * dot u v)%R.
Proof.
  unfold dot. revert v. induction u as [|x u IH]; intros [|y v]; simpl; try ring.
  rewrite IH. ring.
Qed.

Lemma nth_scale s k (row : list R) :
  nth k ((fun x => (s * x)%R) <$> row) 0%R = (s * nth k row 0)%R.
Proof.
  revert k. induction row as [|x row IH]; intros [|k]; simpl; try lra. apply IH.
Qed.

Lemma ncols_scale s q : ncols (scale_matrix s q) = ncols q.
Proof. destruct q as [|row q]; [done|]. unfold ncols. simpl. apply length_fmap. Qed.

Lemma column_scale s k q :
  column k (scale_matrix s q) = (fun x => (s * x)%R) <$> column k q.
Proof.
  unfold column, scale_matrix, mmap. rewrite <- !list_fmap_compose.
  apply list_fmap_ext. intros _ row _. simpl. apply nth_scale.
Qed.

Lemma columns_scale s q : columns (scale_matrix s q) = scale_matrix s (columns q).
Proof.
  unfold columns. rewrite ncols_scale. unfold scale_matrix at 2. unfold mmap.
  rewrite <- list_fmap_compose. apply list_fmap_ext. intros _ k _. simpl.
  apply column_scale.
Qed.

(** Scaling a matrix by [s] scales its product with its transpose by
    [s * s]. *)
Lemma gram_scale s q :
  matmul (scale_matrix s q) (transpose (scale_matrix s q))
  = scale_matrix (s * s) (matmul q (transpose q)).
Proof.
  unfold matmul, transpose. rewrite !columns_scale.
  unfold scale_matrix, mmap. rewrite <- !list_fmap_compose.
  apply list_fmap_ext. intros _ row _. simpl.
  rewrite <- !list_fmap_compose. apply list_fmap_ext. intros _ col _. simpl.
  apply dot_scale.
Qed.

Lemma take_shaped m n (q : matrix) :
  shaped m n q -> (fun row : list R => take n row) <$> take m q = q.
Proof.
  intros [Hl Hf]. rewrite take_ge by lia.
  rewrite <- (list_fmap_id q) at 2. apply Forall_fmap_ext_1.
  eapply Forall_impl; [exact Hf|]. intros row Hrow. simpl in Hrow.
  change (take n row = row). apply take_ge. lia.
Qed.

Lemma shape_of_shaped m n q : shaped m n q -> m <> 0 -> shape_of q = (m, n).
Proof.
  intros Hq Hm. unfold shape_of.
  by rewrite (shaped_length _ _ _ Hq), (shaped_ncols _ _ _ Hq Hm).
Qed.

(** C9: for a shape [(m, n)] with [m <= n] the orthogonal initializer
    returns [scale] times a factor of the decomposition whose rows are
    orthonormal, so the product of the result with its transpose is
    [scale * scale] times the identity of size [m].  The decomposition is
    the library's: its factors have the shapes [(m, m)] and [(m, n)], the
    rows of the second are orthonormal and the first is orthogonal. *)
Theorem orthogonal_rows scale normal svd m n u s v :
  m <= n ->
  svd (normal (m, n)) = (u, s, v) ->
  shaped m m u -> shaped m n v ->
  matmul u (transpose u) = identity_matrix m ->
  matmul v (transpose v) = identity_matrix m ->
  exists Q,
    orthogonal_initializer scale normal svd [m; n] = Some Q /\
    shaped m n Q /\
    matmul Q (transpose Q) = scale_matrix (scale * scale) (identity_matrix m).
Proof.
  intros Hmn Hsvd Hu Hv Huu Hvv. unfold orthogonal_initializer.
  cbn [hd tail prod_list foldr]. rewrite Nat.mul_1_r, Hsvd.
  destruct (decide (shape_of u = (m, n))) as [E|E].
  - assert (Hun : shaped m n u).
    { destruct (decide (m = 0)) as [->|Hm].
      - destruct Hu as [Hl _]. apply nil_length_inv in Hl. subst u. apply shaped_nil.
      - rewrite (shape_of_shaped m m u Hu Hm) in E. by injection E as <-. }
    rewrite (take_shaped m n u Hun). eexists. split; [reflexivity|].
    split; [by apply shaped_mmap|].
    fold (scale_matrix scale u). by rewrite gram_scale, Huu.
  - rewrite (take_shaped m n v Hv). eexists. split; [reflexivity|].
    split; [by apply shaped_mmap|].
    fold (scale_matrix scale v). by rewrite gram_scale, Hvv.
Qed.

(** The sample [[2, 0]] decomposes as [[1]] * [2] * [[1, 0]]. *)
Lemma orthogonal_rows_witness :
  exists Q,
    orthogonal_initializer 3 (fun _ => [[2%R; 0%R]])
      (fun _ => ([[1%R]], [2%R], [[1%R; 0%R]])) [1; 2] = Some Q /\
    shaped 1 2 Q /\
    matmul Q (transpose Q) = scale_matrix (3 * 3) (identity_matrix 1).
Proof.
  refine (orthogonal_rows 3 (fun _ => [[2%R; 0%R]])
            (fun _ => ([[1%R]], [2%R], [[1%R; 0%R]])) 1 2
            [[1%R]] [2%R] [[1%R; 0%R]] _ eq_refl _ _ _ _).
  - lia.
  - split; [reflexivity|repeat constructor].
  - split; [reflexivity|repeat constructor].
  - unfold matmul, transpose, columns, column, dot, ncols, identity_matrix. simpl.
    repeat f_equal. lra.
  - unfold matmul, transpose, columns, column, dot, ncols, identity_matrix. simpl.
    repeat f_equal. lra.
Defined.

(** * Further properties of the code *)

(** ** The variables of the linear map *)

Lemma shaped_scale_matrix a r c q : shaped r c q -> shaped r c (scale_matrix a q).
Proof. apply shaped_mmap. Qed.

Definition example_direction : matrix := [[3%R; 4%R]; [0%R; 3%R]].

Definition example_store : gmap string matrix :=
  <[join_name (vs_name (linear_scope None ones_scope)) "NormalColMatrix"
      := example_direction]> ∅.

(** X3: the linear map reads and writes no variable but the three of its
    own scope: any other name holds after the call what it held before,
    and the outcome of the call does not depend on what is stored there. *)
Theorem linear_frame args output_size bias bias_start scope vs st key :
  key ∉ linear_names scope vs ->
  (_linear args output_size bias bias_start scope vs st).2 !! key = st !! key /\
  forall v,
    (_linear args output_size bias bias_start scope vs (<[key := v]> st)).1
    = (_linear args output_size bias bias_start scope vs st).1.
Proof.
  intros Hk. split; [by apply linear_store_lookup|].
  intros v. by rewrite linear_insert_frame.
Qed.

Lemma linear_frame_witness :
  (_linear (ArgsList [example_input]) 2 true 0 None ones_scope example_store).2
    !! "Other/Scalars" = example_store !! "Other/Scalars" /\
  forall v,
    (_linear (ArgsList [example_input]) 2 true 0 None ones_scope
       (<["Other/Scalars" := v]> example_store)).1
    = (_linear (ArgsList [example_input]) 2 true 0 None ones_scope example_store).1.
Proof.
  apply (linear_frame (ArgsList [example_input]) 2 true 0 None ones_scope
           example_store "Other/Scalars").
  intros H. unfold linear_names in H.
  repeat (apply elem_of_cons in H as [H|H]; [discriminate H|]).
  by apply elem_of_nil in H.
Defined.

(** X4: without a bias the call returns before it asks for the "Bias"
    variable: it creates none, and a bias left in the store by another
    call has no influence on the result. *)
Theorem linear_without_bias args output_size bias_start scope vs st :
  let key := join_name (vs_name (linear_scope scope vs)) "Bias" in
  (_linear args output_size false bias_start scope vs st).2 !! key = st !! key /\
  forall v,
    (_linear args output_size false bias_start scope vs (<[key := v]> st)).1
    = (_linear args output_size false bias_start scope vs st).1.
Proof.
  intros key.
  assert (Hd : key <> join_name (vs_name (linear_scope scope vs)) "NormalColMatrix")
    by (by apply join_name_ne).
  assert (Hs : key <> join_name (vs_name (linear_scope scope vs)) "Scalars")
    by (by apply join_name_ne).
  split.
  - rewrite linear_eq.
    destruct (decide (tensors_of args = [])); [done|].
    destruct (validate (tensors_of args)); try done.
    destruct (decide (norms_nonzero _)); cbn [snd];
      unfold store_after_linear, store_after_scalars;
      by rewrite !var_store_lookup_ne.
  - intros v. rewrite !linear_eq.
    destruct (decide (tensors_of args = [])); [done|].
    destruct (validate (tensors_of args)) as [total| |]; try done.
    assert (HM : direction_matrix output_size scope vs total (<[key := v]> st)
                 = direction_matrix output_size scope vs total st)
      by (by apply var_value_insert).
    rewrite HM. destruct (decide (norms_nonzero _)); cbn [fst]; [|done].
    f_equal. unfold linear_result, direction_matrix, scale_vector.
    by rewrite !var_value_insert.
Qed.

(** X5: as its docstring says, the linear map returns a 2-D tensor of
    shape [batch x output_size]: statically of rank 2 with [output_size] as
    its feature dimension, and at run time one row of [output_size] entries
    for each of the [b] rows of its inputs. *)
Theorem linear_output_shape output_size bias bias_start scope vs args st b :
  let total := total_width args in
  args <> [] -> Forall (fun t => arg_ok t = true) args ->
  has_shape [total; output_size] (direction_matrix output_size scope vs total st) ->
  has_shape [output_size] (scale_vector output_size scope vs st) ->
  (bias = true ->
   has_shape [output_size] (bias_vector output_size bias_start scope vs st)) ->
  norms_nonzero (direction_matrix output_size scope vs total st) ->
  Forall (fun t => length (value t) = b) args ->
  exists res st' d0,
    _linear (ArgsList args) output_size bias bias_start scope vs st
      = (Returned res, st') /\
    get_shape res = Some [d0; Some output_size] /\
    shaped b output_size (value res).
Proof.
  intros total Hne Hok HM Hg HB Hn Hb.
  destruct (linear_outcome output_size bias bias_start scope vs args st Hne Hok)
    as [Hyes _].
  destruct (linear_result_shape output_size bias bias_start scope vs args st)
    as [d0 Hd0].
  eexists _, _, d0. split; [exact (Hyes Hn)|]. split; [exact Hd0|].
  apply linear_value_shaped; try done.
  - pose proof (total_width_pos args Hne Hok). lia.
  - clear -Hne Hb. destruct Hb as [|t args Ht Hb]; [done|]. clear Hne.
    revert t Ht. induction Hb as [|t' args Ht' Hb IH]; intros t Ht; [done|].
    change (length (zip_with app (value t) (concat1 (value <$> t' :: args))) = b).
    rewrite length_zip_with, (IH t' Ht'), Ht. lia.
Qed.

Lemma linear_output_shape_witness :
  exists res st' d0,
    _linear (ArgsList [example_input; zero_state_part]) 4 true 0 None ones_scope ∅
      = (Returned res, st') /\
    get_shape res = Some [d0; Some 4] /\
    shaped 1 4 (value res).
Proof.
  apply (linear_output_shape 4 true 0 None ones_scope
           [example_input; zero_state_part] ∅ 1).
  - done.
  - repeat constructor.
  - unfold direction_matrix. rewrite var_value_empty. apply constant_initializer_shape.
  - unfold scale_vector. rewrite var_value_empty. apply constant_initializer_shape.
  - intros _. unfold bias_vector. rewrite var_value_empty.
    apply constant_initializer_shape.
  - unfold direction_matrix. rewrite var_value_empty.
    refine (ones_norms_nonzero _ _ _). unfold total_width, static_width. simpl. lia.
  - repeat constructor.
Defined.

(** ** The state between two steps *)

Lemma slice_concat_left n (m1 m2 : matrix) :
  Forall (fun row => length row = n) m1 -> length m1 = length m2 ->
  (fun r : list R => take n (drop 0 r)) <$> zip_with app m1 m2 = m1.
Proof.
  intros Hf. revert m2. induction Hf as [|r1 m1 Hr1 _ IH]; intros [|r2 m2] Hl;
    try done.
  simpl in Hl. cbn [zip_with]. rewrite fmap_cons. f_equal.
  - rewrite drop_0. by apply take_app_length'.
  - apply IH. lia.
Qed.

Lemma slice_concat_right n p (m1 m2 : matrix) :
  Forall (fun row => length row = n) m1 ->
  Forall (fun row => length row = p) m2 -> length m1 = length m2 ->
  (fun r : list R => take p (drop n r)) <$> zip_with app m1 m2 = m2.
Proof.
  intros Hf. revert m2. induction Hf as [|r1 m1 Hr1 _ IH]; intros [|r2 m2] Hf2 Hl;
    try done.
  simpl in Hl. inversion Hf2 as [|? ? Hr2 Hf2']; subst.
  cbn [zip_with]. rewrite fmap_cons. f_equal.
  - rewrite drop_app_length' by done. apply take_ge. lia.
  - apply IH; [done|lia].
Qed.

(** X6: the state a step returns is the state the next step takes apart.
    In either representation, unpacking the packed pair [(c, h)] gives
    back the values of [c] and [h], when [c] has [num_units] columns and
    [h] as many as the projection (or [num_units] without one). *)
Theorem state_round_trip self c h b :
  shaped b (num_units self) (value c) ->
  shaped b (projection_size self) (value h) ->
  exists c' h',
    unpack_state self (pack_state self c h) = Returned (c', h') /\
    value c' = value c /\ value h' = value h.
Proof.
  intros [Hlc Hfc] [Hlh Hfh]. unfold unpack_state, pack_state.
  destruct (state_is_tuple self).
  - by eexists _, _.
  - eexists _, _. split; [reflexivity|]. unfold tf_slice, tf_concat1. cbn [value].
    change (concat1 (value <$> [c; h])) with (zip_with app (value c) (value h)).
    split.
    + apply slice_concat_left; [done|lia].
    + fold (projection_size self). apply (slice_concat_right (num_units self)); try done.
      lia.
Qed.

Definition flat_cell : MultiplicativeLSTMCell :=
  __init__ 1 false None (constant_initializer 5) (Some 2) None 1 false tanh.

Lemma state_round_trip_witness :
  exists c' h',
    unpack_state flat_cell
      (pack_state flat_cell (mkTensor (Some [Some 1; Some 1]) [[7%R]])
         (mkTensor (Some [Some 1; Some 2]) [[8%R; 9%R]]))
    = Returned (c', h') /\
    value c' = [[7%R]] /\ value h' = [[8%R; 9%R]].
Proof.
  apply (state_round_trip flat_cell (mkTensor (Some [Some 1; Some 1]) [[7%R]])
           (mkTensor (Some [Some 1; Some 2]) [[8%R; 9%R]]) 1).
  - split; [reflexivity|repeat constructor].
  - split; [reflexivity|repeat constructor].
Defined.

(** ** Ranges *)

Lemma sigmoid_range x : (0 < sigmoid x < 1)%R.
Proof.
  unfold sigmoid. pose proof (exp_pos (Ropp x)) as He.
  split.
  - apply Rdiv_lt_0_compat; lra.
  - apply (Rmult_lt_reg_r (1 + exp (Ropp x))); [lra|].
    unfold Rdiv. rewrite Rmult_assoc, Rinv_l by lra. lra.
Qed.

Lemma tanh_range x : (-1 < tanh x < 1)%R.
Proof.
  unfold tanh, sinh, cosh. pose proof (exp_pos x) as H1.
  pose proof (exp_pos (Ropp x)) as H2.
  assert (Hc : (0 < (exp x + exp (Ropp x)) / 2)%R) by lra.
  split.
  - apply (Rmult_lt_reg_r ((exp x + exp (Ropp x)) / 2)); [exact Hc|].
    unfold Rdiv at 2. rewrite Rmult_assoc, Rinv_l by lra. lra.
  - apply (Rmult_lt_reg_r ((exp x + exp (Ropp x)) / 2)); [exact Hc|].
    unfold Rdiv at 1. rewrite Rmult_assoc, Rinv_l by lra. lra.
Qed.

Lemma bzip_Forall {A B} (f : A -> A -> B) (P Q : A -> Prop) (S : B -> Prop) l1 l2 :
  (forall x y, P x -> Q y -> S (f x y)) ->
  Forall P l1 -> Forall Q l2 -> Forall S (bzip f l1 l2).
Proof.
  intros Hf H1 H2.
  assert (Hz : Forall S (zip_with f l1 l2)).
  { clear -Hf H1 H2. revert l2 H2.
    induction H1 as [|x l1 Hx _ IH]; intros l2 H2; [by constructor|].
    destruct H2 as [|y l2 Hy H2]; [by constructor|].
    cbn [zip_with]. constructor; [by apply Hf|by apply IH]. }
  unfold bzip. destruct l1 as [|x [|x' l1]], l2 as [|y [|y' l2]]; try exact Hz.
  - apply Forall_fmap. eapply Forall_impl; [exact H2|]. intros z Hz'. simpl.
    apply Hf; [|done]. by inversion H1.
  - apply Forall_fmap. eapply Forall_impl; [exact H1|]. intros z Hz'. simpl.
    apply Hf; [done|]. by inversion H2.
Qed.

Lemma broadcast_Forall op (P Q S : R -> Prop) a b :
  (forall x y, P x -> Q y -> S (op x y)) ->
  Forall (Forall P) a -> Forall (Forall Q) b ->
  Forall (Forall S) (broadcast op a b).
Proof.
  intros Hop Ha Hb. unfold broadcast.
  apply (bzip_Forall _ (Forall P) (Forall Q)); [|done|done].
  intros ra rb. by apply bzip_Forall.
Qed.

Lemma mmap_Forall f (S : R -> Prop) a :
  (forall x, S (f x)) -> Forall (Forall S) (mmap f a).
Proof.
  intros Hf. unfold mmap. apply Forall_fmap, Forall_forall. intros row _.
  apply Forall_fmap, Forall_forall. intros x _. apply Hf.
Qed.

(** Whatever the cell state and the gates are, the hidden state is the
    activation, damped by a sigmoid when peepholes are on. *)
Lemma hidden_range self diag c lstm_matrix :
  (forall x, (-1 <= activation self x <= 1)%R) ->
  Forall (Forall (fun x => (-1 <= x <= 1)%R)) (value (hidden self diag c lstm_matrix)).
Proof.
  intros Hact. unfold hidden. destruct diag as [[[w_f w_i] w_o]|].
  - unfold tf_multiply at 1. unfold tf_binary. cbn [value].
    apply (broadcast_Forall Rmult (fun x => (0 <= x <= 1)%R)
             (fun x => (-1 <= x <= 1)%R)).
    + intros x y Hx Hy. nra.
    + apply mmap_Forall. intros x. pose proof (sigmoid_range x). lra.
    + apply mmap_Forall. apply Hact.
  - apply mmap_Forall. apply Hact.
Qed.

(** X7: with an activation whose values lie between -1 and 1, as those of
    the default [tanh] do, and no projection, the output of a step on
    well-shaped inputs has [num_units] entries per row and every entry lies
    between -1 and 1, with or without peepholes. *)
Theorem output_range self scope vs inputs state st c_prev h_prev b :
  (forall x, (-1 <= activation self x <= 1)%R) -> num_proj self = None ->
  unpack_state self state = Returned (c_prev, h_prev) ->
  arg_ok inputs = true -> arg_ok h_prev = true -> num_units self <> 0 ->
  parameters_ok self scope vs inputs h_prev st ->
  well_shaped self inputs c_prev h_prev b ->
  norms_nonzero (multipli_matrix self scope vs inputs h_prev st) ->
  norms_nonzero (lstm_matrix_weights self scope vs inputs h_prev st) ->
  exists h new_state st',
    __call__ self inputs state scope vs st = (Returned (h, new_state), st') /\
    shaped b (num_units self) (value h) /\
    Forall (Forall (fun x => (-1 <= x <= 1)%R)) (value h).
Proof.
  intros Hact Hproj Hu Hi Hh Hn Hp Hw H1 H2.
  rewrite (call_returns self scope vs inputs c_prev h_prev st state Hu Hi Hh Hn H1 H2).
  unfold step_result. eexists _, _, _. split; [reflexivity|].
  unfold project. rewrite Hproj. split; [|by apply hidden_range].
  exact (proj1 (new_hidden_entries self scope vs inputs c_prev h_prev st b Hi Hn Hp Hw)).
Qed.

Lemma output_range_witness :
  exists h new_state st',
    __call__ example_cell example_input example_state None ones_scope ∅
      = (Returned (h, new_state), st') /\
    shaped 1 (num_units example_cell) (value h) /\
    Forall (Forall (fun x => (-1 <= x <= 1)%R)) (value h).
Proof.
  refine (output_range example_cell None ones_scope example_input example_state ∅
            zero_state_part zero_state_part 1 _ eq_refl
            (example_unpack example_cell eq_refl) eq_refl eq_refl
            (example_units_nonzero example_cell eq_refl)
            (example_parameters_ok example_cell)
            (example_well_shaped example_cell eq_refl)
            (example_norms_multipli example_cell eq_refl)
            (example_norms_lstm example_cell eq_refl)).
  intros x. pose proof (tanh_range x). cbn [activation example_cell __init__ truthy].
  lra.
Defined.

Lemma gated_sum_bound a b s1 s2 :
  (0 < s1 < 1)%R -> (0 < s2 < 1)%R ->
  (Rabs (a * s1 + s2 * b) <= Rabs a + Rabs b)%R.
Proof.
  intros H1 H2. unfold Rabs. repeat destruct (Rcase_abs _); nra.
Qed.

Lemma clip_shrinks K x : (0 <= K)%R -> (Rabs (clip (- K) K x) <= Rabs x)%R.
Proof.
  intros HK. unfold clip, Rmax, Rmin, Rabs.
  repeat destruct (Rle_dec _ _); repeat destruct (Rcase_abs _); lra.
Qed.

Lemma new_cell_entry_bound self w_f w_i c_prev i j f :
  (forall K, cell_clip self = Some K -> (0 <= K)%R) ->
  (Rabs (new_cell_entry self w_f w_i c_prev i j f) <= Rabs c_prev + Rabs j)%R.
Proof.
  intros HK. unfold new_cell_entry.
  set (u := if use_peepholes self then _ else _).
  assert (Hu : (Rabs u <= Rabs c_prev + Rabs j)%R).
  { unfold u. destruct (use_peepholes self); apply gated_sum_bound;
      apply sigmoid_range. }
  clearbody u. destruct (cell_clip self) as [K|]; [|done].
  eapply Rle_trans; [apply clip_shrinks; by apply HK|done].
Qed.

(** X8: the gates only damp.  Every entry of the cell state a step returns
    is at most, in absolute value, the entry of the previous cell state
    plus the candidate value [j], with or without peepholes and clipping
    (a clip bound being non-negative). *)
Theorem cell_state_bound self scope vs inputs state st c_prev h_prev b :
  (forall K, cell_clip self = Some K -> (0 <= K)%R) ->
  unpack_state self state = Returned (c_prev, h_prev) ->
  arg_ok inputs = true -> arg_ok h_prev = true -> num_units self <> 0 ->
  parameters_ok self scope vs inputs h_prev st ->
  well_shaped self inputs c_prev h_prev b ->
  norms_nonzero (multipli_matrix self scope vs inputs h_prev st) ->
  norms_nonzero (lstm_matrix_weights self scope vs inputs h_prev st) ->
  exists h c st',
    __call__ self inputs state scope vs st = (Returned (h, pack_state self c h), st') /\
    forall r k, r < b -> k < num_units self ->
      (Rabs (entry (value c) r k)
       <= Rabs (entry (value c_prev) r k)
          + Rabs (entry (value (gates self scope vs inputs h_prev st)) r
                    (num_units self + k)))%R.
Proof.
  intros HK Hu Hi Hh Hn Hp Hw H1 H2.
  rewrite (call_returns self scope vs inputs c_prev h_prev st state Hu Hi Hh Hn H1 H2).
  unfold step_result. eexists _, _, _. split; [reflexivity|].
  intros r k Hr Hk.
  destruct (new_cell_entries self scope vs inputs c_prev h_prev st b Hi Hn Hp Hw)
    as [_ He].
  rewrite (He r k Hr Hk). by apply new_cell_entry_bound.
Qed.

Lemma cell_state_bound_witness :
  exists h c st',
    __call__ clipped_cell example_input example_state None ones_scope ∅
      = (Returned (h, pack_state clipped_cell c h), st') /\
    forall r k, r < 1 -> k < num_units clipped_cell ->
      (Rabs (entry (value c) r k)
       <= Rabs (entry (value zero_state_part) r k)
          + Rabs (entry (value (gates clipped_cell None ones_scope example_input
                                  zero_state_part ∅)) r
                    (num_units clipped_cell + k)))%R.
Proof.
  refine (cell_state_bound clipped_cell None ones_scope example_input example_state ∅
            zero_state_part zero_state_part 1 _
            (example_unpack clipped_cell eq_refl) eq_refl eq_refl
            (example_units_nonzero clipped_cell eq_refl)
            (example_parameters_ok clipped_cell)
            (example_well_shaped clipped_cell eq_refl)
            (example_norms_multipli clipped_cell eq_refl)
            (example_norms_lstm clipped_cell eq_refl)).
  intros K HK. injection HK as <-. lra.
Defined.

(** ** A projection size of zero *)

(** X9: the constructor tests [num_proj] for truth, the step tests it
    against [None].  A cell built with [num_proj = 0] and a concatenated
    state is declared like a cell without projection ([output_size =
    num_units], [state_size = 2 * num_units]), but its step slices a hidden
    state of width zero out of the state and so raises on every call,
    leaving the store untouched. *)
Theorem zero_projection_flat n peep cclip init pclip fb act inputs state scope vs st :
  let self := __init__ n peep cclip init (Some 0) pclip fb false act in
  output_size self = n /\ state_size self = FlatSize (2 * n) /\
  raises (__call__ self inputs state scope vs st) /\
  (__call__ self inputs state scope vs st).2 = st.
Proof.
  intros self. split; [reflexivity|]. split; [reflexivity|].
  unfold raises. rewrite call_eq.
  destruct state as [c h|t]; cbn [unpack_state self __init__ truthy state_is_tuple];
    [by eauto|].
  destruct (with_rank_2_dim_1 (get_shape inputs)) as [[w|]| |] eqn:Hr;
    try (by eauto).
  - rewrite linear_eq. cbn [tensors_of]. rewrite decide_False by done.
    set (h_prev := tf_slice t _ _).
    assert (Hv : exists e, validate [inputs; h_prev] = Raised e).
    { apply validate_raises. right. left. reflexivity. }
    destruct Hv as [e ->]. by eauto.
  - unfold with_rank_2_dim_1 in Hr. destruct (get_shape inputs) as [l|]; [|done].
    by destruct (length l =? 2)%nat.
Qed.

(** ** Tall shapes of the orthogonal initializer *)

Lemma matmul_scale s (a b : matrix) :
  matmul (scale_matrix s a) (scale_matrix s b) = scale_matrix (s * s) (matmul a b).
Proof.
  unfold matmul. rewrite columns_scale.
  unfold scale_matrix, mmap. rewrite <- !list_fmap_compose.
  apply list_fmap_ext. intros _ row _. simpl.
  rewrite <- !list_fmap_compose. apply list_fmap_ext. intros _ col _. simpl.
  apply dot_scale.
Qed.

(** X10: for a shape [(m, n)] with at least as many rows as columns the
    initializer takes the first factor of the decomposition, whose shape
    is the requested one, and returns [scale] times it: when the columns of
    that factor are orthonormal, as the library promises, the product of
    the transpose of the result with the result is [scale * scale] times
    the identity of size [n]. *)
Theorem orthogonal_columns scale normal svd m n u s v :
  n <= m ->
  svd (normal (m, n)) = (u, s, v) ->
  shaped m n u ->
  matmul (transpose u) u = identity_matrix n ->
  exists Q,
    orthogonal_initializer scale normal svd [m; n] = Some Q /\
    Q = scale_matrix scale u /\
    shaped m n Q /\
    matmul (transpose Q) Q = scale_matrix (scale * scale) (identity_matrix n).
Proof.
  intros Hnm Hsvd Hu Huu. unfold orthogonal_initializer.
  cbn [hd tail prod_list foldr]. rewrite Nat.mul_1_r, Hsvd.
  assert (E : shape_of u = (m, n)).
  { destruct (decide (m = 0)) as [->|Hm].
    - destruct Hu as [Hl _]. apply nil_length_inv in Hl. subst u.
      unfold shape_of, ncols. simpl. f_equal. lia.
    - by apply shape_of_shaped. }
  rewrite decide_True by exact E. rewrite (take_shaped m n u Hu).
  eexists. split; [reflexivity|]. fold (scale_matrix scale u).
  split; [reflexivity|]. split; [by apply shaped_scale_matrix|].
  unfold transpose. rewrite columns_scale, matmul_scale.
  unfold transpose in Huu. by rewrite Huu.
Qed.

(** The sample [[2], [0]] decomposes as [[1], [0]] * [2] * [[1]]. *)
Lemma orthogonal_columns_witness :
  exists Q,
    orthogonal_initializer 3 (fun _ => [[2%R]; [0%R]])
      (fun _ => ([[1%R]; [0%R]], [2%R], [[1%R]])) [2; 1] = Some Q /\
    Q = scale_matrix 3 [[1%R]; [0%R]] /\
    shaped 2 1 Q /\
    matmul (transpose Q) Q = scale_matrix (3 * 3) (identity_matrix 1).
Proof.
  refine (orthogonal_columns 3 (fun _ => [[2%R]; [0%R]])
            (fun _ => ([[1%R]; [0%R]], [2%R], [[1%R]])) 2 1
            [[1%R]; [0%R]] [2%R] [[1%R]] _ eq_refl _ _).
  - lia.
  - split; [reflexivity|repeat constructor].
  - unfold matmul, transpose, columns, column, dot, ncols, identity_matrix. simpl.
    repeat f_equal. lra.
Defined.

(** ** Parameters are created once *)

Lemma var_store_present vs name shape init st :
  is_Some (st !! join_name (vs_name vs) name) ->
  var_store vs name shape init st = st.
Proof.
  intros [v Hv]. unfold var_store, var_value. rewrite Hv. simpl.
  by apply insert_id.
Qed.

Lemma var_store_is_Some vs name shape init st key :
  is_Some (st !! key) -> is_Some (var_store vs name shape init st !! key).
Proof.
  intros H. unfold var_store. apply lookup_insert_is_Some.
  destruct (decide (join_name (vs_name vs) name = key)); [by left|by right].
Qed.

Lemma var_store_creates vs name shape init st :
  is_Some (var_store vs name shape init st !! join_name (vs_name vs) name).
Proof. unfold var_store. rewrite lookup_insert_eq. by eexists. Qed.

(** All the names of a list hold a value in the store. *)
Definition present (keys : list string) (st : gmap string matrix) : Prop :=
  Forall (fun key => is_Some (st !! key)) keys.

Lemma present_linear_names scope vs st :
  present (linear_names scope vs) st <->
  is_Some (st !! join_name (vs_name (linear_scope scope vs)) "NormalColMatrix") /\
  is_Some (st !! join_name (vs_name (linear_scope scope vs)) "Scalars") /\
  is_Some (st !! join_name (vs_name (linear_scope scope vs)) "Bias").
Proof.
  unfold present, linear_names. cbn [fmap list_fmap].
  rewrite !Forall_cons, Forall_nil. tauto.
Qed.

(** A linear map whose three parameters exist leaves the store as it is. *)
Lemma linear_store_present args output_size bias bias_start scope vs st :
  present (linear_names scope vs) st ->
  (_linear args output_size bias bias_start scope vs st).2 = st.
Proof.
  intros (HM & HS & HB)%present_linear_names. rewrite linear_eq.
  destruct (decide (tensors_of args = [])); [done|].
  destruct (validate (tensors_of args)) as [total| |]; try done.
  assert (E : store_after_scalars output_size scope vs total st = st).
  { unfold store_after_scalars. rewrite (var_store_present _ "NormalColMatrix") by done.
    by apply var_store_present. }
  destruct (decide (norms_nonzero _)); cbn [snd]; [|exact E].
  unfold store_after_linear. rewrite E. destruct bias; [|done].
  by apply var_store_present.
Qed.

Lemma linear_store_is_Some args output_size bias bias_start scope vs st key :
  is_Some (st !! key) ->
  is_Some ((_linear args output_size bias bias_start scope vs st).2 !! key).
Proof.
  intros H. rewrite linear_eq.
  destruct (decide (tensors_of args = [])); [done|].
  destruct (validate (tensors_of args)) as [total| |]; try done.
  destruct (decide (norms_nonzero _)); cbn [snd];
    unfold store_after_linear, store_after_scalars; destruct bias;
    repeat apply var_store_is_Some; done.
Qed.

(** A linear map with bias that returns has created its three parameters. *)
Lemma linear_returned_present args output_size bias_start scope vs st res st' :
  _linear args output_size true bias_start scope vs st = (Returned res, st') ->
  present (linear_names scope vs) st'.
Proof.
  rewrite linear_eq.
  destruct (decide (tensors_of args = [])); [done|].
  destruct (validate (tensors_of args)) as [total| |]; try done.
  destruct (decide (norms_nonzero _)); [|done].
  intros [= _ <-]. apply present_linear_names.
  unfold store_after_linear, store_after_scalars.
  split; [|split].
  - do 2 apply var_store_is_Some. apply var_store_creates.
  - apply var_store_is_Some. apply var_store_creates.
  - apply var_store_creates.
Qed.

Section sharing.
Context (self : MultiplicativeLSTMCell) (scope : option string) (vs : VariableScope).

Definition peephole_names : list string :=
  if use_peepholes self
  then (fun n => join_name (vs_name (cell_scope scope vs)) n)
         <$> ["W_F_diag"; "W_I_diag"; "W_O_diag"]
  else [].

Definition projection_names : list string :=
  match num_proj self with
  | Some _ => [join_name (vs_name (cell_scope scope vs)) "W_P"]
  | None => []
  end.

(** The names of all the variables a step of the cell asks for. *)
Definition cell_names : list string :=
  linear_names None (multipli_scope scope vs)
  ++ linear_names None (lstm_scope scope vs)
  ++ peephole_names ++ projection_names.

Lemma step_store_is_Some st key :
  is_Some (st !! key) -> is_Some (step_store self scope vs st !! key).
Proof.
  intros H. unfold step_store, store_after_projection, store_after_diagonals.
  destruct (num_proj self); destruct (use_peepholes self);
    repeat apply var_store_is_Some; done.
Qed.

Lemma step_store_creates st :
  present (peephole_names ++ projection_names) (step_store self scope vs st).
Proof.
  unfold present, peephole_names, projection_names, step_store,
    store_after_projection, store_after_diagonals.
  destruct (num_proj self); destruct (use_peepholes self); cbn [fmap list_fmap app];
    repeat constructor;
    first [apply var_store_creates
          |apply var_store_is_Some, var_store_creates
          |do 2 apply var_store_is_Some; apply var_store_creates
          |do 3 apply var_store_is_Some; apply var_store_creates].
Qed.

Lemma step_store_present st :
  present (peephole_names ++ projection_names) st ->
  step_store self scope vs st = st.
Proof.
  unfold present, peephole_names, projection_names, step_store,
    store_after_projection, store_after_diagonals.
  destruct (num_proj self); destruct (use_peepholes self); cbn [fmap list_fmap app];
    rewrite ?Forall_cons; intros H; try done.
  - destruct H as (HF & HI & HO & HP & _).
    rewrite (var_store_present _ "W_F_diag") by done.
    rewrite (var_store_present _ "W_I_diag") by done.
    rewrite (var_store_present _ "W_O_diag") by done.
    by apply var_store_present.
  - destruct H as (HP & _). by apply var_store_present.
  - destruct H as (HF & HI & HO & _).
    rewrite (var_store_present _ "W_F_diag") by done.
    rewrite (var_store_present _ "W_I_diag") by done.
    by apply var_store_present.
Qed.

(** A step that finds all its variables in the store leaves the store as
    it is, whatever its outcome. *)
Lemma call_store_present inputs state st :
  present cell_names st -> (__call__ self inputs state scope vs st).2 = st.
Proof.
  unfold cell_names, present. rewrite !Forall_app. intros (H1 & H2 & H3).
  rewrite call_eq.
  destruct (unpack_state self state) as [[c_prev h_prev]| |]; try done.
  destruct (with_rank_2_dim_1 (get_shape inputs)) as [[w|]| |]; try done.
  pose proof (linear_store_present (ArgsList [inputs; h_prev])
                (2 * num_units self) true 0 None (multipli_scope scope vs) st H1) as E1.
  unfold multipli_scope in E1.
  destruct (_linear (ArgsList [inputs; h_prev]) _ _ _ _ _ st)
    as [[concat| |] st1]; cbn [snd] in E1 |- *; subst st1; try done.
  pose proof (linear_store_present (ArgsList [inputs; multiplicative_term concat])
                (4 * num_units self) true 0 None (lstm_scope scope vs) st H2) as E2.
  unfold lstm_scope in E2.
  destruct (_linear (ArgsList [inputs; multiplicative_term concat]) _ _ _ _ _ st)
    as [[lstm_matrix| |] st2]; cbn [snd] in E2 |- *; subst st2; try done.
  apply step_store_present. by apply Forall_app.
Qed.

(** A step that returns has created every variable of the cell. *)
Lemma call_returned_present inputs state st out st' :
  __call__ self inputs state scope vs st = (Returned out, st') ->
  present cell_names st'.
Proof.
  rewrite call_eq.
  destruct (unpack_state self state) as [[c_prev h_prev]| |]; try done.
  destruct (with_rank_2_dim_1 (get_shape inputs)) as [[w|]| |]; try done.
  destruct (_linear (ArgsList [inputs; h_prev]) _ _ _ _ _ st)
    as [[concat| |] st1] eqn:E1; try done.
  destruct (_linear (ArgsList [inputs; multiplicative_term concat]) _ _ _ _ _ st1)
    as [[lstm_matrix| |] st2] eqn:E2; try done.
  intros [= _ <-].
  apply linear_returned_present in E1 as P1.
  apply linear_returned_present in E2 as P2.
  unfold cell_names, present. rewrite !Forall_app. split; [|split].
  - eapply Forall_impl; [exact P1|]. intros key Hkey. simpl in Hkey.
    apply step_store_is_Some.
    pose proof (linear_store_is_Some (ArgsList [inputs; multiplicative_term concat])
                  (4 * num_units self) true 0 None
                  (variable_scope (cell_scope scope vs) "LSTM_Weight") st1 key Hkey)
      as H.
    by rewrite E2 in H.
  - eapply Forall_impl; [exact P2|]. intros key Hkey. by apply step_store_is_Some.
  - apply Forall_app. apply step_store_creates.
Qed.
End sharing.

(** X11: the parameters are created by the first step and shared by every
    later one.  After a step that returned, a further step of the cell in
    the same scope, on any input and state and whatever its outcome,
    leaves the variable store exactly as the first step left it. *)
Theorem parameters_created_once self scope vs inputs state st out st'
    inputs' state' :
  __call__ self inputs state scope vs st = (Returned out, st') ->
  (__call__ self inputs' state' scope vs st').2 = st'.
Proof.
  intros H. apply call_store_present. by eapply call_returned_present.
Qed.

Lemma parameters_created_once_witness :
  (__call__ example_cell example_input example_state None ones_scope
     (step_store example_cell None ones_scope
        (store2 example_cell None ones_scope example_input zero_state_part ∅))).2
  = step_store example_cell None ones_scope
      (store2 example_cell None ones_scope example_input zero_state_part ∅).
Proof.
  exact (parameters_created_once example_cell None ones_scope example_input
           example_state ∅ _ _ example_input example_state
           (example_call_returns example_cell eq_refl eq_refl)).
Defined.

(** ** The variables of the cell *)

Section cell_frame.
Context (self : MultiplicativeLSTMCell) (scope : option string) (vs : VariableScope).
Context (key : string) (Hkey : key ∉ cell_names self scope vs).

Lemma key_not_multipli : key ∉ linear_names None (multipli_scope scope vs).
Proof. intros H. apply Hkey. unfold cell_names. apply elem_of_app. by left. Qed.

Lemma key_not_lstm : key ∉ linear_names None (lstm_scope scope vs).
Proof.
  intros H. apply Hkey. unfold cell_names. apply elem_of_app. right.
  apply elem_of_app. by left.
Qed.

Lemma key_not_peephole name :
  use_peepholes self = true -> name ∈ ["W_F_diag"; "W_I_diag"; "W_O_diag"] ->
  key <> join_name (vs_name (cell_scope scope vs)) name.
Proof.
  intros Hp Hname E. apply Hkey. unfold cell_names.
  apply elem_of_app. right. apply elem_of_app. right. apply elem_of_app. left.
  unfold peephole_names. rewrite Hp, E. apply list_elem_of_fmap. by exists name.
Qed.

Lemma key_not_projection p :
  num_proj self = Some p -> key <> join_name (vs_name (cell_scope scope vs)) "W_P".
Proof.
  intros Hp E. apply Hkey. unfold cell_names.
  apply elem_of_app. right. apply elem_of_app. right. apply elem_of_app. right.
  unfold projection_names. rewrite Hp, E. apply list_elem_of_here.
Qed.

Lemma step_store_lookup_other st : step_store self scope vs st !! key = st !! key.
Proof.
  unfold step_store, store_after_projection, store_after_diagonals.
  destruct (num_proj self) as [p|] eqn:Hp; destruct (use_peepholes self) eqn:Hpeep;
    rewrite ?var_store_lookup_ne; try done;
    first [by eapply key_not_projection | apply key_not_peephole; [done|in_list]].
Qed.

Lemma step_result_insert c_prev lstm_matrix st v :
  step_result self scope vs c_prev lstm_matrix (<[key := v]> st)
  = step_result self scope vs c_prev lstm_matrix st.
Proof.
  assert (Hd : diagonals self scope vs (<[key := v]> st) = diagonals self scope vs st).
  { unfold diagonals, peephole. destruct (use_peepholes self) eqn:Hpeep; [|done].
    rewrite !var_value_insert; try done; apply key_not_peephole; try done; in_list. }
  unfold step_result. rewrite Hd. unfold project, projection_matrix.
  destruct (num_proj self) as [p|] eqn:Hp; [|done].
  rewrite var_value_insert by (by eapply key_not_projection). done.
Qed.

Lemma call_lookup_other inputs state st :
  (__call__ self inputs state scope vs st).2 !! key = st !! key.
Proof.
  rewrite call_eq.
  destruct (unpack_state self state) as [[c_prev h_prev]| |]; try done.
  destruct (with_rank_2_dim_1 (get_shape inputs)) as [[w|]| |]; try done.
  pose proof (linear_store_lookup (ArgsList [inputs; h_prev]) (2 * num_units self)
                true 0 None (multipli_scope scope vs) st key key_not_multipli) as H1.
  unfold multipli_scope in H1.
  destruct (_linear (ArgsList [inputs; h_prev]) _ _ _ _ _ st)
    as [[concat| |] st1]; cbn [snd] in H1 |- *; try done.
  pose proof (linear_store_lookup (ArgsList [inputs; multiplicative_term concat])
                (4 * num_units self) true 0 None (lstm_scope scope vs) st1 key
                key_not_lstm) as H2.
  unfold lstm_scope in H2.
  destruct (_linear (ArgsList [inputs; multiplicative_term concat]) _ _ _ _ _ st1)
    as [[lstm_matrix| |] st2]; cbn [snd] in H2 |- *; try congruence.
  rewrite step_store_lookup_other. congruence.
Qed.

Lemma call_insert_other inputs state st v :
  (__call__ self inputs state scope vs (<[key := v]> st)).1
  = (__call__ self inputs state scope vs st).1.
Proof.
  rewrite !call_eq.
  destruct (unpack_state self state) as [[c_prev h_prev]| |]; try done.
  destruct (with_rank_2_dim_1 (get_shape inputs)) as [[w|]| |]; try done.
  pose proof (linear_insert_frame (ArgsList [inputs; h_prev]) (2 * num_units self)
                true 0 None (multipli_scope scope vs) st key v key_not_multipli) as H1.
  unfold multipli_scope in H1. rewrite H1. clear H1.
  destruct (_linear (ArgsList [inputs; h_prev]) _ _ _ _ _ st)
    as [[concat| |] st1]; cbn [fst snd]; try done.
  pose proof (linear_insert_frame (ArgsList [inputs; multiplicative_term concat])
                (4 * num_units self) true 0 None (lstm_scope scope vs) st1 key v
                key_not_lstm) as H2.
  unfold lstm_scope in H2. rewrite H2. clear H2.
  destruct (_linear (ArgsList [inputs; multiplicative_term concat]) _ _ _ _ _ st1)
    as [[lstm_matrix| |] st2]; cbn [fst snd]; try done.
  by rewrite step_result_insert.
Qed.
End cell_frame.

(** X12: a step reads and writes the variables of the cell only: the two
    sets of three of its linear maps, the peephole diagonals when peepholes
    are on and the projection matrix when there is a projection.  Any
    other name holds after the step what it held before, and what is
    stored there has no influence on the outcome. *)
Theorem cell_frame self scope vs inputs state st key :
  key ∉ cell_names self scope vs ->
  (__call__ self inputs state scope vs st).2 !! key = st !! key /\
  forall v,
    (__call__ self inputs state scope vs (<[key := v]> st)).1
    = (__call__ self inputs state scope vs st).1.
Proof.
  intros Hkey. split; [by apply call_lookup_other|].
  intros v. by apply call_insert_other.
Qed.

Lemma cell_frame_witness :
  (__call__ example_cell example_input example_state None ones_scope ∅).2
    !! "Other/W_P" = (∅ : gmap string matrix) !! "Other/W_P" /\
  forall v,
    (__call__ example_cell example_input example_state None ones_scope
       (<["Other/W_P" := v]> ∅)).1
    = (__call__ example_cell example_input example_state None ones_scope ∅).1.
Proof.
  apply (cell_frame example_cell None ones_scope example_input example_state ∅
           "Other/W_P").
  intros H. unfold cell_names, linear_names, peephole_names, projection_names in H.
  cbn [use_peepholes num_proj example_cell __init__ truthy fmap list_fmap app] in H.
  repeat (apply elem_of_cons in H as [H|H]; [discriminate H|]).
  by apply elem_of_nil in H.
Defined.

(** * Errors *)

(** ** The checked operations where the shapes fit *)

Lemma broadcastable_same d : broadcastable d d = true.
Proof. destruct d as [x|]; [|done]. simpl. by rewrite Nat.eqb_refl. Qed.

Lemma compatible_same d : compatible d d = true.
Proof. destruct d as [x|]; [|done]. simpl. by rewrite Nat.eqb_refl. Qed.

Lemma bdim_idem d : bdim d d = d.
Proof. destruct d as [x|]; [|done]. apply bdim_same. Qed.

(** A matrix and a matrix of the same static shape. *)
Lemma binary_matrices op a b d n :
  get_shape a = Some [d; Some n] -> get_shape b = Some [d; Some n] ->
  Checked.tf_binary op a b = Returned (tf_binary op a b) /\
  get_shape (tf_binary op a b) = Some [d; Some n].
Proof.
  intros Ha Hb. unfold Checked.tf_binary, tf_binary. cbn [get_shape].
  rewrite Ha, Hb. cbn [broadcast_ok broadcast_shape rev app broadcastable_rev broadcast_rev].
  rewrite !broadcastable_same, !bdim_idem. done.
Qed.

(** A vector against the rows of a matrix, on either side. *)
Lemma binary_vector_matrix op v a d n :
  get_shape v = Some [Some n] -> get_shape a = Some [d; Some n] ->
  Checked.tf_binary op v a = Returned (tf_binary op v a) /\
  get_shape (tf_binary op v a) = Some [d; Some n].
Proof.
  intros Hv Ha. unfold Checked.tf_binary, tf_binary. cbn [get_shape].
  rewrite Ha, Hv. cbn [broadcast_ok broadcast_shape rev app broadcastable_rev broadcast_rev].
  rewrite !broadcastable_same, !bdim_idem. done.
Qed.

Lemma binary_matrix_vector op a v d n :
  get_shape a = Some [d; Some n] -> get_shape v = Some [Some n] ->
  Checked.tf_binary op a v = Returned (tf_binary op a v) /\
  get_shape (tf_binary op a v) = Some [d; Some n].
Proof.
  intros Ha Hv. unfold Checked.tf_binary, tf_binary. cbn [get_shape].
  rewrite Ha, Hv. cbn [broadcast_ok broadcast_shape rev app broadcastable_rev broadcast_rev].
  rewrite !broadcastable_same, !bdim_idem. done.
Qed.

Lemma binary_vectors op u v n :
  get_shape u = Some [Some n] -> get_shape v = Some [Some n] ->
  Checked.tf_binary op u v = Returned (tf_binary op u v) /\
  get_shape (tf_binary op u v) = Some [Some n].
Proof.
  intros Hu Hv. unfold Checked.tf_binary, tf_binary. cbn [get_shape].
  rewrite Hu, Hv. cbn [broadcast_ok broadcast_shape rev app broadcastable_rev broadcast_rev].
  rewrite !broadcastable_same, !bdim_idem. done.
Qed.

(** A matrix and a scalar constant. *)
Lemma binary_matrix_scalar op a x s :
  get_shape a = Some s ->
  Checked.tf_binary op a (tf_constant x) = Returned (tf_binary op a (tf_constant x)) /\
  get_shape (tf_binary op a (tf_constant x)) = Some s.
Proof.
  intros Ha. unfold Checked.tf_binary, tf_binary. cbn [get_shape tf_constant].
  rewrite Ha. cbn [broadcast_ok broadcast_shape rev].
  assert (E : broadcast_rev (rev s) [] = rev s) by (by destruct (rev s)).
  assert (E' : broadcastable_rev (rev s) [] = true) by (by destruct (rev s)).
  rewrite E, E', rev_involutive. done.
Qed.

Lemma matmul_matrices a b d k n :
  get_shape a = Some [d; Some k] -> get_shape b = Some [Some k; Some n] ->
  Checked.tf_matmul a b = Returned (tf_matmul a b) /\
  get_shape (tf_matmul a b) = Some [d; Some n].
Proof.
  intros Ha Hb. unfold Checked.tf_matmul, tf_matmul. cbn [get_shape].
  rewrite Ha, Hb. cbn [matmul_ok length nth dim compatible Nat.eqb andb check].
  by rewrite Nat.eqb_refl.
Qed.

Lemma split_matrix k t d n :
  k <> 0 -> get_shape t = Some [d; Some (k * n)] ->
  Checked.tf_split t k = Returned (tf_split t k) /\
  forall i, get_shape (split_part k i t) = Some [d; Some n].
Proof.
  intros Hk Ht. unfold Checked.tf_split, split_part. cbn [get_shape].
  rewrite Ht. cbn [split_ok dim nth].
  rewrite Nat.mul_comm, Nat.Div0.mod_mul, Nat.div_mul by done. done.
Qed.

Lemma concat_pair a b d wa wb :
  get_shape a = Some [d; Some wa] -> get_shape b = Some [d; Some wb] ->
  concat_ok [a; b] = true /\
  get_shape (tf_concat1 [a; b]) = Some [d; Some (wa + wb)].
Proof.
  intros Ha Hb. unfold concat_ok, tf_concat1. cbn [forallb foldr get_shape].
  rewrite Ha, Hb. cbn [concat_pair_ok compatible_shapes dim nth sum_dim].
  rewrite compatible_same. split; [done|].
  rewrite Nat.add_0_r. by destruct d.
Qed.

(** ** Variables and the reuse flag *)

(** The store lets [tf.get_variable] answer under the scope's [reuse] flag:
    with the flag off the name is free, with the flag on it holds a value of
    the shape asked for. *)
Definition usable (reuse : bool) (vs : VariableScope) (name : string)
    (shape : list nat) (st : gmap string matrix) : Prop :=
  match st !! join_name (vs_name vs) name with
  | Some v => reuse = true /\ shape_matches shape v = true
  | None => reuse = false
  end.

Lemma checked_get_variable_eq reuse vs name shape init st :
  usable reuse vs name shape st ->
  Checked.get_variable reuse vs name shape init st
  = (Returned (mkTensor (Some (fmap Some shape)) (var_value vs name shape init st)),
     var_store vs name shape init st).
Proof.
  intros H. rewrite <- get_variable_eq. revert H.
  unfold usable, Checked.get_variable, get_variable.
  destruct (st !! _) as [v|]; [intros [-> ->]|intros ->]; reflexivity.
Qed.

Lemma usable_var_store reuse vs name shape st vs' name' shape' init' :
  join_name (vs_name vs) name <> join_name (vs_name vs') name' ->
  usable reuse vs name shape st ->
  usable reuse vs name shape (var_store vs' name' shape' init' st).
Proof. intros H. unfold usable. by rewrite var_store_lookup_ne. Qed.

(** ** The checked linear map *)

Lemma concat_width args :
  Forall (fun t => arg_ok t = true) args ->
  foldr (fun t d => sum_dim (dim 1 (get_shape t)) d) (Some 0) args
  = Some (total_width args).
Proof.
  induction 1 as [|t args Ht _ IH]; [done|].
  cbn [foldr total_width]. rewrite IH. unfold static_width.
  destruct (arg_ok_width _ Ht) as [w ->]. done.
Qed.

Lemma single_width t :
  arg_ok t = true ->
  get_shape t = Some [dim 0 (get_shape t); Some (total_width [t])].
Proof.
  unfold arg_ok, total_width, static_width.
  destruct t as [[[|b [|[[|n]|] [|? ?]]]|] v]; simpl; try done.
  intros _. by rewrite Nat.add_0_r.
Qed.

Section checked_linear.
Context (reuse : bool) (output_size : nat) (bias : bool) (bias_start : R)
        (scope : option string) (vs : VariableScope).

(** The store lets the three variables of the linear map be found or
    created. *)
Definition linear_store_fits (total : nat) (st : gmap string matrix) : Prop :=
  usable reuse (linear_scope scope vs) "NormalColMatrix" [total; output_size] st /\
  usable reuse (linear_scope scope vs) "Scalars" [output_size] st /\
  (bias = true -> usable reuse (linear_scope scope vs) "Bias" [output_size] st).

(** The checked linear map once its own checks have passed. *)
Lemma checked_linear_outcome args st total :
  tensors_of args <> [] ->
  validate (tensors_of args) = Returned total ->
  linear_store_fits total st ->
  Checked._linear reuse args output_size bias bias_start scope vs st =
  if decide (norms_nonzero (direction_matrix output_size scope vs total st)) then
    if decide (length (tensors_of args) = 1 \/ concat_ok (tensors_of args) = true)
    then (Returned (linear_result output_size bias bias_start scope vs
                      (tensors_of args) st),
          store_after_linear output_size bias bias_start scope vs total st)
    else (Raised shape_error, store_after_scalars output_size scope vs total st)
  else (NonFinite, store_after_scalars output_size scope vs total st).
Proof.
  intros Hne Hv (HM & Hg & HB).
  assert (Hok : Forall (fun t => arg_ok t = true) (tensors_of args))
    by (by eapply validate_returned).
  assert (Hw : total_width (tensors_of args) = total)
    by (rewrite (validate_ok _ Hok) in Hv; congruence).
  unfold Checked._linear.
  destruct args as [|t|[|t l]]; simpl tensors_of in *; try done.
  all: match goal with |- context [shapes_of ?l] => set (l' := l) in * end.
  all: clearbody l'.
  all: unfold validate in Hv; unfold bind, lift.
  all: destruct (shapes_of l') as [shapes| |] eqn:Hs; try done.
  all: rewrite Hv.
  all: fold (linear_scope scope vs).
  all: rewrite (checked_get_variable_eq _ _ _ _ _ _ HM).
  all: assert (Hg' : usable reuse (linear_scope scope vs) "Scalars" [output_size]
                       (var_store (linear_scope scope vs) "NormalColMatrix"
                          [total; output_size] None st))
    by (apply usable_var_store; [by apply join_name_ne|done]).
  all: rewrite (checked_get_variable_eq _ _ _ _ _ _ Hg').
  all: rewrite var_value_store_ne by done.
  all: cbv beta iota.
  all: rewrite divide_scalar_norm; cbn [value].
  all: fold (direction_matrix output_size scope vs total st).
  all: destruct (decide (norms_nonzero _)) as [Hn|Hn]; [|reflexivity].
  all: cbv beta iota.
  all: match goal with |- context [Checked.tf_multiply ?g ?inv] =>
         destruct (binary_vectors Rmult g inv output_size eq_refl eq_refl)
           as [E1 S1]
       end.
  all: unfold Checked.tf_multiply; rewrite E1; cbv beta iota.
  all: match goal with |- context [Checked.tf_binary Rmult ?M ?sn] =>
         destruct (binary_matrix_vector Rmult M sn (Some total) output_size
                     eq_refl S1) as [E2 S2]
       end.
  all: rewrite E2; cbv beta iota.
  all: match type of S2 with get_shape ?w = _ =>
         assert (HR : linear_result output_size bias bias_start scope vs l' st
                      = let res := if decide (length l' = 1)
                                   then tf_matmul (hd (tf_constant 0) l') w
                                   else tf_matmul (tf_concat1 l') w in
                        if bias
                        then tf_add res
                               (mkTensor (Some [Some output_size])
                                  (bias_vector output_size bias_start scope vs st))
                        else res)
           by (unfold linear_result; rewrite Hw; reflexivity);
         set (W := w) in *
       end.
  all: clear E1 S1 E2; clearbody W.
  all: rewrite HR; clear HR.
  all: assert (HB' : bias = true ->
         usable reuse (linear_scope scope vs) "Bias" [output_size]
           (store_after_scalars output_size scope vs total st))
    by (intros Hb; unfold store_after_scalars;
        do 2 (apply usable_var_store; [by apply join_name_ne|]); by apply HB).
  all: fold (store_after_scalars output_size scope vs total st).
  all: assert (Hres : forall x d,
         get_shape x = Some [d; Some total] ->
         (let (o0, st'0) := (Checked.tf_matmul x W,
                             store_after_scalars output_size scope vs total st) in
          match o0 with
          | Returned a3 =>
              (if negb bias then ret a3
               else fun st0 : gmap string matrix =>
                 let (o1, st'1) :=
                   Checked.get_variable reuse (linear_scope scope vs) "Bias"
                     [output_size] (Some (constant_initializer bias_start)) st0 in
                 match o1 with
                 | Returned a4 => (Checked.tf_add a3 a4, st'1)
                 | Raised e => (Raised e, st'1)
                 | NonFinite => (NonFinite, st'1)
                 end) st'0
          | Raised e => (Raised e, st'0)
          | NonFinite => (NonFinite, st'0)
          end)
         = (Returned (if bias
                      then tf_add (tf_matmul x W)
                             (mkTensor (Some [Some output_size])
                                (bias_vector output_size bias_start scope vs st))
                      else tf_matmul x W),
            store_after_linear output_size bias bias_start scope vs total st)).
  1, 3: intros x d Hx;
    destruct (matmul_matrices x W d total output_size Hx S2) as [E3 S3];
    rewrite E3; unfold store_after_linear; destruct bias; cbn [negb]; [|reflexivity];
    rewrite (checked_get_variable_eq _ _ _ _ _ _ (HB' eq_refl));
    unfold Checked.tf_add;
    match goal with |- context [Checked.tf_binary Rplus ?r ?bt] =>
      destruct (binary_matrix_vector Rplus r bt d output_size S3 eq_refl) as [E4 _]
    end;
    rewrite E4; unfold bias_vector, store_after_scalars;
    rewrite !var_value_store_ne by done; reflexivity.
  all: destruct (decide (length l' = 1)) as [Hl|Hl].
  1, 3: rewrite decide_True by (by left);
    destruct l' as [|x [|? ?]]; try done; cbn [hd];
    apply (Hres x (dim 0 (get_shape x)));
    pose proof (Forall_inv Hok) as Hx; rewrite <- Hw; by apply single_width.
  all: unfold Checked.tf_concat1, check.
  all: destruct (concat_ok l') eqn:Hc.
  1, 3: rewrite decide_True by (by right);
    apply (Hres (tf_concat1 l') (dim 0 (get_shape (tf_concat1 l'))));
    unfold tf_concat1; cbn [get_shape dim nth];
    by rewrite (concat_width _ Hok), Hw.
  all: rewrite decide_False by (intros [?|?]; done).
  all: reflexivity.
Qed.
End checked_linear.

Lemma checked_linear_no_args reuse args output_size bias bias_start scope vs st :
  tensors_of args = [] ->
  Checked._linear reuse args output_size bias bias_start scope vs st
  = (Raised (ValueError "`args` must be specified"), st).
Proof. by destruct args as [|t|[|t l]]. Qed.

Lemma checked_linear_refused reuse args output_size bias bias_start scope vs st e :
  tensors_of args <> [] ->
  validate (tensors_of args) = Raised e ->
  Checked._linear reuse args output_size bias bias_start scope vs st = (Raised e, st).
Proof.
  intros Hne Hv. unfold Checked._linear.
  destruct args as [|t|[|t l]]; simpl tensors_of in *; try done.
  all: unfold validate in Hv; unfold bind, lift.
  all: destruct (shapes_of _) as [shapes| |]; try done; try congruence.
  all: by rewrite Hv.
Qed.

(** Where the operands of the concatenation fit and the store can be used,
    the checked linear map is the linear map. *)
Lemma checked_linear_agrees reuse args output_size bias bias_start scope vs st :
  length (tensors_of args) = 1 \/ concat_ok (tensors_of args) = true ->
  linear_store_fits reuse output_size bias scope vs
    (total_width (tensors_of args)) st ->
  Checked._linear reuse args output_size bias bias_start scope vs st
  = _linear args output_size bias bias_start scope vs st.
Proof.
  intros Hc Hfit. rewrite linear_eq.
  destruct (decide (tensors_of args = [])) as [E|E];
    [by apply checked_linear_no_args|].
  destruct (validate (tensors_of args)) as [total|e|] eqn:Hv.
  - assert (Hw : total_width (tensors_of args) = total).
    { apply validate_returned in Hv as Hok. rewrite (validate_ok _ Hok) in Hv.
      congruence. }
    rewrite Hw in Hfit.
    rewrite (checked_linear_outcome _ _ _ bias_start _ _ _ _ _ E Hv Hfit).
    by rewrite (decide_True _ _ Hc).
  - by apply checked_linear_refused.
  - by apply validate_not_nonfinite in Hv.
Qed.

Lemma checked_linear_rejects reuse args output_size bias bias_start scope vs st :
  tensors_of args = [] \/
  Exists (fun t => ~ rank_2 t \/ width_unknown_or_zero t) (tensors_of args) ->
  raises (Checked._linear reuse args output_size bias bias_start scope vs st) /\
  (Checked._linear reuse args output_size bias bias_start scope vs st).2 = st.
Proof.
  intros H. unfold raises.
  destruct (decide (tensors_of args = [])) as [E|E].
  { rewrite checked_linear_no_args by done. split; [by eexists|done]. }
  destruct H as [H|H]; [done|].
  assert (HE : exists e, validate (tensors_of args) = Raised e).
  { apply validate_raises. eapply Exists_impl; [exact H|].
    intros t. apply arg_ok_false. }
  destruct HE as [e He].
  rewrite (checked_linear_refused _ _ _ _ _ _ _ _ e E He). split; [by eexists|done].
Qed.

(** With operands that fit and a store that can be used, the linear map
    raises only on what its own checks refuse. *)
Lemma checked_linear_raises_iff reuse args output_size bias bias_start scope vs st :
  concat_ok (tensors_of args) = true ->
  linear_store_fits reuse output_size bias scope vs
    (total_width (tensors_of args)) st ->
  raises (Checked._linear reuse args output_size bias bias_start scope vs st) <->
  tensors_of args = [] \/
  Exists (fun t => ~ rank_2 t \/ width_unknown_or_zero t) (tensors_of args).
Proof.
  intros Hc Hfit. split; [|intros H; by apply checked_linear_rejects].
  intros [e He].
  destruct (decide (tensors_of args = [])) as [E|E]; [by left|right].
  destruct (validate (tensors_of args)) as [total|e'|] eqn:Hv.
  - exfalso.
    assert (Hw : total_width (tensors_of args) = total).
    { apply validate_returned in Hv as Hok. rewrite (validate_ok _ Hok) in Hv.
      congruence. }
    rewrite Hw in Hfit.
    rewrite (checked_linear_outcome _ _ _ bias_start _ _ _ _ _ E Hv Hfit) in He.
    rewrite (decide_True _ _ (or_intror Hc)) in He.
    by destruct (decide (norms_nonzero _)).
  - assert (HE : Exists (fun t => arg_ok t = false) (tensors_of args))
      by (apply validate_raises; by eexists).
    eapply Exists_impl; [exact HE|]. intros t. apply arg_ok_false.
  - by apply validate_not_nonfinite in Hv.
Qed.

(** ** The checked step *)

Lemma linear_result_pair_shape output_size bias_start scope vs x y st d wx wy :
  get_shape x = Some [d; Some wx] -> get_shape y = Some [d; Some wy] ->
  get_shape (linear_result output_size true bias_start scope vs [x; y] st)
  = Some [d; Some output_size].
Proof.
  intros Hx Hy. unfold linear_result.
  rewrite decide_False by done.
  set (W := tf_multiply _ _).
  assert (HW : dim 1 (get_shape W) = Some output_size).
  { unfold W. simpl. by destruct output_size as [|[|?]]. }
  clearbody W. unfold tf_add, tf_binary, tf_matmul, tf_concat1.
  cbn [get_shape foldr]. rewrite Hx, Hy, HW.
  cbn [dim nth broadcast_shape rev app broadcast_rev merge_dim].
  rewrite bdim_same. by destruct d.
Qed.

Section checked_step.
Context (reuse : bool) (self : MultiplicativeLSTMCell) (scope : option string)
        (vs : VariableScope).

(** The recurrent state has the static shape the cell expects: batch
    dimension [batch], a cell state of [num_units] features and a hidden
    state of [hw] features, as a pair or side by side in one tensor. *)
Definition state_fits (batch : Dimension) (hw : nat) (state : State) : Prop :=
  match state with
  | LSTMStateTuple c_prev h_prev =>
      state_is_tuple self = true /\
      get_shape c_prev = Some [batch; Some (num_units self)] /\
      get_shape h_prev = Some [batch; Some hw]
  | FlatState t =>
      state_is_tuple self = false /\
      get_shape t = Some [batch; Some (num_units self + hw)] /\
      hw = projection_size self
  end.

(** The store lets every variable of the step be found or created, for an
    input of [w] features and a hidden state of [hw]. *)
Definition step_store_fits (w hw : nat) (st : gmap string matrix) : Prop :=
  linear_store_fits reuse (2 * num_units self) true None (multipli_scope scope vs)
    (w + hw) st /\
  linear_store_fits reuse (4 * num_units self) true None (lstm_scope scope vs)
    (w + num_units self) st /\
  (use_peepholes self = true ->
   forall name, name ∈ ["W_F_diag"; "W_I_diag"; "W_O_diag"] ->
     usable reuse (cell_scope scope vs) name [num_units self] st) /\
  (forall p, num_proj self = Some p ->
     usable reuse (cell_scope scope vs) "W_P" [num_units self; p] st).

Lemma state_fits_unpack batch hw state st :
  state_fits batch hw state ->
  exists c_prev h_prev,
    Checked.unpack_state self state st = (Returned (c_prev, h_prev), st) /\
    unpack_state self state = Returned (c_prev, h_prev) /\
    get_shape c_prev = Some [batch; Some (num_units self)] /\
    get_shape h_prev = Some [batch; Some hw].
Proof.
  unfold state_fits, Checked.unpack_state, unpack_state.
  destruct state as [c h|t].
  - intros (-> & Hc & Hh). by exists c, h.
  - intros (-> & Ht & ->).
    exists (tf_slice t 0 (num_units self)),
           (tf_slice t (num_units self) (projection_size self)).
    unfold bind, lift, Checked.tf_slice, tf_slice. cbn [get_shape].
    rewrite Ht. done.
Qed.

Lemma usable_frame name shape st st' :
  st' !! join_name (vs_name (cell_scope scope vs)) name
  = st !! join_name (vs_name (cell_scope scope vs)) name ->
  usable reuse (cell_scope scope vs) name shape st ->
  usable reuse (cell_scope scope vs) name shape st'.
Proof. intros H. unfold usable. by rewrite H. Qed.

Lemma linear_store_fits_frame out bias scope' vs' total st st' :
  (forall key, key ∈ linear_names scope' vs' -> st' !! key = st !! key) ->
  linear_store_fits reuse out bias scope' vs' total st ->
  linear_store_fits reuse out bias scope' vs' total st'.
Proof.
  intros H (HM & Hg & HB). unfold linear_store_fits, usable in *.
  rewrite !H; [done|unfold linear_names; in_list..].
Qed.
End checked_step.

Lemma linear_pair_returned output_size bias_start scope vs x y st res st' d wx wy :
  _linear (ArgsList [x; y]) output_size true bias_start scope vs st
  = (Returned res, st') ->
  get_shape x = Some [d; Some wx] -> get_shape y = Some [d; Some wy] ->
  get_shape res = Some [d; Some output_size] /\
  forall key, key ∉ linear_names scope vs -> st' !! key = st !! key.
Proof.
  intros E Hx Hy. split.
  - rewrite linear_eq in E. simpl tensors_of in E.
    destruct (decide ([x; y] = [])); [done|].
    destruct (validate [x; y]); try done.
    destruct (decide (norms_nonzero _)); [|done].
    injection E as <- _. by eapply linear_result_pair_shape.
  - intros key Hkey.
    pose proof (linear_store_lookup (ArgsList [x; y]) output_size true bias_start
                  scope vs st key Hkey) as H.
    by rewrite E in H.
Qed.

Lemma lstm_name_not_multipli scope vs key :
  key ∈ linear_names None (lstm_scope scope vs) ->
  key ∉ linear_names None (multipli_scope scope vs).
Proof.
  unfold linear_names. intros H1 H2.
  apply list_elem_of_fmap in H1 as (a & -> & Ha).
  apply list_elem_of_fmap in H2 as (b & E & Hb).
  symmetry in E. exact (linear_names_differ scope vs b a Hb Ha E).
Qed.

(** Operands whose static shape is at hand fit each other. *)
Ltac operand_shape :=
  cbn [get_shape tf_sigmoid tf_unary tf_clip_by_value];
  first [eassumption | reflexivity].

Ltac passes lemma :=
  let E := fresh "E" in
  let S := fresh "S" in
  edestruct lemma as [E S];
  [operand_shape.. | rewrite E; clear E; cbv beta iota].

Ltac check_passes :=
  match goal with
  | |- context [Checked.tf_binary ?op ?a (tf_constant ?x)] =>
      passes (binary_matrix_scalar op a x)
  | |- context [Checked.tf_binary ?op ?a ?b] =>
      first [ passes (binary_matrices op a b)
            | passes (binary_vector_matrix op a b)
            | passes (binary_matrix_vector op a b) ]
  | |- context [Checked.tf_matmul ?a ?b] => passes (matmul_matrices a b)
  end.

Section checked_call.
Context (reuse : bool) (self : MultiplicativeLSTMCell) (scope : option string)
        (vs : VariableScope) (inputs : Tensor) (state : State)
        (st : gmap string matrix) (batch : Dimension) (w hw : nat).
Context (Hin : get_shape inputs = Some [batch; Some w])
        (Hw : w <> 0) (Hhw : hw <> 0) (Hn : num_units self <> 0)
        (Hstate : state_fits self batch hw state)
        (Hstore : step_store_fits reuse self scope vs w hw st).

(** A step whose shapes fit is the step of the operations themselves. *)
Lemma checked_call_agrees :
  Checked.__call__ reuse self inputs state scope vs st
  = __call__ self inputs state scope vs st.
Proof.
  destruct (state_fits_unpack self batch hw state st Hstate)
    as (c_prev & h_prev & Hcu & Hu & Hc & Hh).
  destruct Hstore as (Hs1 & Hs2 & Hs3 & Hs4).
  rewrite call_eq, Hu.
  unfold Checked.__call__, bind, lift. rewrite Hcu. cbn [fst snd].
  unfold with_rank_2_dim_1. rewrite Hin. cbn [length Nat.eqb nth].
  fold (cell_scope scope vs). fold (multipli_scope scope vs).
  fold (lstm_scope scope vs).
  assert (Hw1 : total_width [inputs; h_prev] = w + hw).
  { unfold total_width, static_width. cbn [foldr]. rewrite Hin, Hh. simpl. lia. }
  rewrite (checked_linear_agrees reuse (ArgsList [inputs; h_prev]));
    [|right; by apply (concat_pair inputs h_prev batch w hw)
     |cbn [tensors_of]; by rewrite Hw1].
  destruct (_linear (ArgsList [inputs; h_prev]) _ _ _ _ _ st)
    as [[concat| |] st1] eqn:E1; try reflexivity.
  destruct (linear_pair_returned _ _ _ _ _ _ _ _ _ _ _ _ E1 Hin Hh) as [Sc F1].
  destruct (split_matrix 2 concat batch (num_units self) ltac:(done) Sc)
    as [Esplit Shalf].
  rewrite Esplit. cbv beta iota.
  change (tf_split concat 2) with [split_part 2 0 concat; split_part 2 1 concat].
  cbn [nth]. unfold Checked.tf_multiply, Checked.tf_add.
  destruct (binary_matrices Rmult (split_part 2 0 concat) (split_part 2 1 concat)
              batch (num_units self) (Shalf 0) (Shalf 1)) as [Em Sm].
  rewrite Em. cbv beta iota.
  change (tf_binary Rmult (split_part 2 0 concat) (split_part 2 1 concat))
    with (multiplicative_term concat) in *.
  assert (Hw2 : total_width [inputs; multiplicative_term concat]
                = w + num_units self).
  { unfold total_width, static_width. cbn [foldr]. rewrite Hin, Sm. simpl. lia. }
  rewrite (checked_linear_agrees reuse (ArgsList [inputs; multiplicative_term concat]));
    [|right; by apply (concat_pair inputs _ batch w (num_units self))
     |cbn [tensors_of]; rewrite Hw2;
      apply (linear_store_fits_frame reuse _ _ _ _ _ st); [|done];
      intros key Hkey; by apply F1, lstm_name_not_multipli].
  destruct (_linear (ArgsList [inputs; multiplicative_term concat]) _ _ _ _ _ st1)
    as [[lstm_matrix| |] st2] eqn:E2; try reflexivity.
  destruct (linear_pair_returned _ _ _ _ _ _ _ _ _ _ _ _ E2 Hin Sm) as [Sl F2].
  destruct (split_matrix 4 lstm_matrix batch (num_units self) ltac:(done) Sl)
    as [Esplit4 Squarter].
  rewrite Esplit4. cbv beta iota.
  change (tf_split lstm_matrix 4)
    with [split_part 4 0 lstm_matrix; split_part 4 1 lstm_matrix;
          split_part 4 2 lstm_matrix; split_part 4 3 lstm_matrix].
  cbn [nth].
  pose proof (Squarter 0) as Si. pose proof (Squarter 1) as Sj.
  pose proof (Squarter 2) as Sf. pose proof (Squarter 3) as So.
  assert (F : forall name, name ∈ ["W_F_diag"; "W_I_diag"; "W_O_diag"; "W_P"] ->
            st2 !! join_name (vs_name (cell_scope scope vs)) name
            = st !! join_name (vs_name (cell_scope scope vs)) name).
  { intros name Hname. rewrite F2, F1; [done|..].
    - apply (cell_name_not_linear scope vs "Multipli_Weight"); [in_list|done].
    - apply (cell_name_not_linear scope vs "LSTM_Weight"); [in_list|done]. }
  unfold step_result, step_store, diagonals, store_after_diagonals, project,
    store_after_projection, cell_update, clip_cell, hidden, pack_state,
    projection_matrix, peephole, ret, tf_add, tf_multiply, projection_size.
  destruct (use_peepholes self) eqn:Hp.
  1: { assert (UF : usable reuse (cell_scope scope vs) "W_F_diag" [num_units self] st2)
         by (eapply usable_frame; [apply F; in_list|apply Hs3; [done|in_list]]).
       assert (UI : usable reuse (cell_scope scope vs) "W_I_diag" [num_units self] st2)
         by (eapply usable_frame; [apply F; in_list|apply Hs3; [done|in_list]]).
       assert (UO : usable reuse (cell_scope scope vs) "W_O_diag" [num_units self] st2)
         by (eapply usable_frame; [apply F; in_list|apply Hs3; [done|in_list]]).
       rewrite (checked_get_variable_eq _ _ _ _ _ _ UF). cbv beta iota.
       rewrite (checked_get_variable_eq reuse _ "W_I_diag");
         [|apply usable_var_store; [by apply join_name_ne|done]].
       cbv beta iota.
       rewrite (checked_get_variable_eq reuse _ "W_O_diag");
         [|do 2 (apply usable_var_store; [by apply join_name_ne|]); done].
       cbv beta iota.
       rewrite !var_value_store_ne by done.
       clear UF UI UO.
       destruct (cell_clip self) as [k|]; repeat check_passes.
       all: destruct (num_proj self) as [p|] eqn:Hproj; cbn [default]; cbv beta iota.
       all: try (rewrite (checked_get_variable_eq reuse _ "W_P");
                 [|do 3 (apply usable_var_store; [by apply join_name_ne|]);
                   eapply usable_frame; [apply F; in_list|by apply Hs4]];
                 cbv beta iota; rewrite !var_value_store_ne by done;
                 check_passes).
       all: destruct (proj_clip self) as [k'|]; destruct (state_is_tuple self);
         cbv beta iota; try reflexivity.
       all: unfold Checked.tf_concat1;
         match goal with |- context [check (concat_ok [?c; ?h])] =>
           let E := fresh "E" in
           edestruct (concat_pair c h) as [E _]; [operand_shape..|rewrite E]
         end; reflexivity. }
  cbv beta iota.
  destruct (cell_clip self) as [k|]; repeat check_passes.
  all: destruct (num_proj self) as [p|] eqn:Hproj; cbn [default]; cbv beta iota.
  all: try (rewrite (checked_get_variable_eq reuse _ "W_P");
            [|eapply usable_frame; [apply F; in_list|by apply Hs4]];
            cbv beta iota; check_passes).
  all: destruct (proj_clip self) as [k'|]; destruct (state_is_tuple self);
    cbv beta iota; try reflexivity.
  all: unfold Checked.tf_concat1;
    match goal with |- context [check (concat_ok [?c; ?h])] =>
      let E := fresh "E" in
      edestruct (concat_pair c h) as [E _]; [operand_shape..|rewrite E]
    end; reflexivity.
Qed.

Lemma checked_call_accepted :
  ~ raises (Checked.__call__ reuse self inputs state scope vs st).
Proof.
  rewrite checked_call_agrees.
  destruct (state_fits_unpack self batch hw state st Hstate)
    as (c_prev & h_prev & _ & Hu & _ & Hh).
  apply (call_accepted_not_raises self scope vs inputs c_prev h_prev st state Hu);
    [| |done].
  - unfold arg_ok. rewrite Hin. by destruct w.
  - unfold arg_ok. rewrite Hh. by destruct hw.
Qed.
End checked_call.

Lemma checked_call_unknown_input_size reuse self inputs state scope vs st :
  dim 1 (get_shape inputs) = None ->
  raises (Checked.__call__ reuse self inputs state scope vs st) /\
  (Checked.__call__ reuse self inputs state scope vs st).2 = st.
Proof.
  intros H. unfold raises, Checked.__call__, Checked.unpack_state, bind, lift,
    Checked.tf_slice, check, raise, ret.
  destruct (state_is_tuple self), state as [c h|t]; cbv beta iota; try by eauto.
  2: destruct (slice_ok (get_shape t)); cbv beta iota; try by eauto.
  all: unfold with_rank_2_dim_1; destruct inputs as [[l|] v]; simpl in *;
    [|by eauto].
  all: destruct (length l =? 2)%nat; simpl; [|by eauto].
  all: rewrite H; simpl; by eauto.
Qed.

(** ** Which errors, and what they leave behind *)

Lemma usable_fresh vs name shape : usable false vs name shape ∅.
Proof. unfold usable. by rewrite lookup_empty. Qed.

Lemma linear_store_fits_fresh output_size bias scope vs total :
  linear_store_fits false output_size bias scope vs total ∅.
Proof. repeat split; intros; apply usable_fresh. Qed.

Lemma step_store_fits_fresh self scope vs w hw :
  step_store_fits false self scope vs w hw ∅.
Proof.
  repeat split; intros; first [apply usable_fresh | apply linear_store_fits_fresh].
Qed.

(** An input of two rows, against the one row of [example_input]. *)
Definition two_row_input : Tensor :=
  mkTensor (Some [Some 2; Some 2]) [[1%R; 1%R]; [1%R; 1%R]].

(** C6 does not hold as the specification words it.  The linear map on two
    inputs of rank 2 and known width 2 whose batch dimensions, 1 and 2,
    differ: none of the listed conditions holds, yet [tf.concat] raises,
    and by then [NormalColMatrix] and [Scalars] have been created in the
    store. *)
Lemma errors_counterexample :
  raises (Checked._linear false (ArgsList [example_input; two_row_input]) 2 true 0
            None ones_scope ∅) /\
  ~ (tensors_of (ArgsList [example_input; two_row_input]) = [] \/
     Exists (fun t => ~ rank_2 t \/ width_unknown_or_zero t)
       (tensors_of (ArgsList [example_input; two_row_input]))) /\
  (Checked._linear false (ArgsList [example_input; two_row_input]) 2 true 0
     None ones_scope ∅).2
  = <["Linear/Scalars" := [[1%R; 1%R]]]>
      (<["Linear/NormalColMatrix" := replicate 4 [1%R; 1%R]]> ∅) /\
  (Checked._linear false (ArgsList [example_input; two_row_input]) 2 true 0
     None ones_scope ∅).2 <> ∅.
Proof.
  assert (E : Checked._linear false (ArgsList [example_input; two_row_input]) 2 true 0
                None ones_scope ∅
              = (Raised shape_error,
                 store_after_scalars 2 None ones_scope 4 ∅)).
  { rewrite (checked_linear_outcome false 2 true 0 None ones_scope _ ∅ 4);
      [|done|reflexivity|apply linear_store_fits_fresh].
    rewrite decide_True.
    - rewrite decide_False; [done|]. intros [H|H]; discriminate H.
    - unfold direction_matrix. rewrite var_value_empty. by apply ones_norms_nonzero. }
  rewrite E. split; [by eexists|]. split; [|split].
  - intros [H|H]; [discriminate H|].
    apply Exists_cons in H as [H|H]; [|apply Exists_cons in H as [H|H]].
    + destruct H as [H|[H|H]]; try discriminate H. apply H. by eexists.
    + destruct H as [H|[H|H]]; try discriminate H. apply H. by eexists.
    + by apply Exists_nil in H.
  - reflexivity.
  - cbn [snd]. unfold store_after_scalars, var_store. apply insert_non_empty.
Qed.

(** C6, as the code has it: the linear map raises, before it creates any
    variable, when it is given no input, or an input is not of rank 2, or an
    input's feature width is statically unknown or zero; when moreover the
    static shapes of its inputs fit [tf.concat] and the store can be used
    under the scope's reuse flag, these are its only errors.  The step
    raises, before it creates any variable, when the feature dimension of
    its input is not statically known; a step whose input and state have
    static shapes that fit (one batch dimension, known non-zero feature
    widths, a cell state of [num_units] features), under a store that can be
    used, does not raise. *)
Theorem checked_errors :
  (forall reuse args output_size bias bias_start scope vs st,
     tensors_of args = [] \/
     Exists (fun t => ~ rank_2 t \/ width_unknown_or_zero t) (tensors_of args) ->
     raises (Checked._linear reuse args output_size bias bias_start scope vs st) /\
     (Checked._linear reuse args output_size bias bias_start scope vs st).2 = st) /\
  (forall reuse args output_size bias bias_start scope vs st,
     concat_ok (tensors_of args) = true ->
     linear_store_fits reuse output_size bias scope vs
       (total_width (tensors_of args)) st ->
     (raises (Checked._linear reuse args output_size bias bias_start scope vs st) <->
      tensors_of args = [] \/
      Exists (fun t => ~ rank_2 t \/ width_unknown_or_zero t) (tensors_of args))) /\
  (forall reuse self inputs state scope vs st,
     dim 1 (get_shape inputs) = None ->
     raises (Checked.__call__ reuse self inputs state scope vs st) /\
     (Checked.__call__ reuse self inputs state scope vs st).2 = st) /\
  (forall reuse self inputs state scope vs st batch w hw,
     get_shape inputs = Some [batch; Some w] ->
     w <> 0 -> hw <> 0 -> num_units self <> 0 ->
     state_fits self batch hw state ->
     step_store_fits reuse self scope vs w hw st ->
     ~ raises (Checked.__call__ reuse self inputs state scope vs st)).
Proof.
  split; [intros; by apply checked_linear_rejects|].
  split; [intros; by apply checked_linear_raises_iff|].
  split; [intros; by apply checked_call_unknown_input_size|].
  intros reuse self inputs state scope vs st batch w hw Hin Hw Hhw Hn Hstate Hstore.
  exact (checked_call_accepted reuse self scope vs inputs state st batch w hw
           Hin Hw Hhw Hn Hstate Hstore).
Qed.

Lemma checked_errors_witness :
  (raises (Checked._linear false (ArgsList [unknown_width_input]) 2 true 0 None
             ones_scope ∅) /\
   (Checked._linear false (ArgsList [unknown_width_input]) 2 true 0 None
      ones_scope ∅).2 = ∅) /\
  ~ raises (Checked._linear false (ArgsList [example_input]) 2 true 0 None
              ones_scope ∅) /\
  raises (Checked.__call__ false example_cell unknown_width_input example_state
            None ones_scope ∅) /\
  ~ raises (Checked.__call__ false example_cell example_input example_state
              None ones_scope ∅).
Proof.
  destruct checked_errors as (Hrejects & Hiff & Hunknown & Haccepted).
  split; [|split; [|split]].
  - apply Hrejects. right. left. right. left. reflexivity.
  - intros Hr.
    apply (Hiff false (ArgsList [example_input]) 2 true 0%R None ones_scope ∅
             eq_refl (linear_store_fits_fresh 2 true None ones_scope _)) in Hr.
    destruct Hr as [Hr|Hr]; [discriminate Hr|].
    apply Exists_cons in Hr as [Hr|Hr]; [|by apply Exists_nil in Hr].
    destruct Hr as [Hr|[Hr|Hr]]; try discriminate Hr. apply Hr. by eexists.
  - apply (Hunknown false example_cell unknown_width_input example_state None
             ones_scope ∅). reflexivity.
  - apply (Haccepted false example_cell example_input example_state None ones_scope
             ∅ (Some 1) 2 1); done.
Defined.

Definition two_unit_cell : MultiplicativeLSTMCell :=
  __init__ 2 false None (constant_initializer 5) None None 1 true tanh.

(** A cell state of three features beside a hidden state of two. *)
Definition wide_state : State :=
  LSTMStateTuple (mkTensor (Some [Some 1; Some 3]) [[0%R; 0%R; 0%R]])
                 (mkTensor (Some [Some 1; Some 2]) [[0%R; 0%R]]).

(** The same in the step: a cell of two units given a cell state of three
    features.  Both linear maps pass, and the product of line 150 raises
    when their six variables are in the store. *)
Example step_error_after_creation :
  raises (Checked.__call__ false two_unit_cell example_input wide_state None
            ones_scope ∅) /\
  present (linear_names None (multipli_scope None ones_scope)
           ++ linear_names None (lstm_scope None ones_scope))
    (Checked.__call__ false two_unit_cell example_input wide_state None
       ones_scope ∅).2.
Proof.
  set (h_prev := mkTensor (Some [Some 1; Some 2]) [[0%R; 0%R]]).
  set (c_prev := mkTensor (Some [Some 1; Some 3]) [[0%R; 0%R; 0%R]]).
  assert (E : Checked.__call__ false two_unit_cell example_input wide_state None
                ones_scope ∅
              = (Raised shape_error,
                 store2 two_unit_cell None ones_scope example_input h_prev ∅)).
  { unfold Checked.__call__, bind, lift. cbn [Checked.unpack_state two_unit_cell
      __init__ truthy state_is_tuple wide_state ret fst snd num_units].
    cbn [with_rank_2_dim_1 example_input get_shape length Nat.eqb nth].
    fold h_prev c_prev.
    fold (cell_scope None ones_scope). fold (multipli_scope None ones_scope).
    fold (lstm_scope None ones_scope).
    rewrite (checked_linear_outcome false (2 * 2) true 0 None
               (multipli_scope None ones_scope) _ ∅ 4);
      [|done|reflexivity|apply linear_store_fits_fresh].
    rewrite decide_True
      by (unfold direction_matrix; rewrite var_value_empty; by apply ones_norms_nonzero).
    rewrite decide_True by (by right).
    cbv beta iota. cbn [tensors_of].
    change (linear_result (2 * 2) true 0 None (multipli_scope None ones_scope)
              [example_input; h_prev] ∅)
      with (first_linear two_unit_cell None ones_scope example_input h_prev ∅).
    change (store_after_linear (2 * 2) true 0 None (multipli_scope None ones_scope) 4 ∅)
      with (store1 two_unit_cell None ones_scope example_input h_prev ∅).
    set (concat := first_linear _ _ _ _ _ _).
    set (st1 := store1 _ _ _ _ _ _).
    assert (Sc : get_shape concat = Some [Some 1; Some (2 * 2)])
      by (by eapply linear_result_pair_shape).
    destruct (split_matrix 2 concat (Some 1) 2 ltac:(done) Sc) as [Es Sh].
    rewrite Es. cbv beta iota.
    change (tf_split concat 2) with [split_part 2 0 concat; split_part 2 1 concat].
    cbn [nth]. unfold Checked.tf_multiply, Checked.tf_add.
    destruct (binary_matrices Rmult (split_part 2 0 concat) (split_part 2 1 concat)
                (Some 1) 2 (Sh 0) (Sh 1)) as [Em Sm].
    rewrite Em. cbv beta iota.
    change (tf_binary Rmult (split_part 2 0 concat) (split_part 2 1 concat))
      with (multiplicative_term concat) in *.
    assert (Hok : Forall (fun t => arg_ok t = true)
                    [example_input; multiplicative_term concat]).
    { constructor; [done|]. constructor; [|constructor].
      unfold arg_ok. by rewrite Sm. }
    assert (Hw : total_width [example_input; multiplicative_term concat] = 4).
    { unfold total_width, static_width. cbn [foldr]. by rewrite Sm. }
    rewrite (checked_linear_outcome false (4 * 2) true 0 None
               (lstm_scope None ones_scope) _ st1 4);
      [|done|by rewrite <- Hw; apply validate_ok
       |apply (linear_store_fits_frame false _ _ _ _ _ ∅);
          [|apply linear_store_fits_fresh];
        intros key Hkey; apply store1_lookup_other;
        by apply lstm_name_not_multipli].
    rewrite decide_True.
    2: { unfold direction_matrix, var_value, st1.
         rewrite store1_lstm_lookup by in_list. rewrite lookup_empty.
         by apply ones_norms_nonzero. }
    rewrite decide_True
      by (right; by apply (concat_pair example_input _ (Some 1) 2 2)).
    cbv beta iota. cbn [tensors_of].
    set (lstm_matrix := linear_result _ _ _ _ _ _ _).
    assert (Sl : get_shape lstm_matrix = Some [Some 1; Some (4 * 2)])
      by (by eapply linear_result_pair_shape).
    destruct (split_matrix 4 lstm_matrix (Some 1) 2 ltac:(done) Sl) as [Es4 Sq].
    rewrite Es4. cbv beta iota.
    change (tf_split lstm_matrix 4)
      with [split_part 4 0 lstm_matrix; split_part 4 1 lstm_matrix;
            split_part 4 2 lstm_matrix; split_part 4 3 lstm_matrix].
    cbn [nth use_peepholes ret].
    pose proof (Sq 2) as Sf.
    check_passes.
    unfold Checked.tf_binary at 1. cbn [get_shape tf_sigmoid tf_unary c_prev].
    rewrite S. reflexivity. }
  rewrite E. split; [by eexists|]. cbn [snd].
  unfold present. apply Forall_app.
  unfold linear_names. cbn [fmap list_fmap].
  unfold store2, store1, store_after_linear, store_after_scalars.
  split; repeat constructor;
    repeat first [apply var_store_creates | apply var_store_is_Some].
Qed.
